(** * Workspace launcher extension: directory search and workspace launch

    A shallow embedding of [main.py]: [find_matching_dirs], the keyword-query
    listener and the item-enter listener, over an explicit model of the
    parts of the Python runtime they call ([str] methods, [pathlib],
    [os.walk], [Path.mkdir], [subprocess.Popen], [logging]). *)

From Stdlib Require Import String Ascii List Bool Arith Lia.
From stdpp Require Import base gmap strings list.

(** ** Python [str] operations *)

Module Str.

Definition slash : ascii := "/"%char.

(** [s.startswith(p)] *)
Definition startswith (s p : string) : bool := String.prefix p s.

(** [q in s]: [q] occurs in [s] as a contiguous substring. *)
Fixpoint contains (q s : string) : bool :=
  String.prefix q s ||
  match s with
  | EmptyString => false
  | String _ s' => contains q s'
  end.

(** [s.endswith(c)] for a one-character suffix. *)
Fixpoint endswith_char (s : string) (c : ascii) : bool :=
  match s with
  | EmptyString => false
  | String a EmptyString => Ascii.eqb a c
  | String _ s' => endswith_char s' c
  end.

(** The character [c] occurs in [s]. *)
Fixpoint has_char (c : ascii) (s : string) : bool :=
  match s with
  | EmptyString => false
  | String a s' => Ascii.eqb a c || has_char c s'
  end.

(** [s.split(sep)] for a one-character separator: never the empty list. *)
Fixpoint split (sep : ascii) (s : string) : list string :=
  match s with
  | EmptyString => [EmptyString]
  | String a s' =>
      if Ascii.eqb a sep then EmptyString :: split sep s'
      else match split sep s' with
           | h :: t => String a h :: t
           | [] => [String a EmptyString]
           end
  end.

(** [sep.join(l)] *)
Fixpoint join (sep : string) (l : list string) : string :=
  match l with
  | [] => EmptyString
  | [x] => x
  | x :: rest => x +:+ sep +:+ join sep rest
  end.

(** [s.replace(old, new)], scanning left to right; [skip] counts the
    characters of a matched occurrence of [old] still to be dropped. *)
Fixpoint replace_from (old new : string) (skip : nat) (s : string) : string :=
  match s with
  | EmptyString =>
      match old with EmptyString => new | _ => EmptyString end
  | String a s' =>
      match skip with
      | S k => replace_from old new k s'
      | O =>
          if String.prefix old s then
            match old with
            | EmptyString => new +:+ String a (replace_from old new 0 s')
            | String _ old' => new +:+ replace_from old new (String.length old') s'
            end
          else String a (replace_from old new 0 s')
      end
  end.

Definition replace (s old new : string) : string := replace_from old new 0 s.

(** ASCII case folding, the restriction of [str.lower] to ASCII text. *)
Definition ascii_lower (a : ascii) : ascii :=
  let n := nat_of_ascii a in
  if (65 <=? n) && (n <=? 90) then ascii_of_nat (n + 32) else a.

Fixpoint lower_ascii (s : string) : string :=
  match s with
  | EmptyString => EmptyString
  | String a s' => String (ascii_lower a) (lower_ascii s')
  end.

End Str.

(** ** [pathlib.PurePosixPath]

    A path is kept in parsed form, as pathlib does: the root ([""], ["/"] or
    ["//"]) and the list of components after it.  Two paths are equal when
    both agree. *)

Record Path : Type := mkPath { root : string; parts : list string }.

Module PathLib.

(** [posixpath.splitroot]: the root and the rest of the string. *)
Definition splitroot (p : string) : string * string :=
  match p with
  | String "/" (String "/" (String "/" r)) => ("/", String "/" (String "/" r))
  | String "/" (String "/" r) => ("//", r)
  | String "/" r => ("/", r)
  | _ => ("", p)
  end.

(** A component survives parsing when it is neither empty nor ["."]. *)
Definition kept (x : string) : bool :=
  negb (String.eqb x "") && negb (String.eqb x ".").

(** [Path(s)] *)
Definition of_str (s : string) : Path :=
  match s with
  | EmptyString => mkPath "" []
  | _ => let '(r, rel) := splitroot s in
         mkPath r (List.filter kept (Str.split Str.slash rel))
  end.

(** [str(p)] *)
Definition to_str (p : Path) : string :=
  match root p, parts p with
  | EmptyString, [] => "."
  | r, t => r +:+ Str.join "/" t
  end.

Definition is_absolute (p : Path) : bool := negb (String.eqb (root p) "").

(** [a.joinpath(b)]: an absolute [b] replaces [a]. *)
Definition joinpath (a b : Path) : Path :=
  if is_absolute b then b else mkPath (root a) (parts a ++ parts b).

(** [a / s] with a string on the right. *)
Definition div (a : Path) (s : string) : Path := joinpath a (of_str s).

(** [p.parent]: the root is its own parent. *)
Definition parent (p : Path) : Path := mkPath (root p) (removelast (parts p)).

(** [p.name]: the final component, empty for a bare root. *)
Definition name (p : Path) : string := List.last (parts p) "".

End PathLib.

Notation "a </> s" := (PathLib.div a s) (at level 40, left associativity).

(** ** Exceptions, log records and the file system *)

(** The exception classes that matter here.  All are subclasses of
    [Exception]; the first five are subclasses of [OSError]. *)
Inductive exn : Type :=
| FileNotFoundError
| FileExistsError
| NotADirectoryError
| PermissionError
| OtherOSError (msg : string)
| OtherException (msg : string)
| KeyError (key : string).

Definition is_OSError (e : exn) : bool :=
  match e with
  | FileNotFoundError | FileExistsError | NotADirectoryError
  | PermissionError | OtherOSError _ => true
  | OtherException _ | KeyError _ => false
  end.

(** A call either returns a value or raises. *)
Inductive result (A : Type) : Type :=
| Ok (a : A)
| Raise (e : exn).
Arguments Ok {A} a.
Arguments Raise {A} e.

(** [logger.error(f"<prefix>: {e}")] *)
Record log_record : Type := LogError { log_prefix : string; log_exn : exn }.

(** A file-system node.  [File] stands for every entry whose [is_dir()] is
    false.  [DirLink] is a symbolic link to a directory that the process may
    not enter: [is_dir()] and [islink()] are true, and a lookup that goes
    through it fails with [PermissionError].  A directory records the
    exception its listing raises, if any, whether entries can be created in
    it, and its entries in the order [os.scandir] reports them. *)
#[warnings="-register-all"]
Inductive node : Type :=
| File
| DirLink
| Dir (scan_error : option exn) (writable : bool) (entries : list (string * node)).

(** What the program does to its environment, in order. *)
Inductive event : Type :=
| Scandir (path : string)
| Append (match_ : Path)
| Mkdir (path : string)
| Popen (argv : list string).

Record world : Type := mkWorld {
  fs : node;                         (* the directory tree under "/" *)
  cwd : list string;                 (* working directory, components below "/" *)
  home : Path;                       (* what Path.home() returns *)
  popen_error : option exn;          (* the exception Popen raises, if any *)
  log : list log_record;             (* records written by logger.error *)
  trace : list event                 (* calls made so far, oldest first *)
}.

Definition set_fs (n : node) (w : world) : world :=
  mkWorld n (cwd w) (home w) (popen_error w) (log w) (trace w).
Definition add_log (r : log_record) (w : world) : world :=
  mkWorld (fs w) (cwd w) (home w) (popen_error w) (log w ++ [r]) (trace w).
Definition add_event (e : event) (w : world) : world :=
  mkWorld (fs w) (cwd w) (home w) (popen_error w) (log w) (trace w ++ [e]).

(** [is_dir()] of an entry: links are followed. *)
Definition is_dir_node (n : node) : bool :=
  match n with File => false | _ => true end.

(** ** The operating system: path lookup, [scandir], [mkdir] *)

Module OS.

Fixpoint assoc (k : string) (es : list (string * node)) : option node :=
  match es with
  | [] => None
  | (k', n) :: es' => if String.eqb k' k then Some n else assoc k es'
  end.

(** The node reached from [n] along a list of entry names. *)
Fixpoint node_at (n : node) (cp : list string) : option node :=
  match cp with
  | [] => Some n
  | c :: cp' =>
      match n with
      | Dir _ _ es =>
          match assoc c es with
          | Some ch => node_at ch cp'
          | None => None
          end
      | _ => None
      end
  end.

(** One step of path lookup from the directory named by [cur]. *)
Definition namei_step (t : node) (cur : list string) (c : string)
  : result (list string) :=
  match node_at t cur with
  | Some (Dir _ _ es) =>
      if String.eqb c "" || String.eqb c "." then Ok cur
      else if String.eqb c ".." then Ok (removelast cur)
      else match assoc c es with
           | Some _ => Ok (cur ++ [c])
           | None => Raise FileNotFoundError
           end
  | Some File => Raise NotADirectoryError
  | Some DirLink => Raise PermissionError
  | None => Raise FileNotFoundError
  end.

Fixpoint namei_from (t : node) (cur : list string) (cs : list string)
  : result (list string) :=
  match cs with
  | [] => Ok cur
  | c :: cs' =>
      match namei_step t cur c with
      | Ok cur' => namei_from t cur' cs'
      | Raise e => Raise e
      end
  end.

Definition start_dir (w : world) (s : string) : list string :=
  if Str.startswith s "/" then [] else cwd w.

(** Path lookup: the names from "/" to the entry [s] denotes.  The final
    component is not followed when it is a link. *)
Definition namei (w : world) (s : string) : result (list string) :=
  match s with
  | EmptyString => Raise FileNotFoundError
  | _ => namei_from (fs w) (start_dir w s) (Str.split Str.slash s)
  end.

Definition lookup (w : world) (s : string) : result node :=
  match namei w s with
  | Ok cp =>
      match node_at (fs w) cp with
      | Some n => Ok n
      | None => Raise FileNotFoundError
      end
  | Raise e => Raise e
  end.

Record DirEntry : Type := mkEntry { name : string; is_dir : bool; is_symlink : bool }.

Definition entry_of (e : string * node) : DirEntry :=
  match snd e with
  | File => mkEntry (fst e) false false
  | DirLink => mkEntry (fst e) true true
  | Dir _ _ _ => mkEntry (fst e) true false
  end.

(** [os.scandir(s)], read to the end. *)
Definition scandir (s : string) (w : world) : result (list DirEntry) * world :=
  let w' := add_event (Scandir s) w in
  match lookup w s with
  | Ok (Dir None _ es) => (Ok (map entry_of es), w')
  | Ok (Dir (Some e) _ _) => (Raise e, w')
  | Ok File => (Raise NotADirectoryError, w')
  | Ok DirLink => (Raise PermissionError, w')
  | Raise e => (Raise e, w')
  end.

(** [os.path.islink(s)]: false on any error. *)
Definition islink (s : string) (w : world) : bool :=
  match lookup w s with
  | Ok DirLink => true
  | _ => false
  end.

(** [os.path.isdir(s)]: links are followed, errors give false. *)
Definition isdir (s : string) (w : world) : bool :=
  match lookup w s with
  | Ok (Dir _ _ _) | Ok DirLink => true
  | _ => false
  end.

(** [os.path.join(a, b)] *)
Definition path_join (a b : string) : string :=
  if Str.startswith b "/" then b
  else if String.eqb a "" || Str.endswith_char a Str.slash then a +:+ b
  else a +:+ "/" +:+ b.

(** Apply [f] to the entry named [d], the first one if there are several. *)
Fixpoint update_entry (d : string) (f : node -> node) (es : list (string * node))
  : list (string * node) :=
  match es with
  | [] => []
  | (k, ch) :: es' =>
      if String.eqb k d then (k, f ch) :: es' else (k, ch) :: update_entry d f es'
  end.

(** The tree [n] with the node at [cp] replaced by [new]. *)
Fixpoint graft (n : node) (cp : list string) (new : node) {struct cp} : node :=
  match cp with
  | [] => new
  | d :: cp' =>
      match n with
      | Dir se wr es => Dir se wr (update_entry d (fun ch => graft ch cp' new) es)
      | _ => n
      end
  end.

Definition is_dots (c : string) : bool := String.eqb c "." || String.eqb c "..".

(** [os.mkdir] once the path is split: the parent is looked up from
    [start] along all components but the last, then the last component is
    created in it, as a new last entry. *)
Definition mkdir_at (s : string) (start cs : list string) (w : world)
  : result unit * world :=
  let w' := add_event (Mkdir s) w in
  match namei_from (fs w) start (removelast cs) with
  | Raise e => (Raise e, w')
  | Ok par =>
      match node_at (fs w) par with
      | Some (Dir se wr es) =>
          let c := List.last cs "" in
          if String.eqb c "" || is_dots c then (Raise FileExistsError, w')
          else match assoc c es with
               | Some _ => (Raise FileExistsError, w')
               | None =>
                   if wr then
                     (Ok tt,
                      set_fs (graft (fs w) par
                                (Dir se wr (es ++ [(c, Dir None true [])]))) w')
                   else (Raise PermissionError, w')
               end
      | Some File => (Raise NotADirectoryError, w')
      | Some DirLink => (Raise PermissionError, w')
      | None => (Raise FileNotFoundError, w')
      end
  end.

(** [os.mkdir(s)] *)
Definition mkdir (s : string) (w : world) : result unit * world :=
  match s with
  | EmptyString => (Raise FileNotFoundError, add_event (Mkdir s) w)
  | _ =>
      mkdir_at s (start_dir w s)
        (List.filter (fun c => negb (String.eqb c "")) (Str.split Str.slash s)) w
  end.

End OS.

(** ** Program monad: state passing over [world], with exceptions *)

Definition M (A : Type) : Type := world -> result A * world.

Definition ret {A} (a : A) : M A := fun w => (Ok a, w).

Definition bind {A B} (m : M A) (k : A -> M B) : M B :=
  fun w => match m w with
           | (Ok a, w') => k a w'
           | (Raise e, w') => (Raise e, w')
           end.

Definition raise {A} (e : exn) : M A := fun w => (Raise e, w).

(** [try: m  except Exception as e: h e] *)
Definition try_except {A} (m : M A) (h : exn -> M A) : M A :=
  fun w => match m w with
           | (Ok a, w') => (Ok a, w')
           | (Raise e, w') => h e w'
           end.

Notation "'let*' x ':=' m 'in' k" := (bind m (fun x => k))
  (at level 10, x name, m at level 100, k at level 200).

Definition logger_error (prefix : string) (e : exn) : M unit :=
  fun w => (Ok tt, add_log (LogError prefix e) w).

(** ** [Path] methods that touch the file system *)

Module PathIO.

(** [Path.home()] *)
Definition home_ : M Path := fun w => (Ok (home w), w).

(** The errors [Path.is_dir] turns into [False]: [ENOENT] and [ENOTDIR]
    (of [ENOENT], [ENOTDIR], [EBADF], [ELOOP]); any other propagates. *)
Definition ignore_error (e : exn) : bool :=
  match e with
  | FileNotFoundError | NotADirectoryError => true
  | _ => false
  end.

(** [p.is_dir()] *)
Definition is_dir (p : Path) : M bool :=
  fun w =>
    match OS.lookup w (PathLib.to_str p) with
    | Ok n => (Ok (is_dir_node n), w)
    | Raise e => if ignore_error e then (Ok false, w) else (Raise e, w)
    end.

(** The clause [except OSError: if not exist_ok or not self.is_dir(): raise]
    of [Path.mkdir], with [exist_ok=True]; [e] is the exception caught. *)
Definition except_OSError (p : Path) (e : exn) : M unit :=
  if is_OSError e then
    let* d := is_dir p in if d then ret tt else raise e
  else raise e.

(** [p.mkdir(parents=False, exist_ok=True)] *)
Definition mkdir_one (p : Path) : M unit :=
  try_except (OS.mkdir (PathLib.to_str p))
    (fun e =>
       match e with
       | FileNotFoundError => raise e
       | _ => except_OSError p e
       end).

(** [p.mkdir(parents=True, exist_ok=True)] for the path with root [r] and
    components [rev rparts]; the components are kept last-first so that
    [self.parent] is the tail, and [self.parent == self] is the empty
    list. *)
Fixpoint mkdir_parents (r : string) (rparts : list string) : M unit :=
  let p := mkPath r (rev rparts) in
  fun w =>
    match OS.mkdir (PathLib.to_str p) w with
    | (Ok tt, w1) => (Ok tt, w1)
    | (Raise FileNotFoundError, w1) =>
        match rparts with
        | [] => (Raise FileNotFoundError, w1)
        | _ :: anc =>
            match mkdir_parents r anc w1 with
            | (Ok tt, w2) => mkdir_one p w2
            | (Raise e, w2) => (Raise e, w2)
            end
        end
    | (Raise e, w1) => except_OSError p e w1
    end.

Definition mkdir (p : Path) : M unit := mkdir_parents (root p) (rev (parts p)).

End PathIO.

(** ** [os.walk]

    [for root, dirs, _ in os.walk(top): body] with [topdown=True],
    [onerror=None] and [followlinks=False].  The loop body receives the
    directory and the names of its sub-directories and hands back the list
    [dirs] as it left it: the walk descends into what remains of it. *)

Inductive body_result : Type :=
| BodyNext (dirs : list string) (matches : list Path) (w : world)
| BodyReturn (r : list Path) (w : world).

Inductive loop_result : Type :=
| Exhausted (matches : list Path) (w : world)
| Returned (r : list Path) (w : world)
| Raised (e : exn) (matches : list Path) (w : world)
| OutOfFuel.

Definition loop_body : Type := string -> list string -> list Path -> world -> body_result.

(** The descent of [os.walk] after the body has run:
    [for dirname in dirs: if not islink(join(top, dirname)): yield from walk(...)],
    with [walk] the recursive call. *)
Fixpoint descend (walk : string -> list Path -> world -> loop_result)
    (top : string) (dirs : list string) (matches : list Path) (w : world)
  : loop_result :=
  match dirs with
  | [] => Exhausted matches w
  | dirname :: dirs' =>
      let new_path := OS.path_join top dirname in
      if OS.islink new_path w then descend walk top dirs' matches w
      else match walk new_path matches w with
           | Exhausted matches' w' => descend walk top dirs' matches' w'
           | other => other
           end
  end.

Fixpoint walk_for (fuel : nat) (top : string) (body : loop_body)
    (matches : list Path) (w : world) : loop_result :=
  match fuel with
  | O => OutOfFuel
  | S fuel' =>
      match OS.scandir top w with
      | (Raise e, w1) =>
          (* onerror is None: an OSError ends this directory silently *)
          if is_OSError e then Exhausted matches w1 else Raised e matches w1
      | (Ok entries, w1) =>
          let dirs := map OS.name (List.filter OS.is_dir entries) in
          match body top dirs matches w1 with
          | BodyReturn r w2 => Returned r w2
          | BodyNext dirs' matches2 w2 =>
              descend (fun new_path => walk_for fuel' new_path body) top dirs' matches2 w2
          end
      end
  end.

Fixpoint height (n : node) : nat :=
  match n with
  | Dir _ _ es =>
      S ((fix hs (l : list (string * node)) : nat :=
            match l with
            | [] => 0
            | (_, c) :: l' => Nat.max (height c) (hs l')
            end) es)
  | _ => 0
  end.

(** ** main.py *)

(** *** Values of the host API *)

Inductive item_action : Type :=
| HideWindowAction
| ExtensionCustomAction (data : gmap string string) (keep_app_open : bool).

Record ExtensionResultItem : Type := mkItem {
  icon : string;
  item_name : string;
  description : string;
  on_enter : item_action
}.

Inductive RenderResultListAction : Type :=
| RenderResultList (items : list ExtensionResultItem).

(** *** The directory search and the keyword-query listener *)

Section Main.

(** [str.lower] *)
Variable lower : string -> string.

(** The [for dir_name in dirs] loop of [find_matching_dirs]; [inl] is the
    [return matches] taken when the fifth match is appended. *)
Fixpoint for_dir_name (query : string) (root_path : Path) (dirs : list string)
    (matches : list Path) (w : world) : (list Path * world) + (list Path * world) :=
  match dirs with
  | [] => inr (matches, w)
  | dir_name :: rest =>
      if Str.contains query (lower dir_name) then
        let full_path := root_path </> dir_name in
        let matches := matches ++ [full_path] in
        let w := add_event (Append full_path) w in
        if 5 <=? length matches then inl (matches, w)
        else for_dir_name query root_path rest matches w
      else for_dir_name query root_path rest matches w
  end.

(** The body of [for root, dirs, _ in os.walk(str(home))]. *)
Definition walk_body (query : string) : loop_body :=
  fun root dirs matches w =>
    let root_path := PathLib.of_str root in
    let dirs := List.filter (fun d => negb (Str.startswith d ".")) dirs in
    match for_dir_name query root_path dirs matches w with
    | inl (r, w') => BodyReturn r w'
    | inr (matches', w') => BodyNext dirs matches' w'
    end.

(** [find_matching_dirs(query)].  [None] only when the recursion bound
    [S (height (fs w))] of the walk is hit. *)
Definition find_matching_dirs (query : string) (w : world)
  : option (result (list Path) * world) :=
  let home := home w in
  let query := lower query in
  match walk_for (S (height (fs w))) (PathLib.to_str home) (walk_body query) [] w with
  | Returned r w' => Some (Ok r, w')
  | Exhausted matches w' => Some (Ok matches, w')
  | Raised e matches w' =>
      Some (Ok matches, add_log (LogError "Error searching directories" e) w')
  | OutOfFuel => None
  end.

(** [KeywordQueryEventListener.on_event]; [argument] is
    [event.get_argument()]. *)
Definition keyword_query_on_event (argument : option string) (w : world)
  : option (result RenderResultListAction * world) :=
  let query := match argument with Some a => a | None => "" end in
  if String.eqb query "" then
    Some (Ok (RenderResultList
                [mkItem "images/icon.png" "Enter directory path"
                   "Start typing to search or create a directory"
                   HideWindowAction]), w)
  else
    match find_matching_dirs query w with
    | None => None
    | Some (Raise e, w') => Some (Raise e, w')
    | Some (Ok matching_dirs, w') =>
        let create :=
          mkItem "images/icon.png" ("Create and use: " +:+ query)
            "Create this directory and use it as workspace"
            (ExtensionCustomAction
               {[ "action" := "create"; "path" := query ]} false) in
        let use (dir_path : Path) :=
          mkItem "images/icon.png" (PathLib.to_str dir_path)
            "Use this directory as workspace"
            (ExtensionCustomAction
               {[ "action" := "use"; "path" := PathLib.to_str dir_path ]} false) in
        Some (Ok (RenderResultList (create :: map use matching_dirs)), w')
    end.

End Main.

(** *** The item-enter listener *)

(** [d[k]] on a dict *)
Definition dict_get (d : gmap string string) (k : string) : M string :=
  match d !! k with
  | Some v => ret v
  | None => raise (KeyError k)
  end.

Definition dquote : string := String "034"%char EmptyString.

(** [subprocess.Popen(argv)] *)
Definition subprocess_Popen (argv : list string) : M unit :=
  fun w =>
    let w' := add_event (Popen argv) w in
    match popen_error w with
    | Some e => (Raise e, w')
    | None => (Ok tt, w')
    end.

(** Lines 106-116 of [ItemEnterEventListener.on_event]: build the command
    and start the terminal. *)
Definition launch (preferences : gmap string string) (workspace_path : Path)
  : M item_action :=
  let* docker_cmd := dict_get preferences "docker_command" in
  let docker_cmd :=
    Str.replace docker_cmd "$WORKSPACE_BASE" (PathLib.to_str workspace_path) in
  let* _ :=
    try_except
      (subprocess_Popen ["kitty"; "--"; "bash"; "-c";
               docker_cmd +:+ "; read -p " +:+ dquote +:+
                 "Press Enter to close..." +:+ dquote])
      (fun e => logger_error "Failed to execute command" e) in
  ret HideWindowAction.

(** [ItemEnterEventListener.on_event]; [data] is [event.get_data()] and
    [preferences] is [extension.preferences]. *)
Definition item_enter_on_event (data preferences : gmap string string)
  : M item_action :=
  let* path := dict_get data "path" in
  let workspace_path := PathLib.of_str path in
  let* action := dict_get data "action" in
  if String.eqb action "create" then
    let* created :=
      try_except
        (let* h := PathIO.home_ in
         let workspace_path := PathLib.joinpath h workspace_path in
         let* _ := PathIO.mkdir workspace_path in
         ret (Some workspace_path))
        (fun e =>
           let* _ := logger_error "Failed to create directory" e in
           ret None) in
    match created with
    | Some workspace_path => launch preferences workspace_path
    | None => ret HideWindowAction
    end
  else launch preferences workspace_path.

(** ** Well-formed snapshots *)

(** A file name as [scandir] can report it: not empty, not ["."] or [".."],
    without ["/"]. *)
Definition valid_name (d : string) : bool :=
  negb (String.eqb d "") && negb (String.eqb d ".") && negb (String.eqb d "..")
  && negb (Str.has_char Str.slash d).

Fixpoint nodupb (l : list string) : bool :=
  match l with
  | [] => true
  | x :: l' => negb (existsb (String.eqb x) l') && nodupb l'
  end.

(** Every directory holds valid, pairwise different names. *)
Fixpoint wf_node (n : node) : bool :=
  match n with
  | Dir _ _ es =>
      forallb valid_name (map fst es) && nodupb (map fst es)
      && (fix all (l : list (string * node)) : bool :=
            match l with
            | [] => true
            | (_, c) :: l' => wf_node c && all l'
            end) es
  | _ => true
  end.

Definition is_Dir (n : node) : bool :=
  match n with Dir _ _ _ => true | _ => false end.

(** The home directory is an absolute path of valid names. *)
Definition wf_home (p : Path) : bool :=
  String.eqb (root p) "/" && forallb valid_name (parts p).

Definition wf_world (w : world) : bool :=
  is_Dir (fs w) && wf_node (fs w) && wf_home (home w).

(** ** The walk read off the tree

    Independently of path strings and of the loop, the complete top-down
    walk below a directory is a sequence of items: the directory is listed
    ([Visit]), each selected sub-directory is reported ([Found]), then the
    sub-directories that are neither hidden nor links are walked in turn; a
    listing that raises something
    other than an [OSError] ends it ([Fault]). *)

Inductive walk_item : Type :=
| Visit (p : Path)
| Found (p : Path)
| Fault (e : exn).

Definition hidden (d : string) : bool := Str.startswith d ".".

Definition child (p : Path) (d : string) : Path := mkPath (root p) (parts p ++ [d]).

(** The sub-directories the walk keeps: directories that are not hidden. *)
Definition kept_dirs (es : list (string * node)) : list (string * node) :=
  List.filter (fun e => is_dir_node (snd e) && negb (hidden (fst e))) es.

Fixpoint tree_items (sel : string -> bool) (p : Path) (n : node) : list walk_item :=
  Visit p ::
  match n with
  | Dir None _ es =>
      map (fun e => Found (child p (fst e)))
          (List.filter (fun e => sel (fst e)) (kept_dirs es))
      ++ flat_map (fun e => match e with
                            | (d, c) =>
                                if is_Dir c && negb (hidden d)
                                then tree_items sel (child p d) c
                                else []
                            end) es
  | Dir (Some e) _ _ => if is_OSError e then [] else [Fault e]
  | _ => []
  end.

(** The directories below [p] that are not hidden, in the order a complete
    walk meets them: the sub-directories of a directory as it lists them,
    then what lies below each sub-directory that is neither hidden nor a
    link.  Nothing is met below a directory that cannot be listed. *)
Fixpoint dirs_below (p : Path) (n : node) : list Path :=
  match n with
  | Dir None _ es =>
      map (fun e => child p (fst e)) (kept_dirs es)
      ++ flat_map (fun e => match e with
                            | (d, c) =>
                                if is_Dir c && negb (hidden d)
                                then dirs_below (child p d) c
                                else []
                            end) es
  | _ => []
  end.

Definition home_dirs (w : world) : list Path :=
  match OS.node_at (fs w) (parts (home w)) with
  | Some n => dirs_below (home w) n
  | None => []
  end.

(** No listing in the tree raises anything but an [OSError]. *)
Fixpoint no_fault (n : node) : bool :=
  match n with
  | Dir se _ es =>
      match se with Some e => is_OSError e | None => true end
      && (fix all (l : list (string * node)) : bool :=
            match l with
            | [] => true
            | (_, c) :: l' => no_fault c && all l'
            end) es
  | _ => true
  end.

(** The loop of [find_matching_dirs] run over the items of a walk: every
    [Visit] is a [scandir] call, every [Found] an append, the fifth append
    returns, a [Fault] propagates. *)
Fixpoint consume (items : list walk_item) (matches : list Path) (w : world)
  : loop_result :=
  match items with
  | [] => Exhausted matches w
  | Visit p :: rest => consume rest matches (add_event (Scandir (PathLib.to_str p)) w)
  | Found p :: rest =>
      let matches := matches ++ [p] in
      let w := add_event (Append p) w in
      if 5 <=? length matches then Returned matches w
      else consume rest matches w
  | Fault e :: _ => Raised e matches w
  end.

(** The items of the walk that [find_matching_dirs] starts at the home
    directory of [w]. *)
Definition home_items (sel : string -> bool) (w : world) : list walk_item :=
  match OS.node_at (fs w) (parts (home w)) with
  | Some n => tree_items sel (home w) n
  | None => [Visit (home w)]
  end.

(** The paths reported by a walk, up to the first fault. *)
Fixpoint found_of (items : list walk_item) : list Path :=
  match items with
  | [] => []
  | Visit _ :: rest => found_of rest
  | Found p :: rest => p :: found_of rest
  | Fault _ :: _ => []
  end.

(** The item is an exception that escapes the walk. *)
Definition is_Fault (i : walk_item) : bool :=
  match i with Fault _ => true | _ => false end.

(** All reported paths, faults ignored. *)
Fixpoint all_found (items : list walk_item) : list Path :=
  match items with
  | [] => []
  | Found p :: rest => p :: all_found rest
  | _ :: rest => all_found rest
  end.

(** The calls a run over the items makes. *)
Fixpoint events_of (items : list walk_item) : list event :=
  match items with
  | [] => []
  | Visit p :: rest => Scandir (PathLib.to_str p) :: events_of rest
  | Found p :: rest => Append p :: events_of rest
  | Fault _ :: rest => events_of rest
  end.

Definition final_matches (r : loop_result) : option (list Path) :=
  match r with
  | Exhausted m _ | Returned m _ | Raised _ m _ => Some m
  | OutOfFuel => None
  end.

Definition final_world (r : loop_result) : option world :=
  match r with
  | Exhausted _ w | Returned _ w | Raised _ _ w => Some w
  | OutOfFuel => None
  end.

(** Two worlds that differ in the trace only. *)
Definition same_env (w w' : world) : Prop :=
  fs w' = fs w /\ cwd w' = cwd w /\ home w' = home w
  /\ popen_error w' = popen_error w /\ log w' = log w.

(** A name that does not start with a dot. *)
Definition shown (d : string) : bool := negb (hidden d).

(** The selection [query in dir_name.lower()], for a query already in
    lower case. *)
Definition sel (lower : string -> string) (q : string) (d : string) : bool :=
  Str.contains q (lower d).

(** The selection made by [find_matching_dirs(query)]. *)
Definition matches_query (lower : string -> string) (query : string) (d : string)
  : bool :=
  sel lower (lower query) d.

(** The items contributed by one entry of a directory. *)
Definition sub_items (s : string -> bool) (p : Path) (e : string * node)
  : list walk_item :=
  match e with
  | (d, c) => if is_Dir c && negb (hidden d) then tree_items s (child p d) c else []
  end.

(** ** Sample snapshots

    The home directory [/home/u] of the scenarios: two projects, a hidden
    directory, a work directory with a link, and a directory that cannot be
    listed. *)
Definition sample_fs : node :=
  Dir None true
    [("home", Dir None true
       [("u", Dir None true
          [("projects", Dir None true
             [("app1", Dir None true []); ("app2", Dir None true []);
              ("notes.txt", File)]);
           (".hidden", Dir None true [("app3", Dir None true [])]);
           ("work", Dir None true [("App4", Dir None true []); ("app_link", DirLink)]);
           ("locked_app", Dir (Some PermissionError) false
              [("app9", Dir None true [])])])]);
     ("tmp", Dir None true [])].

Definition sample_world : world :=
  mkWorld sample_fs [] (mkPath "/" ["home"; "u"]) None [] [].

(** A home directory in which the listing of [broken] raises an exception
    that is not an [OSError]. *)
Definition faulty_world : world :=
  mkWorld
    (Dir None true
       [("home", Dir None true
          [("u", Dir None true
             [("a_app", Dir None true []);
              ("broken", Dir (Some (OtherException "boom")) true []);
              ("z_app", Dir None true [("deep_app", Dir None true [])])])])])
    [] (mkPath "/" ["home"; "u"]) None [] [].

Definition sample_locked : option (result (list Path) * world) :=
  Eval vm_compute in find_matching_dirs Str.lower_ascii "locked" sample_world.

Definition sample_empty : option (result (list Path) * world) :=
  Eval vm_compute in find_matching_dirs Str.lower_ascii "" sample_world.

Definition matches_of (o : option (result (list Path) * world)) : list Path :=
  match o with Some (Ok r, _) => r | _ => [] end.

Definition world_of (o : option (result (list Path) * world)) : world :=
  match o with Some (_, w) => w | None => sample_world end.

(** ** Statements used by the claims *)

(** The action and path an item hands to the executor when it is chosen. *)
Definition payload (it : ExtensionResultItem) : option (string * string) :=
  match on_enter it with
  | ExtensionCustomAction data _ =>
      match data !! "action", data !! "path" with
      | Some a, Some p => Some (a, p)
      | _, _ => None
      end
  | HideWindowAction => None
  end.

(** A path component as [Path] keeps it: not empty and without ["/"]. *)
Definition clean_name (c : string) : bool :=
  negb (String.eqb c "") && negb (Str.has_char Str.slash c).

(** An absolute path of such components. *)
Definition abs_clean (p : Path) : bool :=
  (String.eqb (root p) "/" || String.eqb (root p) "//")
  && forallb clean_name (parts p).

Definition is_Popen (e : event) : bool :=
  match e with Popen _ => true | _ => false end.

(** What is the same in two worlds when only directories were made in
    between. *)
Definition only_mkdir (w w' : world) : Prop :=
  (exists evs, trace w' = trace w ++ evs /\ Forall (fun e => is_Popen e = false) evs)
  /\ log w' = log w /\ home w' = home w /\ cwd w' = cwd w
  /\ popen_error w' = popen_error w
  /\ (is_Dir (fs w) = true -> is_Dir (fs w') = true).

(** The preferences of the scenarios. *)
Definition sample_prefs : gmap string string :=
  {[ "docker_command" := "docker run -v $WORKSPACE_BASE:/ws image" ]}.

(** The payload of the item that creates the directory [path]. *)
Definition create_payload (path : string) : gmap string string :=
  {[ "action" := "create"; "path" := path ]}.

(** The workspace the executor resolves for a payload. *)
Definition workspace_of (w : world) (action path : string) : Path :=
  if String.eqb action "create"
  then PathLib.joinpath (home w) (PathLib.of_str path)
  else PathLib.of_str path.

(** The placeholder of the command template. *)
Definition WORKSPACE_BASE : string := "$WORKSPACE_BASE".

(** What follows the command in the script handed to [bash -c]. *)
Definition read_prompt : string :=
  "; read -p " +:+ dquote +:+ "Press Enter to close..." +:+ dquote.

(** The terminal started for the command [cmd]. *)
Definition terminal_argv (cmd : string) : list string :=
  ["kitty"; "--"; "bash"; "-c"; cmd +:+ read_prompt].

(** C4 as the specification words it: whenever listing a directory fails
    during a call, the error is logged. *)
Definition traversal_errors_logged (lower : string -> string) (query : string)
    (w : world) : Prop :=
  forall r w' s e,
    find_matching_dirs lower query w = Some (Ok r, w') ->
    In (Scandir s) (trace w') ->
    fst (OS.scandir s w) = Raise e ->
    In (LogError "Error searching directories" e) (log w').

(** ** Statements used by the further properties *)

(** The entries of the directory the walk reaches from [n] along [names]:
    every directory on the way, the last one included, can be listed, and
    no name on the way is hidden. *)
Fixpoint listing_at (n : node) (names : list string) : option (list (string * node)) :=
  match n with
  | Dir None _ es =>
      match names with
      | [] => Some es
      | d :: rest =>
          if hidden d then None
          else match OS.assoc d es with
               | Some c => listing_at c rest
               | None => None
               end
      end
  | _ => None
  end.

(** The paths appended and the directories listed, as a trace records
    them. *)
Fixpoint appended (evs : list event) : list Path :=
  match evs with
  | [] => []
  | Append p :: rest => p :: appended rest
  | _ :: rest => appended rest
  end.

Fixpoint scanned (evs : list event) : list string :=
  match evs with
  | [] => []
  | Scandir s :: rest => s :: scanned rest
  | _ :: rest => scanned rest
  end.

Definition is_search_event (e : event) : bool :=
  match e with Scandir _ | Append _ => true | _ => false end.

(** The directories a walk lists. *)
Fixpoint visited (items : list walk_item) : list Path :=
  match items with
  | [] => []
  | Visit p :: rest => p :: visited rest
  | _ :: rest => visited rest
  end.

(** The payload of the item that uses the directory [p]. *)
Definition use_payload (p : Path) : gmap string string :=
  {[ "action" := "use"; "path" := PathLib.to_str p ]}.

(** The world after the terminal was started with [argv]: the call is
    recorded, and so is the error when [Popen] raises. *)
Definition launched (argv : list string) (w : world) : world :=
  match popen_error w with
  | Some e => add_log (LogError "Failed to execute command" e) (add_event (Popen argv) w)
  | None => add_event (Popen argv) w
  end.

(** The command built from a template for a workspace. *)
Definition command_for (template : string) (ws : Path) : string :=
  Str.replace template WORKSPACE_BASE (PathLib.to_str ws).

(** The home directory cannot be listed: it is missing, it is no
    directory, or its listing raises an [OSError]. *)
Definition home_unlistable (w : world) : bool :=
  match OS.node_at (fs w) (parts (home w)) with
  | Some (Dir None _ _) => false
  | Some (Dir (Some e) _ _) => is_OSError e
  | _ => true
  end.

(** The sample snapshot for a user without a home directory. *)
Definition homeless_world : world :=
  mkWorld sample_fs [] (mkPath "/" ["home"; "nobody"]) None [] [].

(** The directories [mkdir] makes for the components [ds], one inside the
    other, below a directory it has just made. *)
Fixpoint chain (ds : list string) : node :=
  match ds with
  | [] => Dir None true []
  | d :: ds' => Dir None true [(d, chain ds')]
  end.

(** Sample payloads and preferences for the listeners. *)
Definition path_only_payload : gmap string string := {[ "path" := "projects" ]}.

Definition no_prefs : gmap string string := ∅.

Definition plain_prefs : gmap string string := {[ "docker_command" := "htop" ]}.

(** What the sample home directory lists. *)
Definition sample_home_entries : list (string * node) :=
  match OS.node_at sample_fs ["home"; "u"] with
  | Some (Dir _ _ es) => es
  | _ => []
  end.

(** * Properties *)

(** ** Strings *)

Module StrFacts.

Lemma sapp_nil_l (t : string) : "" +:+ t = t.
Proof. reflexivity. Qed.

Lemma sapp_cons (a : ascii) (s t : string) : String a s +:+ t = String a (s +:+ t).
Proof. reflexivity. Qed.

Lemma sapp_nil_r (s : string) : s +:+ "" = s.
Proof. induction s as [|a s IH]; [reflexivity|]. rewrite sapp_cons, IH. reflexivity. Qed.

Lemma sapp_assoc (a b c : string) : (a +:+ b) +:+ c = a +:+ (b +:+ c).
Proof.
  induction a as [|x a IH]; [reflexivity|].
  rewrite !sapp_cons, IH. reflexivity.
Qed.

Lemma split_nonempty sep s : Str.split sep s <> [].
Proof.
  destruct s as [|a s]; simpl; [discriminate|].
  destruct (Ascii.eqb a sep); [discriminate|].
  destruct (Str.split sep s); discriminate.
Qed.

Lemma split_no_sep sep s : Str.has_char sep s = false -> Str.split sep s = [s].
Proof.
  induction s as [|a s IH]; simpl; [reflexivity|].
  intros H. apply orb_false_iff in H as [Ha Hs].
  rewrite Ha, (IH Hs). reflexivity.
Qed.

Lemma split_app sep a b :
  Str.has_char sep a = false ->
  Str.split sep (a +:+ String sep b) = a :: Str.split sep b.
Proof.
  induction a as [|x a IH]; intros H.
  - rewrite sapp_nil_l. simpl. rewrite Ascii.eqb_refl. reflexivity.
  - simpl in H. apply orb_false_iff in H as [Hx Ha].
    rewrite sapp_cons. simpl. rewrite Hx, (IH Ha). reflexivity.
Qed.

Lemma join_cons sep x y l :
  Str.join sep (x :: y :: l) = x +:+ sep +:+ Str.join sep (y :: l).
Proof. reflexivity. Qed.

Lemma split_join (l : list string) :
  l <> [] ->
  forallb (fun d => negb (Str.has_char Str.slash d)) l = true ->
  Str.split Str.slash (Str.join "/" l) = l.
Proof.
  induction l as [|x l IH]; [congruence|]. intros _ H.
  simpl in H. apply andb_true_iff in H as [Hx Hl].
  apply negb_true_iff in Hx.
  destruct l as [|y l].
  - simpl. apply split_no_sep, Hx.
  - rewrite join_cons. change ("/" +:+ Str.join "/" (y :: l))
      with (String Str.slash (Str.join "/" (y :: l))).
    rewrite split_app by exact Hx. f_equal. apply IH; [discriminate|exact Hl].
Qed.

Lemma join_snoc (l : list string) (d : string) :
  l <> [] -> Str.join "/" (l ++ [d]) = Str.join "/" l +:+ "/" +:+ d.
Proof.
  induction l as [|x l IH]; [congruence|]. intros _.
  destruct l as [|y l].
  - reflexivity.
  - change ((x :: y :: l) ++ [d]) with (x :: (y :: l) ++ [d]).
    change ((y :: l) ++ [d]) with (y :: l ++ [d]) at 1.
    rewrite join_cons. change (y :: l ++ [d]) with ((y :: l) ++ [d]).
    rewrite IH by discriminate. rewrite join_cons.
    rewrite !sapp_assoc. reflexivity.
Qed.

Lemma endswith_has c s : Str.endswith_char s c = true -> Str.has_char c s = true.
Proof.
  induction s as [|a s IH]; simpl; [discriminate|].
  destruct s as [|b s].
  - intros ->. reflexivity.
  - intros H. rewrite (IH H). apply orb_true_r.
Qed.

Lemma endswith_app c a b :
  b <> "" -> Str.endswith_char (a +:+ b) c = Str.endswith_char b c.
Proof.
  intros Hb. induction a as [|x a IH]; [reflexivity|].
  rewrite sapp_cons. simpl. rewrite IH.
  destruct (a +:+ b) eqn:E; [|reflexivity].
  destruct a; [rewrite sapp_nil_l in E; congruence | discriminate].
Qed.

Lemma prefix_nil s : String.prefix "" s = true.
Proof. destruct s; reflexivity. Qed.

Lemma startswith_char a r c :
  Str.startswith (String a r) (String c "") = Ascii.eqb a c.
Proof.
  unfold Str.startswith. cbn [String.prefix].
  destruct (Ascii.ascii_dec c a) as [->|Hne].
  - rewrite Ascii.eqb_refl. apply prefix_nil.
  - symmetry. apply Ascii.eqb_neq. congruence.
Qed.

Lemma contains_nil s : Str.contains "" s = true.
Proof. destruct s; reflexivity. Qed.

End StrFacts.

(** ** Paths of valid names *)

Module PathFacts.
Import StrFacts.

Lemma valid_name_inv d :
  valid_name d = true ->
  d <> "" /\ d <> "." /\ d <> ".." /\ Str.has_char Str.slash d = false.
Proof.
  unfold valid_name. rewrite !andb_true_iff, !negb_true_iff.
  intros [[[H1 H2] H3] H4].
  repeat split; try assumption; intros ->; discriminate.
Qed.

Lemma valid_no_slash ps :
  forallb valid_name ps = true ->
  forallb (fun d => negb (Str.has_char Str.slash d)) ps = true.
Proof.
  induction ps as [|x ps IH]; simpl; [reflexivity|].
  rewrite !andb_true_iff. intros [Hx Hps]. split; [|auto].
  apply valid_name_inv in Hx as (_ & _ & _ & ->). reflexivity.
Qed.

Lemma valid_kept ps :
  forallb valid_name ps = true -> List.filter PathLib.kept ps = ps.
Proof.
  induction ps as [|x ps IH]; simpl; [reflexivity|].
  rewrite andb_true_iff. intros [Hx Hps].
  unfold valid_name in Hx. rewrite !andb_true_iff in Hx.
  destruct Hx as [[[H1 H2] _] _]. unfold PathLib.kept. rewrite H1, H2. simpl.
  f_equal. auto.
Qed.

Lemma valid_head d :
  valid_name d = true -> exists a r, d = String a r /\ Ascii.eqb a Str.slash = false.
Proof.
  intros H. apply valid_name_inv in H as (Hne & _ & _ & Hs).
  destruct d as [|a r]; [congruence|]. exists a, r. split; [reflexivity|].
  simpl in Hs. apply orb_false_iff in Hs as [Ha _]. exact Ha.
Qed.

Lemma not_slash a : Ascii.eqb a Str.slash = false -> a <> "/"%char.
Proof. intros H ->. discriminate. Qed.

Lemma splitroot_rel s :
  (forall r, s <> String "/" r) -> PathLib.splitroot s = ("", s).
Proof.
  intros H. destruct s as [|a r]; [reflexivity|].
  destruct (Ascii.ascii_dec a "/") as [->|Ha]; [exfalso; eapply H; reflexivity|].
  unfold PathLib.splitroot.
  destruct a as [[] [] [] [] [] [] [] []]; try reflexivity. congruence.
Qed.

Lemma splitroot_abs s :
  (forall r, s <> String "/" r) -> PathLib.splitroot (String "/" s) = ("/", s).
Proof.
  intros H. destruct s as [|a r]; [reflexivity|].
  destruct (Ascii.ascii_dec a "/") as [->|Ha]; [exfalso; eapply H; reflexivity|].
  unfold PathLib.splitroot.
  destruct a as [[] [] [] [] [] [] [] []]; try reflexivity. congruence.
Qed.

Lemma of_str_name d : valid_name d = true -> PathLib.of_str d = mkPath "" [d].
Proof.
  intros H. pose proof (valid_kept [d]) as Hk. simpl in Hk. rewrite H in Hk.
  specialize (Hk eq_refl).
  destruct (valid_head d H) as (a & r & -> & Ha).
  apply valid_name_inv in H as (_ & _ & _ & Hs).
  unfold PathLib.of_str. rewrite splitroot_rel.
  - rewrite split_no_sep by exact Hs. simpl in *. rewrite Hk. reflexivity.
  - intros r' E. injection E as -> _. discriminate.
Qed.

Lemma div_child p d : valid_name d = true -> p </> d = child p d.
Proof. intros H. unfold PathLib.div. rewrite of_str_name by exact H. reflexivity. Qed.

Lemma to_str_abs ps : PathLib.to_str (mkPath "/" ps) = "/" +:+ Str.join "/" ps.
Proof. reflexivity. Qed.

Lemma join_head x ps :
  valid_name x = true ->
  exists a r, Str.join "/" (x :: ps) = String a r /\ Ascii.eqb a Str.slash = false.
Proof.
  intros H. destruct (valid_head x H) as (a & r & -> & Ha).
  destruct ps as [|y ps].
  - exists a, r. split; [reflexivity|exact Ha].
  - rewrite join_cons, sapp_cons. eexists a, _. split; [reflexivity|exact Ha].
Qed.

Lemma of_str_to_str ps :
  forallb valid_name ps = true ->
  PathLib.of_str (PathLib.to_str (mkPath "/" ps)) = mkPath "/" ps.
Proof.
  intros H. rewrite to_str_abs.
  change ("/" +:+ Str.join "/" ps) with (String "/" (Str.join "/" ps)).
  unfold PathLib.of_str. destruct ps as [|x ps].
  - reflexivity.
  - assert (Hx : valid_name x = true) by (simpl in H; apply andb_true_iff in H; tauto).
    destruct (join_head x ps Hx) as (a & r & E & Ha).
    rewrite splitroot_abs.
    + rewrite split_join; [|discriminate|apply valid_no_slash, H].
      rewrite valid_kept by exact H. reflexivity.
    + rewrite E. intros r' E'. injection E' as -> _. discriminate.
Qed.

Lemma join_not_endswith_slash ps :
  ps <> [] -> forallb valid_name ps = true ->
  Str.endswith_char (Str.join "/" ps) Str.slash = false.
Proof.
  induction ps as [|x ps IH]; [congruence|]. intros _ H.
  simpl in H. apply andb_true_iff in H as [Hx Hps].
  destruct ps as [|y ps].
  - simpl. destruct (Str.endswith_char x Str.slash) eqn:E; [|reflexivity].
    apply endswith_has in E. apply valid_name_inv in Hx as (_ & _ & _ & Hs). congruence.
  - rewrite join_cons, <- sapp_assoc. rewrite endswith_app.
    + apply IH; [discriminate|exact Hps].
    + assert (Hy : valid_name y = true) by (simpl in Hps; apply andb_true_iff in Hps; tauto).
      destruct (join_head y ps Hy) as (a & r & -> & _). discriminate.
Qed.

Lemma path_join_child ps d :
  forallb valid_name ps = true -> valid_name d = true ->
  OS.path_join (PathLib.to_str (mkPath "/" ps)) d = PathLib.to_str (mkPath "/" (ps ++ [d])).
Proof.
  intros Hps Hd. unfold OS.path_join.
  destruct (valid_head d Hd) as (a & r & Ed & Ha).
  assert (Str.startswith d "/" = false) as ->.
  { subst d. rewrite startswith_char. exact Ha. }
  rewrite !to_str_abs. destruct ps as [|x ps].
  - reflexivity.
  - change ("/" +:+ Str.join "/" (x :: ps)) with (String "/" (Str.join "/" (x :: ps))).
    assert (Str.endswith_char (String "/" (Str.join "/" (x :: ps))) Str.slash = false) as ->.
    { change (String "/" (Str.join "/" (x :: ps))) with ("/" +:+ Str.join "/" (x :: ps)).
      rewrite endswith_app.
      - apply join_not_endswith_slash; [discriminate|exact Hps].
      - assert (Hx : valid_name x = true) by (simpl in Hps; apply andb_true_iff in Hps; tauto).
        destruct (join_head x ps Hx) as (a' & r' & -> & _). discriminate. }
    simpl orb. cbv iota.
    rewrite join_snoc by discriminate.
    change (String "/" (Str.join "/" (x :: ps))) with ("/" +:+ Str.join "/" (x :: ps)).
    rewrite !sapp_assoc. reflexivity.
Qed.

(** Absolute paths of valid names are told apart by their text. *)
Lemma to_str_inj ps1 ps2 :
  forallb valid_name ps1 = true -> forallb valid_name ps2 = true ->
  PathLib.to_str (mkPath "/" ps1) = PathLib.to_str (mkPath "/" ps2) -> ps1 = ps2.
Proof.
  intros H1 H2 E. apply (f_equal PathLib.of_str) in E.
  rewrite !of_str_to_str in E by assumption. congruence.
Qed.

End PathFacts.

(** ** Path lookup *)

Module OSFacts.
Import StrFacts PathFacts.

Lemma node_at_app t a b :
  OS.node_at t (a ++ b) =
  match OS.node_at t a with Some n => OS.node_at n b | None => None end.
Proof.
  revert t. induction a as [|x a IH]; intros t; [reflexivity|].
  simpl. destruct t as [| |se wr es]; try reflexivity.
  destruct (OS.assoc x es); [apply IH|reflexivity].
Qed.

Lemma namei_step_OSError t cur c e :
  OS.namei_step t cur c = Raise e -> is_OSError e = true.
Proof.
  unfold OS.namei_step.
  destruct (OS.node_at t cur) as [[| |se wr es]|]; try (intros [= <-]; reflexivity).
  destruct (_ || _); [discriminate|].
  destruct (String.eqb c ".."); [discriminate|].
  destruct (OS.assoc c es); [discriminate|]. intros [= <-]. reflexivity.
Qed.

Lemma namei_from_OSError t cs : forall cur e,
  OS.namei_from t cur cs = Raise e -> is_OSError e = true.
Proof.
  induction cs as [|c cs IH]; intros cur e; simpl; [discriminate|].
  destruct (OS.namei_step t cur c) eqn:E.
  - apply IH.
  - intros [= <-]. eapply namei_step_OSError, E.
Qed.

Lemma namei_step_name t cur c n :
  valid_name c = true -> OS.node_at t cur = Some n ->
  match OS.node_at n [c] with
  | Some _ => OS.namei_step t cur c = Ok (cur ++ [c])
  | None => exists e, OS.namei_step t cur c = Raise e
  end.
Proof.
  intros Hc Hn. unfold OS.namei_step. rewrite Hn.
  unfold valid_name in Hc. rewrite !andb_true_iff, !negb_true_iff in Hc.
  destruct Hc as [[[H1 H2] H3] _].
  simpl. destruct n as [| |se wr es]; try (eexists; reflexivity).
  rewrite H1, H2, H3. simpl.
  destruct (OS.assoc c es); [reflexivity|eexists; reflexivity].
Qed.

Lemma namei_from_names t cs : forall cur n,
  forallb valid_name cs = true -> OS.node_at t cur = Some n ->
  match OS.node_at n cs with
  | Some _ => OS.namei_from t cur cs = Ok (cur ++ cs)
  | None => exists e, OS.namei_from t cur cs = Raise e /\ is_OSError e = true
  end.
Proof.
  induction cs as [|c cs IH]; intros cur n Hcs Hn.
  - simpl. rewrite app_nil_r. reflexivity.
  - simpl in Hcs. apply andb_true_iff in Hcs as [Hc Hcs].
    pose proof (namei_step_name t cur c n Hc Hn) as Hstep.
    assert (Hsplit : OS.node_at n (c :: cs) =
                     match OS.node_at n [c] with
                     | Some m => OS.node_at m cs | None => None end)
      by (apply (node_at_app n [c] cs)).
    rewrite Hsplit. cbn [OS.namei_from].
    destruct (OS.node_at n [c]) as [m|] eqn:Em.
    + rewrite Hstep.
      assert (Hm : OS.node_at t (cur ++ [c]) = Some m)
        by (rewrite node_at_app, Hn; exact Em).
      specialize (IH (cur ++ [c]) m Hcs Hm).
      rewrite <- app_assoc in IH. exact IH.
    + destruct Hstep as [e He]. rewrite He. exists e. split; [reflexivity|].
      eapply namei_step_OSError, He.
Qed.

Lemma split_abs ps :
  forallb valid_name ps = true ->
  Str.split Str.slash (PathLib.to_str (mkPath "/" ps)) =
  "" :: match ps with [] => [""] | _ => ps end.
Proof.
  intros H. rewrite to_str_abs.
  change ("/" +:+ Str.join "/" ps) with (String "/" (Str.join "/" ps)).
  cbn [Str.split]. change (Ascii.eqb "/" Str.slash) with true. cbv iota. f_equal.
  destruct ps as [|x ps]; [reflexivity|].
  apply split_join; [discriminate|apply valid_no_slash, H].
Qed.

(** Looking up the string of an absolute path of valid names follows its
    components through the tree. *)
Lemma lookup_abs w ps :
  is_Dir (fs w) = true -> forallb valid_name ps = true ->
  match OS.node_at (fs w) ps with
  | Some n => OS.lookup w (PathLib.to_str (mkPath "/" ps)) = Ok n
  | None => exists e, OS.lookup w (PathLib.to_str (mkPath "/" ps)) = Raise e
                      /\ is_OSError e = true
  end.
Proof.
  intros Hd Hps. unfold OS.lookup, OS.namei.
  pose proof (split_abs ps Hps) as Hs.
  rewrite to_str_abs in *.
  change ("/" +:+ Str.join "/" ps) with (String "/" (Str.join "/" ps)) in *.
  rewrite Hs. unfold OS.start_dir. rewrite startswith_char.
  change (Ascii.eqb "/" "/") with true. cbv iota.
  destruct (fs w) as [| |se wr es] eqn:Efs; try discriminate.
  assert (H0 : OS.namei_step (Dir se wr es) [] "" = Ok []) by reflexivity.
  cbn [OS.namei_from]. rewrite H0.
  destruct ps as [|x ps].
  - cbn [OS.namei_from]. rewrite H0. reflexivity.
  - pose proof (namei_from_names (Dir se wr es) (x :: ps) [] (Dir se wr es) Hps eq_refl) as H.
    destruct (OS.node_at (Dir se wr es) (x :: ps)) as [n|] eqn:En.
    + rewrite H. cbn [app]. rewrite En. reflexivity.
    + destruct H as (e & -> & He). exists e. split; [reflexivity|exact He].
Qed.

End OSFacts.

(** ** Trees *)

Module TreeFacts.

Lemma wf_children es :
  (fix all (l : list (string * node)) : bool :=
     match l with
     | [] => true
     | (_, c) :: l' => wf_node c && all l'
     end) es = true ->
  forall (d : string) (c : node), In (d, c) es -> wf_node c = true.
Proof.
  induction es as [|[d0 c0] es IH]; intros H d c Hin; [destruct Hin|].
  apply andb_true_iff in H as [H0 H1].
  destruct Hin as [[= <- <-]|Hin]; [exact H0|]. eapply IH; eassumption.
Qed.

Lemma wf_Dir se wr es :
  wf_node (Dir se wr es) = true ->
  forallb valid_name (map fst es) = true /\ nodupb (map fst es) = true
  /\ forall (d : string) (c : node), In (d, c) es -> wf_node c = true.
Proof.
  cbn [wf_node]. rewrite !andb_true_iff. intros [[H1 H2] H3].
  repeat split; try assumption. apply wf_children, H3.
Qed.

Lemma valid_in (es : list (string * node)) d c :
  forallb valid_name (map fst es) = true -> In (d, c) es -> valid_name d = true.
Proof.
  intros H Hin. rewrite forallb_forall in H. apply H.
  apply (in_map fst) in Hin. exact Hin.
Qed.

Lemma assoc_None d es : OS.assoc d es = None <-> ~ In d (map fst es).
Proof.
  induction es as [|[k n] es IH]; simpl; [tauto|].
  destruct (String.eqb_spec k d) as [->|Hne].
  - split; [discriminate|]. intros H. exfalso. apply H. left. reflexivity.
  - rewrite IH. split; [intros H [E|Hin]; [congruence|tauto] | tauto].
Qed.

Lemma assoc_in es d c :
  nodupb (map fst es) = true -> In (d, c) es -> OS.assoc d es = Some c.
Proof.
  induction es as [|[k n] es IH]; intros Hnd Hin; [destruct Hin|].
  simpl in Hnd. apply andb_true_iff in Hnd as [Hk Hnd].
  apply negb_true_iff in Hk. simpl.
  destruct Hin as [[= -> ->]|Hin].
  - rewrite String.eqb_refl. reflexivity.
  - destruct (String.eqb_spec k d) as [->|Hne]; [|auto].
    exfalso. assert (Hex : existsb (String.eqb d) (map fst es) = true).
    { apply existsb_exists. exists d. split; [|apply String.eqb_refl].
      apply (in_map fst) in Hin. exact Hin. }
    congruence.
Qed.

Lemma assoc_Some es d c : OS.assoc d es = Some c -> In (d, c) es.
Proof.
  induction es as [|[k n] es IH]; simpl; [discriminate|].
  destruct (String.eqb_spec k d) as [->|Hne].
  - intros [= ->]. left. reflexivity.
  - intros H. right. auto.
Qed.

Lemma height_child se wr es d c :
  In (d, c) es -> height c < height (Dir se wr es).
Proof.
  cbn [height]. induction es as [|[k n] es IH]; intros Hin; [destruct Hin|].
  destruct Hin as [[= -> ->]|Hin]; [lia|]. specialize (IH Hin). lia.
Qed.

Lemma node_at_child t ps se wr es d c :
  OS.node_at t ps = Some (Dir se wr es) -> OS.assoc d es = Some c ->
  OS.node_at t (ps ++ [d]) = Some c.
Proof.
  intros Hp Hd. rewrite OSFacts.node_at_app, Hp. simpl. rewrite Hd. reflexivity.
Qed.

(** Induction on nodes that reaches the entries of a directory. *)
Lemma node_induction (P : node -> Prop) :
  P File -> P DirLink ->
  (forall se wr es, (forall (d : string) (c : node), In (d, c) es -> P c) -> P (Dir se wr es)) ->
  forall n, P n.
Proof.
  intros HF HL HD.
  fix IH 1. intros [| |se wr es]; [exact HF|exact HL|].
  apply HD. induction es as [|[k n] es IHes]; intros d c Hin; [destruct Hin|].
  destruct Hin as [E|Hin].
  - replace c with n by congruence. apply IH.
  - eapply IHes, Hin.
Qed.

End TreeFacts.

(** ** The loop over [os.walk] follows the walk of the tree *)

Module WalkFacts.
Import StrFacts PathFacts OSFacts TreeFacts.

Lemma consume_app a b : forall m w,
  consume (a ++ b) m w =
  match consume a m w with
  | Exhausted m' w' => consume b m' w'
  | other => other
  end.
Proof.
  induction a as [|[p|p|e] a IH]; intros m w; cbn [app consume]; try reflexivity.
  - apply IH.
  - destruct (5 <=? _); [reflexivity|apply IH].
Qed.

Lemma same_env_refl w : same_env w w.
Proof. repeat split. Qed.

Lemma same_env_event e w : same_env w (add_event e w).
Proof. repeat split. Qed.

Lemma same_env_trans w1 w2 w3 : same_env w1 w2 -> same_env w2 w3 -> same_env w1 w3.
Proof.
  unfold same_env. intros (a1 & a2 & a3 & a4 & a5) (b1 & b2 & b3 & b4 & b5).
  repeat split; congruence.
Qed.

Lemma consume_env items : forall m w,
  exists w', final_world (consume items m w) = Some w' /\ same_env w w'.
Proof.
  induction items as [|[p|p|e] items IH]; intros m w; cbn [consume].
  - eexists; split; [reflexivity|apply same_env_refl].
  - destruct (IH m (add_event (Scandir (PathLib.to_str p)) w)) as (w' & -> & H).
    eexists; split; [reflexivity|].
    eapply same_env_trans; [apply same_env_event|exact H].
  - destruct (5 <=? _).
    + eexists; split; [reflexivity|apply same_env_event].
    + destruct (IH (m ++ [p]) (add_event (Append p) w)) as (w' & -> & H).
      eexists; split; [reflexivity|].
      eapply same_env_trans; [apply same_env_event|exact H].
  - eexists; split; [reflexivity|apply same_env_refl].
Qed.

Lemma consume_fs items m w m' w' :
  consume items m w = Exhausted m' w' -> fs w' = fs w.
Proof.
  intros H. destruct (consume_env items m w) as (w2 & E & He).
  rewrite H in E. injection E as <-. apply He.
Qed.

Lemma dirs_kept es :
  List.filter (fun d => negb (Str.startswith d "."))
    (map OS.name (List.filter OS.is_dir (map OS.entry_of es)))
  = map fst (kept_dirs es).
Proof.
  induction es as [|[d c] es IH]; [reflexivity|].
  unfold kept_dirs in *. cbn [map List.filter fst snd].
  destruct c as [| |se wr es']; cbn [OS.entry_of snd fst OS.is_dir is_dir_node andb];
    try exact IH;
    cbn [map List.filter OS.name]; unfold hidden;
    destruct (Str.startswith d "."); cbn [negb map fst]; rewrite ?IH; reflexivity.
Qed.

Section Loop.
Variable lower : string -> string.
Variable q : string.

#[local] Abbreviation sel := (sel lower q).
#[local] Abbreviation sub_items := (sub_items sel).

Lemma for_dir_name_consume p (ds : list (string * node)) rest :
  (forall e, In e ds -> valid_name (fst e) = true) ->
  forall m w,
    consume (map (fun e => Found (child p (fst e)))
               (List.filter (fun e => sel (fst e)) ds) ++ rest) m w =
    match for_dir_name lower q p (map fst ds) m w with
    | inl (r, w') => Returned r w'
    | inr (m', w') => consume rest m' w'
    end.
Proof.
  induction ds as [|[d c] ds IH]; intros Hv m w; [reflexivity|].
  assert (Hd : valid_name d = true) by (apply (Hv (d, c)); left; reflexivity).
  assert (Hv' : forall e, In e ds -> valid_name (fst e) = true)
    by (intros e He; apply Hv; right; exact He).
  cbn [map List.filter fst for_dir_name]. unfold sel at 1.
  destruct (Str.contains q (lower d)).
  - cbn [map app consume fst]. rewrite (div_child p d Hd).
    destruct (5 <=? _); [reflexivity|apply IH, Hv'].
  - apply IH, Hv'.
Qed.

Lemma tree_items_Dir p a es :
  tree_items sel p (Dir None a es) =
  Visit p :: map (fun e => Found (child p (fst e)))
               (List.filter (fun e => sel (fst e)) (kept_dirs es))
          ++ flat_map (sub_items p) es.
Proof. reflexivity. Qed.

Lemma walk_for_consume : forall fuel ps n m w,
  is_Dir (fs w) = true -> forallb valid_name ps = true -> wf_node n = true ->
  OS.node_at (fs w) ps = Some n -> height n < fuel ->
  walk_for fuel (PathLib.to_str (mkPath "/" ps)) (walk_body lower q) m w
  = consume (tree_items sel (mkPath "/" ps) n) m w.
Proof.
  induction fuel as [|fuel IH]; intros ps n m w Hroot Hps Hwf Hn Hfuel; [lia|].
  cbn [walk_for]. unfold OS.scandir.
  pose proof (lookup_abs w ps Hroot Hps) as Hl. rewrite Hn in Hl. rewrite Hl.
  destruct n as [| |[e|] wr es]; try reflexivity.
  - (* the listing raises *)
    cbn [tree_items]. destruct (is_OSError e); reflexivity.
  - (* the listing succeeds *)
    destruct (wf_Dir _ _ _ Hwf) as (Hval & Hnd & Hch).
    rewrite tree_items_Dir. cbn [consume].
    set (w1 := add_event (Scandir (PathLib.to_str (mkPath "/" ps))) w).
    unfold walk_body. rewrite dirs_kept, (of_str_to_str ps Hps).
    assert (Hkv : forall e, In e (kept_dirs es) -> valid_name (fst e) = true).
    { intros [d c] He. apply filter_In in He as [He _]. eapply valid_in; eassumption. }
    rewrite (for_dir_name_consume (mkPath "/" ps) (kept_dirs es) _ Hkv m w1).
    destruct (for_dir_name lower q (mkPath "/" ps) (map fst (kept_dirs es)) m w1)
      as [[r w2]|[m2 w2]] eqn:Efor; [reflexivity|].
    assert (Hfs2 : fs w2 = fs w).
    { pose proof (for_dir_name_consume (mkPath "/" ps) (kept_dirs es) [] Hkv m w1) as Hc.
      rewrite Efor in Hc. cbn [consume] in Hc. apply consume_fs in Hc. exact Hc. }
    clear Efor. revert m2 w2 Hfs2.
    assert (Hsub : forall l, (forall e, In e l -> In e es) ->
      forall m2 w2, fs w2 = fs w ->
        descend (fun new_path => walk_for fuel new_path (walk_body lower q))
          (PathLib.to_str (mkPath "/" ps)) (map fst (kept_dirs l)) m2 w2
        = consume (flat_map (sub_items (mkPath "/" ps)) l) m2 w2);
      [|apply Hsub; auto].
    induction l as [|[d c] l IHl]; intros Hin m2 w2 Hfs2; [reflexivity|].
    assert (Hdc : In (d, c) es) by (apply Hin; left; reflexivity).
    assert (Hl' : forall e, In e l -> In e es) by (intros e He; apply Hin; right; exact He).
    assert (Hd : valid_name d = true) by (eapply valid_in; eassumption).
    assert (Hc : OS.node_at (fs w2) (ps ++ [d]) = Some c).
    { rewrite Hfs2. eapply node_at_child; [exact Hn|]. apply assoc_in; assumption. }
    assert (Hps' : forallb valid_name (ps ++ [d]) = true).
    { rewrite forallb_app, Hps. simpl. rewrite Hd. reflexivity. }
    assert (Hroot2 : is_Dir (fs w2) = true) by (rewrite Hfs2; exact Hroot).
    cbn [flat_map sub_items]. unfold kept_dirs. cbn [List.filter fst snd].
    fold (kept_dirs l).
    destruct c as [| |se' wr' es'].
    + (* a file: not among the directories *)
      cbn [is_dir_node is_Dir andb app]. apply IHl; assumption.
    + (* a link: listed, never entered *)
      cbn [is_dir_node is_Dir andb app].
      destruct (hidden d); cbn [negb]; [apply IHl; assumption|].
      cbn [map fst descend]. rewrite (path_join_child ps d Hps Hd).
      unfold OS.islink.
      pose proof (lookup_abs w2 (ps ++ [d]) Hroot2 Hps') as Hl2.
      rewrite Hc in Hl2. rewrite Hl2. apply IHl; assumption.
    + (* a directory *)
      cbn [is_dir_node is_Dir andb].
      destruct (hidden d); cbn [negb]; [apply IHl; assumption|].
      cbn [map fst descend]. rewrite (path_join_child ps d Hps Hd).
      unfold OS.islink.
      pose proof (lookup_abs w2 (ps ++ [d]) Hroot2 Hps') as Hl2.
      rewrite Hc in Hl2. rewrite Hl2.
      rewrite consume_app.
      assert (Hh : height (Dir se' wr' es') < fuel).
      { pose proof (height_child (Some PermissionError) wr es d _ Hdc).
        cbn [height] in *. lia. }
      rewrite (IH (ps ++ [d]) (Dir se' wr' es') m2 w2 Hroot2 Hps'
                 (Hch _ _ Hdc) Hc Hh).
      change (child (mkPath "/" ps) d) with (mkPath "/" (ps ++ [d])).
      destruct (consume (tree_items sel (mkPath "/" (ps ++ [d])) (Dir se' wr' es')) m2 w2)
        as [m3 w3|r w3|e3 m3 w3|] eqn:Ec; try reflexivity.
      apply IHl; [assumption|]. apply consume_fs in Ec. congruence.
Qed.

End Loop.

End WalkFacts.

(** ** What a walk of the tree reports *)

Module ItemFacts.
Import StrFacts PathFacts OSFacts TreeFacts.

(** Every reported path lies below the start, at a directory of the tree,
    along names that are not hidden, and its last name is selected. *)
Lemma tree_items_Found sel : forall n p0 p,
  wf_node n = true -> In (Found p) (tree_items sel p0 n) ->
  exists names d c,
    p = mkPath (root p0) (parts p0 ++ names ++ [d])
    /\ OS.node_at n (names ++ [d]) = Some c /\ is_dir_node c = true
    /\ forallb valid_name (names ++ [d]) = true
    /\ forallb shown (names ++ [d]) = true
    /\ sel d = true.
Proof.
  induction n as [| |se wr es IH] using node_induction; intros p0 p Hwf Hin.
  - destruct Hin as [E|[]]; discriminate.
  - destruct Hin as [E|[]]; discriminate.
  - destruct (wf_Dir _ _ _ Hwf) as (Hval & Hnd & Hch).
    destruct se as [e|].
    { cbn [tree_items] in Hin. destruct Hin as [E|Hin]; [discriminate|].
      destruct (is_OSError e); [destruct Hin|destruct Hin as [E|[]]; discriminate]. }
    cbn [tree_items] in Hin. destruct Hin as [E|Hin]; [discriminate|].
    apply in_app_iff in Hin as [Hin|Hin].
    + apply in_map_iff in Hin as ([d c] & [= <-] & Hf).
      apply filter_In in Hf as [Hk Hs]. apply filter_In in Hk as [He Hk].
      cbn [fst snd] in *. apply andb_true_iff in Hk as [Hk1 Hk2].
      exists [], d, c. cbn [app]. repeat split.
      * cbn [OS.node_at]. rewrite (assoc_in es d c Hnd He). reflexivity.
      * exact Hk1.
      * cbn [forallb]. rewrite (valid_in es d c Hval He). reflexivity.
      * cbn [forallb]. unfold shown. rewrite Hk2. reflexivity.
      * exact Hs.
    + apply in_flat_map in Hin as ([d c] & He & Hin).
      destruct (is_Dir c && negb (hidden d)) eqn:Ek; [|destruct Hin].
      apply andb_true_iff in Ek as [Ek1 Ek2].
      destruct (IH d c He (child p0 d) p (Hch d c He) Hin)
        as (names & d' & c' & -> & Hat & Hdir & Hv & Hsh & Hs).
      exists (d :: names), d', c'. repeat split.
      * unfold child. cbn [root parts]. rewrite <- app_assoc. reflexivity.
      * cbn [app OS.node_at]. rewrite (assoc_in es d c Hnd He). exact Hat.
      * exact Hdir.
      * cbn [app forallb]. rewrite (valid_in es d c Hval He), Hv. reflexivity.
      * cbn [app forallb]. unfold shown at 1. rewrite Ek2, Hsh. reflexivity.
      * exact Hs.
Qed.

(** Every listed directory is the start or lies below it along names that
    are not hidden. *)
Lemma tree_items_Visit sel : forall n p0 p,
  wf_node n = true -> In (Visit p) (tree_items sel p0 n) ->
  exists names,
    p = mkPath (root p0) (parts p0 ++ names)
    /\ forallb valid_name names = true /\ forallb shown names = true.
Proof.
  induction n as [| |se wr es IH] using node_induction; intros p0 p Hwf Hin.
  - destruct Hin as [[= <-]|[]]. exists []. rewrite app_nil_r. destruct p0; auto.
  - destruct Hin as [[= <-]|[]]. exists []. rewrite app_nil_r. destruct p0; auto.
  - destruct (wf_Dir _ _ _ Hwf) as (Hval & Hnd & Hch).
    cbn [tree_items] in Hin. destruct Hin as [[= <-]|Hin].
    { exists []. rewrite app_nil_r. destruct p0; auto. }
    destruct se as [e|].
    { destruct (is_OSError e); [destruct Hin|destruct Hin as [E|[]]; discriminate]. }
    apply in_app_iff in Hin as [Hin|Hin].
    + apply in_map_iff in Hin as (x & E & _). discriminate.
    + apply in_flat_map in Hin as ([d c] & He & Hin).
      destruct (is_Dir c && negb (hidden d)) eqn:Ek; [|destruct Hin].
      apply andb_true_iff in Ek as [Ek1 Ek2].
      destruct (IH d c He (child p0 d) p (Hch d c He) Hin) as (names & -> & Hv & Hsh).
      exists (d :: names). repeat split.
      * unfold child. cbn [root parts]. rewrite <- app_assoc. reflexivity.
      * cbn [forallb]. rewrite (valid_in es d c Hval He), Hv. reflexivity.
      * cbn [forallb]. unfold shown at 1. rewrite Ek2, Hsh. reflexivity.
Qed.

Lemma in_all_found items p : In p (all_found items) <-> In (Found p) items.
Proof.
  induction items as [|[x|x|e] items IH]; cbn [all_found In].
  - tauto.
  - rewrite IH. split; [auto|intros [E|H]; [discriminate|exact H]].
  - rewrite IH. split; (intros [E|H]; [left; congruence|right; exact H]).
  - rewrite IH. split; [auto|intros [E|H]; [discriminate|exact H]].
Qed.

Lemma all_found_app a b : all_found (a ++ b) = all_found a ++ all_found b.
Proof.
  induction a as [|[x|x|e] a IH]; cbn [app all_found]; rewrite ?IH; reflexivity.
Qed.

Lemma all_found_map (f : string * node -> Path) l :
  all_found (map (fun e => Found (f e)) l) = map f l.
Proof. induction l as [|x l IH]; cbn [map all_found]; rewrite ?IH; reflexivity. Qed.

Lemma child_inj p d1 d2 : child p d1 = child p d2 -> d1 = d2.
Proof.
  unfold child. intros [= H]. apply app_inv_head in H. congruence.
Qed.

Lemma NoDup_map_child p l : List.NoDup l -> List.NoDup (map (child p) l).
Proof.
  induction 1 as [|d l Hd Hl IH]; cbn [map]; constructor; [|exact IH].
  intros Hin. apply in_map_iff in Hin as (d' & E & Hin).
  apply child_inj in E. congruence.
Qed.

Lemma NoDup_filter_fst (f : string * node -> bool) es :
  List.NoDup (map fst es) -> List.NoDup (map fst (List.filter f es)).
Proof.
  induction es as [|[d c] es IH]; cbn [map List.filter fst]; intros H; [constructor|].
  apply List.NoDup_cons_iff in H as [Hd H].
  destruct (f (d, c)); [|auto]. cbn [map fst]. constructor; [|auto].
  intros Hin. apply Hd. apply in_map_iff in Hin as ([d' c'] & E & Hin).
  apply filter_In in Hin as [Hin _]. apply in_map_iff. exists (d', c'). auto.
Qed.

Lemma nodupb_NoDup l : nodupb l = true -> List.NoDup l.
Proof.
  induction l as [|x l IH]; cbn [nodupb]; intros H; [constructor|].
  apply andb_true_iff in H as [Hx Hl]. apply negb_true_iff in Hx.
  constructor; [|auto]. intros Hin.
  assert (existsb (String.eqb x) l = true); [|congruence].
  apply existsb_exists. exists x. split; [exact Hin|apply String.eqb_refl].
Qed.

Lemma tree_items_NoDup sel : forall n p0,
  wf_node n = true -> List.NoDup (all_found (tree_items sel p0 n)).
Proof.
  induction n as [| |se wr es IH] using node_induction; intros p0 Hwf;
    try (cbn; constructor).
  destruct (wf_Dir _ _ _ Hwf) as (Hval & Hnd & Hch).
  destruct se as [e|].
  { cbn [tree_items all_found]. destruct (is_OSError e); cbn; constructor. }
  cbn [tree_items all_found]. rewrite all_found_app, all_found_map.
  apply List.NoDup_app.
  - (* the sub-directories of this directory *)
    rewrite <- (map_map fst (child p0)).
    apply NoDup_map_child.
    do 2 apply NoDup_filter_fst. apply nodupb_NoDup, Hnd.
  - (* what the walks below report *)
    clear Hval Hwf. apply nodupb_NoDup in Hnd.
    induction es as [|[d c] es IHes]; [constructor|].
    cbn [flat_map]. rewrite all_found_app.
    cbn [map fst] in Hnd. apply List.NoDup_cons_iff in Hnd as [Hd Hnd].
    apply List.NoDup_app.
    + destruct (is_Dir c && negb (hidden d)); [|constructor].
      apply (IH d c); [left; reflexivity|]. apply (Hch d c). left. reflexivity.
    + apply IHes; [|exact Hnd|].
      * intros d' c' Hin. apply (IH d' c'). right. exact Hin.
      * intros d' c' Hin. apply (Hch d' c'). right. exact Hin.
    + intros p Hp Hq.
      destruct (is_Dir c && negb (hidden d)); [|destruct Hp].
      apply in_all_found in Hp.
      apply tree_items_Found in Hp as (n1 & d1 & c1 & -> & _);
        [|apply (Hch d c); left; reflexivity].
      apply in_all_found, in_flat_map in Hq as ([d' c'] & He & Hq).
      destruct (is_Dir c' && negb (hidden d')); [|destruct Hq].
      apply tree_items_Found in Hq as (n2 & d2 & c2 & E & _);
        [|apply (Hch d' c'); right; exact He].
      unfold child in E. cbn [root parts] in E. injection E as E.
      rewrite <- !app_assoc in E. apply app_inv_head in E.
      cbn [app] in E. injection E as E _. subst d'.
      apply Hd. apply in_map_iff. exists (d, c'). auto.
  - (* a sub-directory is not below a sub-directory *)
    intros p Hp Hq.
    apply in_map_iff in Hp as ([d c] & <- & _). cbn [fst] in Hq.
    apply in_all_found, in_flat_map in Hq as ([d' c'] & He & Hq).
    destruct (is_Dir c' && negb (hidden d')); [|destruct Hq].
    apply tree_items_Found in Hq as (n2 & d2 & c2 & E & _); [|apply (Hch d' c'), He].
    unfold child in E. cbn [root parts] in E. injection E as E.
    rewrite <- !app_assoc in E. apply app_inv_head in E.
    cbn [app] in E. injection E as _ E. destruct n2; discriminate.
Qed.

End ItemFacts.

(** ** The outcome of the loop *)

Module RunFacts.
Import StrFacts PathFacts OSFacts TreeFacts WalkFacts ItemFacts.

Lemma events_of_app a b : events_of (a ++ b) = events_of a ++ events_of b.
Proof.
  induction a as [|[x|x|e] a IH]; cbn [app events_of]; rewrite ?IH; reflexivity.
Qed.

Lemma consume_matches items : forall m w,
  length m < 5 ->
  final_matches (consume items m w) = Some (firstn 5 (m ++ found_of items)).
Proof.
  induction items as [|[p|p|e] items IH]; intros m w Hm; cbn [consume found_of].
  - cbn [final_matches]. rewrite app_nil_r, firstn_all2 by lia. reflexivity.
  - apply IH, Hm.
  - destruct (5 <=? length (m ++ [p])) eqn:E.
    + apply Nat.leb_le in E. cbn [final_matches]. f_equal.
      change (p :: found_of items) with ([p] ++ found_of items).
      rewrite app_assoc. rewrite firstn_app.
      rewrite length_app in *. cbn [length] in *.
      replace (5 - (length m + 1)) with 0 by lia.
      rewrite firstn_all2 by (rewrite length_app; cbn [length]; lia).
      cbn [firstn]. rewrite app_nil_r. reflexivity.
    + apply Nat.leb_gt in E. rewrite IH by exact E.
      rewrite <- app_assoc. reflexivity.
  - cbn [final_matches]. rewrite app_nil_r, firstn_all2 by lia. reflexivity.
Qed.

(** How a run ends: the items consumed, the matches and the trace. *)
Lemma consume_run items : forall m w,
  length m < 5 ->
  match consume items m w with
  | Exhausted m' w' =>
      m' = m ++ all_found items /\ trace w' = trace w ++ events_of items
      /\ length m' < 5
  | Returned r w' =>
      length r = 5 /\
      exists pre p post,
        items = pre ++ Found p :: post /\ r = m ++ all_found pre ++ [p]
        /\ trace w' = trace w ++ events_of pre ++ [Append p]
  | Raised e m' w' =>
      length m' < 5 /\
      exists pre post,
        items = pre ++ Fault e :: post /\ m' = m ++ all_found pre
        /\ trace w' = trace w ++ events_of pre
  | OutOfFuel => False
  end.
Proof.
  induction items as [|[p|p|e] items IH]; intros m w Hm; cbn [consume].
  - cbn [all_found events_of]. rewrite !app_nil_r. auto.
  - specialize (IH m (add_event (Scandir (PathLib.to_str p)) w) Hm).
    destruct (consume items m _) as [m' w'|r w'|e m' w'|]; [| | |exact IH].
    + destruct IH as (-> & -> & Hl). cbn [all_found events_of trace add_event].
      rewrite <- app_assoc. auto.
    + destruct IH as (Hl & pre & q & post & -> & -> & ->). split; [exact Hl|].
      exists (Visit p :: pre), q, post. cbn [all_found events_of trace add_event app].
      rewrite <- !app_assoc. auto.
    + destruct IH as (Hl & pre & post & -> & -> & ->). split; [exact Hl|].
      exists (Visit p :: pre), post. cbn [all_found events_of trace add_event app].
      rewrite <- !app_assoc. auto.
  - destruct (5 <=? length (m ++ [p])) eqn:E.
    + apply Nat.leb_le in E. rewrite length_app in *. cbn [length] in *.
      split; [lia|]. exists [], p, items. cbn [all_found events_of app trace add_event].
      auto.
    + apply Nat.leb_gt in E.
      specialize (IH (m ++ [p]) (add_event (Append p) w) E).
      destruct (consume items (m ++ [p]) _) as [m' w'|r w'|e m' w'|]; [| | |exact IH].
      * destruct IH as (-> & -> & Hl). cbn [all_found events_of trace add_event].
        rewrite <- !app_assoc in *. auto.
      * destruct IH as (Hl & pre & q & post & -> & -> & ->). split; [exact Hl|].
        exists (Found p :: pre), q, post.
        cbn [all_found events_of trace add_event app]. rewrite <- !app_assoc. auto.
      * destruct IH as (Hl & pre & post & -> & -> & ->). split; [exact Hl|].
        exists (Found p :: pre), post.
        cbn [all_found events_of trace add_event app]. rewrite <- !app_assoc. auto.
  - split; [exact Hm|].
    exists [], items. cbn [all_found events_of app]. rewrite !app_nil_r. auto.
Qed.

Lemma height_node_at : forall ps t n,
  OS.node_at t ps = Some n -> height n <= height t.
Proof.
  induction ps as [|d ps IH]; intros t n H.
  - injection H as <-. lia.
  - cbn [OS.node_at] in H. destruct t as [| |se wr es]; try discriminate.
    destruct (OS.assoc d es) as [c|] eqn:E; [|discriminate].
    apply assoc_Some in E. pose proof (height_child se wr es d c E).
    specialize (IH _ _ H). lia.
Qed.

Lemma wf_node_at : forall ps t n,
  wf_node t = true -> OS.node_at t ps = Some n -> wf_node n = true.
Proof.
  induction ps as [|d ps IH]; intros t n Hwf H.
  - injection H as <-. exact Hwf.
  - cbn [OS.node_at] in H. destruct t as [| |se wr es]; try discriminate.
    destruct (OS.assoc d es) as [c|] eqn:E; [|discriminate].
    apply assoc_Some in E. destruct (wf_Dir _ _ _ Hwf) as (_ & _ & Hch).
    eapply IH; [|exact H]. eapply Hch, E.
Qed.

Lemma wf_world_inv w :
  wf_world w = true ->
  is_Dir (fs w) = true /\ wf_node (fs w) = true
  /\ home w = mkPath "/" (parts (home w))
  /\ forallb valid_name (parts (home w)) = true.
Proof.
  unfold wf_world, wf_home. rewrite !andb_true_iff.
  intros [[H1 H2] [H3 H4]]. repeat split; try assumption.
  apply String.eqb_eq in H3. destruct (home w) as [r ps]. cbn in *. congruence.
Qed.

Section Search.
Variable lower : string -> string.

#[local] Abbreviation matches_query := (matches_query lower).

(** [find_matching_dirs] is the run of its loop over the walk of the
    tree below the home directory. *)
Lemma find_matching_dirs_run query w :
  wf_world w = true ->
  find_matching_dirs lower query w =
  match consume (home_items (matches_query query) w) [] w with
  | Returned r w' => Some (Ok r, w')
  | Exhausted m w' => Some (Ok m, w')
  | Raised e m w' =>
      Some (Ok m, add_log (LogError "Error searching directories" e) w')
  | OutOfFuel => None
  end.
Proof.
  intros Hwf. destruct (wf_world_inv w Hwf) as (Hroot & Hn & Hh & Hps).
  unfold find_matching_dirs, home_items. rewrite Hh. cbn [parts].
  destruct (OS.node_at (fs w) (parts (home w))) as [n|] eqn:En.
  - rewrite (walk_for_consume lower (lower query) _ _ n [] w Hroot Hps
               (wf_node_at _ _ _ Hn En) En).
    + reflexivity.
    + pose proof (height_node_at _ _ _ En). lia.
  - cbn [walk_for]. unfold OS.scandir.
    pose proof (lookup_abs w (parts (home w)) Hroot Hps) as Hl.
    rewrite En in Hl. destruct Hl as (e & -> & He). rewrite He. reflexivity.
Qed.

(** Everything the theorems below need about one call. *)
Lemma find_matching_dirs_summary query w :
  wf_world w = true ->
  exists r w' consumed rest,
    find_matching_dirs lower query w = Some (Ok r, w')
    /\ home_items (matches_query query) w = consumed ++ rest
    /\ r = all_found consumed
    /\ r = firstn 5 (found_of (home_items (matches_query query) w))
    /\ trace w' = trace w ++ events_of consumed
    /\ (fs w' = fs w /\ cwd w' = cwd w /\ home w' = home w
        /\ popen_error w' = popen_error w)
    /\ (length r = 5 -> exists pre p, consumed = pre ++ [Found p])
    /\ (log w' = log w
        \/ exists e post,
             rest = Fault e :: post /\ length r < 5
             /\ log w' = log w ++ [LogError "Error searching directories" e]).
Proof.
  intros Hwf. rewrite (find_matching_dirs_run query w Hwf).
  set (items := home_items (matches_query query) w).
  pose proof (consume_run items [] w ltac:(cbn; lia)) as Hrun.
  pose proof (consume_matches items [] w ltac:(cbn; lia)) as Hm.
  destruct (consume_env items [] w) as (wf_ & Hfw & Henv).
  destruct Henv as (E1 & E2 & E3 & E4 & E5).
  cbn [app] in *.
  destruct (consume items [] w) as [m' w'|r w'|e m' w'|]; [| | |destruct Hrun].
  - destruct Hrun as (-> & Htr & Hl). injection Hfw as ->. injection Hm as Hm.
    exists (all_found items), wf_, items, [].
    rewrite app_nil_r.
    split; [reflexivity|]. split; [reflexivity|]. split; [reflexivity|].
    split; [exact Hm|]. split; [exact Htr|]. split; [auto|].
    split; [intros H5; lia|]. left. exact E5.
  - destruct Hrun as (Hl & pre & p & post & Hit & -> & Htr).
    injection Hfw as ->. injection Hm as Hm.
    exists (all_found pre ++ [p]), wf_, (pre ++ [Found p]), post.
    rewrite <- app_assoc, all_found_app, events_of_app. cbn [app all_found events_of].
    split; [reflexivity|]. split; [exact Hit|]. split; [reflexivity|].
    split; [exact Hm|]. split; [exact Htr|]. split; [auto|].
    split; [intros _; exists pre, p; reflexivity|]. left. exact E5.
  - destruct Hrun as (Hl & pre & post & Hit & -> & Htr).
    injection Hfw as ->. injection Hm as Hm.
    exists (all_found pre), (add_log (LogError "Error searching directories" e) wf_),
      pre, (Fault e :: post).
    cbn [add_log trace fs cwd home popen_error log].
    split; [reflexivity|]. split; [exact Hit|]. split; [reflexivity|].
    split; [exact Hm|]. split; [exact Htr|]. split; [auto|].
    split; [intros H5; lia|]. right. exists e, post. rewrite E5. auto.
Qed.

End Search.

End RunFacts.

(** ** Facts about the walk from the home directory *)

Module HomeFacts.
Import StrFacts PathFacts OSFacts TreeFacts WalkFacts ItemFacts RunFacts.

Lemma shown_Forall names :
  forallb shown names = true -> Forall (fun d => Str.startswith d "." = false) names.
Proof.
  induction names as [|d names IH]; cbn [forallb]; intros H; constructor.
  - apply andb_true_iff in H as [H _]. apply negb_true_iff in H. exact H.
  - apply andb_true_iff in H as [_ H]. auto.
Qed.

Lemma home_items_Found s w p :
  wf_world w = true -> In (Found p) (home_items s w) ->
  exists names d c,
    p = mkPath (root (home w)) (parts (home w) ++ names ++ [d])
    /\ OS.node_at (fs w) (parts (home w) ++ names ++ [d]) = Some c
    /\ is_dir_node c = true
    /\ forallb valid_name (names ++ [d]) = true
    /\ forallb shown (names ++ [d]) = true
    /\ s d = true.
Proof.
  intros Hwf Hin. destruct (wf_world_inv w Hwf) as (Hroot & Hn & Hh & Hps).
  unfold home_items in Hin.
  destruct (OS.node_at (fs w) (parts (home w))) as [n|] eqn:En.
  - apply tree_items_Found in Hin; [|eapply wf_node_at; eassumption].
    destruct Hin as (names & d & c & -> & Hat & Hrest).
    exists names, d, c. split; [reflexivity|]. split; [|exact Hrest].
    rewrite node_at_app, En. exact Hat.
  - destruct Hin as [E|[]]. discriminate.
Qed.

Lemma home_items_Visit s w p :
  wf_world w = true -> In (Visit p) (home_items s w) ->
  exists names,
    p = mkPath (root (home w)) (parts (home w) ++ names)
    /\ forallb valid_name names = true /\ forallb shown names = true.
Proof.
  intros Hwf Hin. destruct (wf_world_inv w Hwf) as (Hroot & Hn & Hh & Hps).
  unfold home_items in Hin.
  destruct (OS.node_at (fs w) (parts (home w))) as [n|] eqn:En.
  - apply tree_items_Visit in Hin; [exact Hin|eapply wf_node_at; eassumption].
  - destruct Hin as [[= <-]|[]]. exists []. rewrite app_nil_r.
    destruct (home w); auto.
Qed.

Lemma home_items_NoDup s w :
  wf_world w = true -> List.NoDup (all_found (home_items s w)).
Proof.
  intros Hwf. destruct (wf_world_inv w Hwf) as (Hroot & Hn & Hh & Hps).
  unfold home_items.
  destruct (OS.node_at (fs w) (parts (home w))) as [n|] eqn:En.
  - apply tree_items_NoDup. eapply wf_node_at; eassumption.
  - cbn. constructor.
Qed.

Lemma in_events_Scandir items s :
  In (Scandir s) (events_of items) ->
  exists p, In (Visit p) items /\ s = PathLib.to_str p.
Proof.
  induction items as [|[x|x|e] items IH]; cbn [events_of In]; intros H.
  - destruct H.
  - destruct H as [[= <-]|H]; [exists x; auto|].
    destruct (IH H) as (p & Hp & ->). exists p. auto.
  - destruct H as [E|H]; [discriminate|].
    destruct (IH H) as (p & Hp & ->). exists p. auto.
  - destruct (IH H) as (p & Hp & ->). exists p. auto.
Qed.

Lemma tree_items_ext s1 s2 :
  (forall d, s1 d = s2 d) -> forall n p, tree_items s1 p n = tree_items s2 p n.
Proof.
  intros Hs. induction n as [| |se wr es IH] using node_induction; intros p;
    try reflexivity.
  destruct se as [e|]; [reflexivity|]. cbn [tree_items]. f_equal. f_equal.
  - f_equal. apply filter_ext. intros e. apply Hs.
  - clear -IH. induction es as [|[d c] es IHes]; [reflexivity|].
    cbn [flat_map]. f_equal.
    + destruct (is_Dir c && negb (hidden d)); [|reflexivity].
      apply (IH d c). left. reflexivity.
    + apply IHes. intros d' c' Hin. apply (IH d' c'). right. exact Hin.
Qed.

Lemma home_items_ext s1 s2 w :
  (forall d, s1 d = s2 d) -> home_items s1 w = home_items s2 w.
Proof.
  intros Hs. unfold home_items.
  destruct (OS.node_at (fs w) (parts (home w))); [|reflexivity].
  apply tree_items_ext, Hs.
Qed.

Lemma no_fault_Dir se wr es :
  no_fault (Dir se wr es) = true ->
  match se with Some e => is_OSError e = true | None => True end
  /\ forall (d : string) (c : node), In (d, c) es -> no_fault c = true.
Proof.
  cbn [no_fault]. rewrite andb_true_iff. intros [H1 H2]. split.
  - destruct se; [exact H1|exact I].
  - clear H1. induction es as [|[d0 c0] es IH]; intros d c Hin; [destruct Hin|].
    apply andb_true_iff in H2 as [H0 H2].
    destruct Hin as [[= <- <-]|Hin]; [exact H0|]. eapply IH; eassumption.
Qed.

Lemma no_fault_node_at : forall ps t n,
  no_fault t = true -> OS.node_at t ps = Some n -> no_fault n = true.
Proof.
  induction ps as [|d ps IH]; intros t n Ht H.
  - injection H as <-. exact Ht.
  - cbn [OS.node_at] in H. destruct t as [| |se wr es]; try discriminate.
    destruct (OS.assoc d es) as [c|] eqn:E; [|discriminate].
    apply assoc_Some in E. destruct (no_fault_Dir _ _ _ Ht) as [_ Hch].
    eapply IH; [|exact H]. eapply Hch, E.
Qed.

Lemma no_fault_items s : forall n p e,
  no_fault n = true -> ~ In (Fault e) (tree_items s p n).
Proof.
  induction n as [| |se wr es IH] using node_induction; intros p e Hn Hin.
  - destruct Hin as [E|[]]; discriminate.
  - destruct Hin as [E|[]]; discriminate.
  - destruct (no_fault_Dir _ _ _ Hn) as [Hse Hch].
    cbn [tree_items] in Hin. destruct Hin as [E|Hin]; [discriminate|].
    destruct se as [e'|].
    + rewrite Hse in Hin. destruct Hin.
    + apply in_app_iff in Hin as [Hin|Hin].
      * apply in_map_iff in Hin as (x & E & _). discriminate.
      * apply in_flat_map in Hin as ([d c] & Hdc & Hin).
        destruct (is_Dir c && negb (hidden d)); [|destruct Hin].
        eapply (IH d c Hdc); [eapply Hch, Hdc|exact Hin].
Qed.

Lemma found_of_all items :
  (forall e, ~ In (Fault e) items) -> found_of items = all_found items.
Proof.
  induction items as [|[x|x|e] items IH]; intros H; cbn [found_of all_found].
  - reflexivity.
  - apply IH. intros e He. apply (H e). right. exact He.
  - f_equal. apply IH. intros e He. apply (H e). right. exact He.
  - exfalso. apply (H e). left. reflexivity.
Qed.

Lemma filter_true (l : list (string * node)) :
  List.filter (fun _ => true) l = l.
Proof. induction l as [|x l IH]; cbn [List.filter]; [|rewrite IH]; reflexivity. Qed.

Lemma all_found_dirs_below : forall n p,
  all_found (tree_items (fun _ => true) p n) = dirs_below p n.
Proof.
  induction n as [| |se wr es IH] using node_induction; intros p; try reflexivity.
  destruct se as [e|]; [cbn [tree_items]; destruct (is_OSError e); reflexivity|].
  cbn [tree_items all_found dirs_below].
  rewrite all_found_app, all_found_map, filter_true. f_equal.
  clear -IH. induction es as [|[d c] es IHes]; [reflexivity|].
  cbn [flat_map]. rewrite all_found_app. f_equal.
  - destruct (is_Dir c && negb (hidden d)); [|reflexivity].
    apply (IH d c). left. reflexivity.
  - apply IHes. intros d' c' Hin. apply (IH d' c'). right. exact Hin.
Qed.

(** Without faults, what the walk reports when it selects every name is the
    list of the directories below the home directory. *)
Lemma found_of_home_dirs w :
  no_fault (fs w) = true ->
  found_of (home_items (fun _ => true) w) = home_dirs w.
Proof.
  intros Hn. unfold home_items, home_dirs.
  destruct (OS.node_at (fs w) (parts (home w))) as [n|] eqn:En; [|reflexivity].
  rewrite found_of_all; [apply all_found_dirs_below|].
  intros e. apply no_fault_items. eapply no_fault_node_at; eassumption.
Qed.

Lemma last_snoc (l : list string) d : List.last (l ++ [d]) "" = d.
Proof.
  induction l as [|x l IH]; [reflexivity|].
  cbn [app]. destruct (l ++ [d]) eqn:E; [destruct l; discriminate|].
  cbn [List.last]. exact IH.
Qed.

End HomeFacts.

(** ** Replacing a node of the tree *)

Module GraftFacts.
Import StrFacts PathFacts OSFacts TreeFacts WalkFacts ItemFacts RunFacts HomeFacts.

Lemma assoc_update_entry d f es k :
  OS.assoc k (OS.update_entry d f es) =
  if String.eqb k d then option_map f (OS.assoc d es) else OS.assoc k es.
Proof.
  induction es as [|[k0 ch] es IH]; cbn [OS.update_entry OS.assoc].
  - destruct (String.eqb k d); reflexivity.
  - destruct (String.eqb_spec k0 d) as [->|Hne]; cbn [OS.assoc].
    + destruct (String.eqb_spec d k) as [<-|Hk].
      * rewrite String.eqb_refl. reflexivity.
      * destruct (String.eqb_spec k d); [congruence|reflexivity].
    + destruct (String.eqb_spec k0 k) as [->|Hk].
      * destruct (String.eqb_spec k d); [congruence|reflexivity].
      * exact IH.
Qed.

Lemma map_fst_update_entry d f es : map fst (OS.update_entry d f es) = map fst es.
Proof.
  induction es as [|[k0 ch] es IH]; [reflexivity|]. cbn [OS.update_entry].
  destruct (String.eqb k0 d); cbn [map fst]; [reflexivity|]. rewrite IH. reflexivity.
Qed.

Lemma in_update_entry d f es k c :
  In (k, c) (OS.update_entry d f es) ->
  In (k, c) es \/ exists ch, k = d /\ In (d, ch) es /\ c = f ch.
Proof.
  induction es as [|[k0 ch] es IH]; cbn [OS.update_entry]; [intros []|].
  destruct (String.eqb_spec k0 d) as [->|Hne].
  - intros [[= <- <-]|H]; [right; exists ch; repeat split; left; reflexivity|].
    left. right. exact H.
  - intros [E|H]; [left; left; exact E|].
    destruct (IH H) as [H'|(ch' & -> & H' & ->)]; [left; right; exact H'|].
    right. exists ch'. repeat split. right. exact H'.
Qed.

Lemma node_at_graft : forall cp t n new,
  OS.node_at t cp = Some n -> OS.node_at (OS.graft t cp new) cp = Some new.
Proof.
  induction cp as [|d cp IH]; intros t n new H; [reflexivity|].
  cbn [OS.node_at] in H. destruct t as [| |se wr es]; try discriminate.
  destruct (OS.assoc d es) as [ch|] eqn:E; [|discriminate].
  cbn [OS.graft OS.node_at]. rewrite assoc_update_entry, String.eqb_refl, E.
  cbn [option_map]. eapply IH, H.
Qed.

Lemma node_at_graft_prefix : forall a t n b new,
  OS.node_at t a = Some n ->
  OS.node_at (OS.graft t (a ++ b) new) a = Some (OS.graft n b new).
Proof.
  induction a as [|d a IH]; intros t n b new H.
  - injection H as <-. reflexivity.
  - cbn [OS.node_at] in H. destruct t as [| |se wr es]; try discriminate.
    destruct (OS.assoc d es) as [ch|] eqn:E; [|discriminate].
    cbn [app OS.graft OS.node_at]. rewrite assoc_update_entry, String.eqb_refl, E.
    cbn [option_map]. apply IH, H.
Qed.

Lemma wf_Dir_intro se wr (es : list (string * node)) :
  forallb valid_name (map fst es) = true -> nodupb (map fst es) = true ->
  (forall (d : string) (c : node), In (d, c) es -> wf_node c = true) ->
  wf_node (Dir se wr es) = true.
Proof.
  intros H1 H2 H3. cbn [wf_node]. rewrite H1, H2. cbn [andb].
  induction es as [|[d c] es IH]; [reflexivity|].
  rewrite (H3 d c) by (left; reflexivity). cbn [andb].
  cbn [map fst forallb nodupb] in *.
  apply andb_true_iff in H1 as [_ H1]. apply andb_true_iff in H2 as [_ H2].
  apply IH; auto. intros d' c' Hin. apply (H3 d' c'). right. exact Hin.
Qed.

Lemma wf_graft : forall cp t n new,
  wf_node t = true -> wf_node new = true -> OS.node_at t cp = Some n ->
  wf_node (OS.graft t cp new) = true.
Proof.
  induction cp as [|d cp IH]; intros t n new Ht Hnew H; [exact Hnew|].
  cbn [OS.node_at] in H. destruct t as [| |se wr es]; try discriminate.
  destruct (OS.assoc d es) as [ch|] eqn:E; [|discriminate].
  destruct (wf_Dir _ _ _ Ht) as (Hv & Hnd & Hch).
  cbn [OS.graft]. apply wf_Dir_intro.
  - rewrite map_fst_update_entry. exact Hv.
  - rewrite map_fst_update_entry. exact Hnd.
  - intros k c Hin. apply in_update_entry in Hin as [Hin|(ch' & -> & Hin & ->)].
    + eapply Hch, Hin.
    + assert (ch' = ch) as ->.
      { apply (assoc_in es d ch' Hnd) in Hin. congruence. }
      eapply IH; [eapply Hch, assoc_Some, E|exact Hnew|exact H].
Qed.

(** Replacing the entry named [d] by a node that behaves alike leaves the
    items of the directory unchanged. *)
Lemma items_update_entry s p d g : forall es,
  (forall ch, OS.assoc d es = Some ch ->
     is_dir_node (g ch) = is_dir_node ch /\ is_Dir (g ch) = is_Dir ch
     /\ tree_items s (child p d) (g ch) = tree_items s (child p d) ch) ->
  map (fun e => Found (child p (fst e)))
    (List.filter (fun e => s (fst e)) (kept_dirs (OS.update_entry d g es)))
  = map (fun e => Found (child p (fst e)))
      (List.filter (fun e => s (fst e)) (kept_dirs es))
  /\ flat_map (sub_items s p) (OS.update_entry d g es) = flat_map (sub_items s p) es.
Proof.
  induction es as [|[k c] es IH]; intros Hg; [split; reflexivity|].
  cbn [OS.update_entry]. cbn [OS.assoc] in Hg.
  destruct (String.eqb_spec k d) as [->|Hne].
  - destruct (Hg c eq_refl) as (H1 & H2 & H3).
    unfold kept_dirs. cbn [List.filter flat_map sub_items fst snd].
    rewrite H1, H2, H3. split; [|reflexivity].
    destruct (is_dir_node c && negb (hidden d)); [|reflexivity].
    cbn [List.filter fst]. destruct (s d); reflexivity.
  - destruct (IH Hg) as [IH1 IH2].
    unfold kept_dirs in *. cbn [List.filter flat_map fst snd]. rewrite IH2.
    split; [|reflexivity].
    destruct (is_dir_node c && negb (hidden k)); [|exact IH1].
    cbn [List.filter fst]. destruct (s k); [|exact IH1].
    cbn [map]. f_equal. exact IH1.
Qed.

(** A directory whose listing fails with an [OSError] contributes the same
    items as an empty directory in its place. *)
Lemma tree_items_graft s e wr es0 : forall cp n p,
  OS.node_at n cp = Some (Dir (Some e) wr es0) -> is_OSError e = true ->
  tree_items s p (OS.graft n cp (Dir None wr [])) = tree_items s p n
  /\ is_dir_node (OS.graft n cp (Dir None wr [])) = is_dir_node n
  /\ is_Dir (OS.graft n cp (Dir None wr [])) = is_Dir n.
Proof.
  induction cp as [|d cp IH]; intros n p H He.
  - injection H as ->. cbn [OS.graft tree_items]. rewrite He. auto.
  - cbn [OS.node_at] in H. destruct n as [| |se wr' es]; try discriminate.
    destruct (OS.assoc d es) as [ch|] eqn:E; [|discriminate].
    cbn [OS.graft]. split; [|auto].
    destruct se as [e'|]; [reflexivity|]. cbn [tree_items]. f_equal.
    destruct (items_update_entry s p d (fun ch => OS.graft ch cp (Dir None wr [])) es)
      as [H1 H2].
    + intros ch' Hch'. rewrite E in Hch'. injection Hch' as <-.
      destruct (IH ch (child p d) H He) as (A & B & C). auto.
    + fold (sub_items s p). rewrite H1, H2. reflexivity.
Qed.

Lemma tree_items_Fault s : forall n p e,
  In (Fault e) (tree_items s p n) -> is_OSError e = false.
Proof.
  induction n as [| |se wr es IH] using node_induction; intros p e Hin.
  - destruct Hin as [E|[]]; discriminate.
  - destruct Hin as [E|[]]; discriminate.
  - cbn [tree_items] in Hin. destruct Hin as [E|Hin]; [discriminate|].
    destruct se as [e'|].
    + destruct (is_OSError e') eqn:Ee; [destruct Hin|].
      destruct Hin as [[= <-]|[]]. exact Ee.
    + apply in_app_iff in Hin as [Hin|Hin].
      * apply in_map_iff in Hin as (x & E & _). discriminate.
      * apply in_flat_map in Hin as ([d c] & Hdc & Hin).
        destruct (is_Dir c && negb (hidden d)); [|destruct Hin].
        eapply (IH d c), Hin. exact Hdc.
Qed.

Lemma consume_set_fs t items : forall m w,
  consume items m (set_fs t w) =
  match consume items m w with
  | Exhausted m' w' => Exhausted m' (set_fs t w')
  | Returned r w' => Returned r (set_fs t w')
  | Raised e m' w' => Raised e m' (set_fs t w')
  | OutOfFuel => OutOfFuel
  end.
Proof.
  induction items as [|[p|p|e] items IH]; intros m w; cbn [consume]; try reflexivity.
  - apply (IH m (add_event (Scandir (PathLib.to_str p)) w)).
  - destruct (5 <=? _); [reflexivity|].
    apply (IH (m ++ [p]) (add_event (Append p) w)).
Qed.

Lemma home_items_graft s w ps e wr es :
  OS.node_at (fs w) (parts (home w) ++ ps) = Some (Dir (Some e) wr es) ->
  is_OSError e = true ->
  home_items s (set_fs (OS.graft (fs w) (parts (home w) ++ ps) (Dir None wr [])) w)
  = home_items s w.
Proof.
  intros H He. unfold home_items. cbn [fs home set_fs].
  rewrite node_at_app in H.
  destruct (OS.node_at (fs w) (parts (home w))) as [n|] eqn:En; [|discriminate].
  rewrite (node_at_graft_prefix _ _ n _ _ En).
  apply (tree_items_graft s e wr es ps n (home w) H He).
Qed.

End GraftFacts.

(** ** [str.replace] *)

Module ReplaceFacts.
Import StrFacts.

Lemma prefix_cons a s b t :
  String.prefix (String a s) (String b t) = Ascii.eqb a b && String.prefix s t.
Proof.
  cbn [String.prefix]. destruct (Ascii.ascii_dec a b) as [->|Hne].
  - rewrite Ascii.eqb_refl. reflexivity.
  - apply Ascii.eqb_neq in Hne. rewrite Hne. reflexivity.
Qed.

Lemma prefix_app_self old rest : String.prefix old (old +:+ rest) = true.
Proof.
  induction old as [|a old IH]; [apply prefix_nil|].
  rewrite sapp_cons, prefix_cons, Ascii.eqb_refl. exact IH.
Qed.

Lemma prefix_split old : forall s,
  String.prefix old s = true -> exists rest, s = old +:+ rest.
Proof.
  induction old as [|a old IH]; intros s H.
  - exists s. reflexivity.
  - destruct s as [|b s]; [discriminate|].
    rewrite prefix_cons in H. apply andb_true_iff in H as [Hab Hs].
    apply Ascii.eqb_eq in Hab as ->.
    destruct (IH s Hs) as [rest ->]. exists rest. reflexivity.
Qed.

Lemma prefix_app_l old : forall a rest,
  String.prefix old a = true -> String.prefix old (a +:+ rest) = true.
Proof.
  intros a rest H. destruct (prefix_split old a H) as [r ->].
  rewrite sapp_assoc. apply prefix_app_self.
Qed.

(** A string without the character [t0] that is a prefix of [a] followed by
    [t0] is a prefix of [a]. *)
Lemma prefix_stops u : forall a t0 y,
  Str.has_char t0 u = false ->
  String.prefix u (a +:+ String t0 y) = true -> String.prefix u a = true.
Proof.
  induction u as [|c u IH]; intros a t0 y Hc H; [apply prefix_nil|].
  cbn [Str.has_char] in Hc. apply orb_false_iff in Hc as [Hc Hu].
  destruct a as [|b a].
  - rewrite sapp_nil_l, prefix_cons, Hc in H. discriminate.
  - rewrite sapp_cons, prefix_cons in H. apply andb_true_iff in H as [Hcb H].
    rewrite prefix_cons, Hcb. cbn [andb]. eapply IH; eassumption.
Qed.

Section Token.
Variables (t0 : ascii) (tl new : string).
Hypothesis first_once : Str.has_char t0 tl = false.

#[local] Abbreviation old := (String t0 tl).

Lemma replace_from_skip : forall u rest,
  Str.replace_from old new (String.length u) (u +:+ rest)
  = Str.replace_from old new 0 rest.
Proof.
  induction u as [|c u IH]; intros rest.
  - rewrite sapp_nil_l. reflexivity.
  - rewrite sapp_cons. cbn [String.length Str.replace_from]. apply IH.
Qed.

Lemma replace_from_token rest :
  Str.replace_from old new 0 (old +:+ rest)
  = new +:+ Str.replace_from old new 0 rest.
Proof.
  rewrite sapp_cons. cbn [Str.replace_from].
  change (String t0 (tl +:+ rest)) with (old +:+ rest).
  rewrite prefix_app_self. f_equal. apply replace_from_skip.
Qed.

Lemma replace_from_free : forall a,
  Str.contains old a = false -> Str.replace_from old new 0 a = a.
Proof.
  induction a as [|c a IH]; intros H; [reflexivity|].
  cbn [Str.contains] in H. apply orb_false_iff in H as [Hp Ha].
  cbn [Str.replace_from]. rewrite Hp, (IH Ha). reflexivity.
Qed.

Lemma replace_from_segment : forall a rest,
  Str.contains old a = false ->
  Str.replace_from old new 0 (a +:+ old +:+ rest)
  = a +:+ new +:+ Str.replace_from old new 0 rest.
Proof.
  induction a as [|c a IH]; intros rest H.
  - rewrite !sapp_nil_l. apply replace_from_token.
  - pose proof H as H0.
    cbn [Str.contains] in H. apply orb_false_iff in H as [Hp Ha].
    rewrite (sapp_cons c a (old +:+ rest)).
    rewrite (sapp_cons c a (new +:+ Str.replace_from old new 0 rest)).
    cbn [Str.replace_from].
    destruct (String.prefix old (String c (a +:+ old +:+ rest))) eqn:E.
    + exfalso. rewrite prefix_cons in E. apply andb_true_iff in E as [E1 E2].
      rewrite (sapp_cons t0 tl rest) in E2.
      apply prefix_stops in E2; [|exact first_once].
      rewrite prefix_cons, E1, E2 in Hp. discriminate.
    + rewrite (IH rest Ha). reflexivity.
Qed.

Lemma replace_join : forall segs,
  segs <> [] ->
  Forall (fun a => Str.contains old a = false) segs ->
  Str.replace (Str.join old segs) old new = Str.join new segs.
Proof.
  unfold Str.replace.
  induction segs as [|a segs IH]; [congruence|]. intros _ H.
  inversion H as [|? ? Ha Hsegs]; subst.
  destruct segs as [|b segs].
  - cbn [Str.join]. apply replace_from_free, Ha.
  - rewrite !join_cons. rewrite replace_from_segment by exact Ha.
    rewrite IH by (discriminate || exact Hsegs). reflexivity.
Qed.

Lemma first_occurrence : forall s,
  Str.contains old s = true ->
  exists a b, s = a +:+ old +:+ b /\ Str.contains old a = false.
Proof.
  induction s as [|c s IH]; intros H; [discriminate|].
  cbn [Str.contains] in H.
  destruct (String.prefix old (String c s)) eqn:Ep.
  - destruct (prefix_split _ _ Ep) as [b ->]. exists "", b. auto.
  - cbn [orb] in H. destruct (IH H) as (a & b & -> & Ha).
    exists (String c a), b. split; [reflexivity|].
    cbn [Str.contains]. rewrite Ha, orb_false_r.
    destruct (String.prefix old (String c a)) eqn:E; [|reflexivity].
    apply (prefix_app_l _ _ (old +:+ b)) in E. rewrite sapp_cons in E. congruence.
Qed.

Lemma length_sapp (a b : string) :
  String.length (a +:+ b) = String.length a + String.length b.
Proof.
  induction a as [|c a IH]; [reflexivity|].
  rewrite sapp_cons. cbn [String.length]. rewrite IH. reflexivity.
Qed.

(** Every string is a sequence of token-free segments separated by the
    token. *)
Lemma segments_exist : forall s,
  exists segs,
    segs <> [] /\ s = Str.join old segs
    /\ Forall (fun a => Str.contains old a = false) segs.
Proof.
  intros s. remember (String.length s) as n eqn:En.
  revert s En. induction n as [n IH] using lt_wf_ind. intros s En.
  destruct (Str.contains old s) eqn:Ec.
  - destruct (first_occurrence s Ec) as (a & b & -> & Ha).
    destruct (IH (String.length b)) with (s := b) as (segs & Hne & -> & Hf);
      [|reflexivity|].
    + subst n. rewrite !length_sapp. cbn [String.length]. lia.
    + exists (a :: segs). split; [discriminate|]. split; [|constructor; assumption].
      destruct segs as [|x segs]; [congruence|]. rewrite join_cons. reflexivity.
  - exists [s]. split; [discriminate|]. split; [reflexivity|]. constructor; auto.
Qed.

End Token.

End ReplaceFacts.

(** ** Creating directories *)

Module MkdirFacts.
Import StrFacts PathFacts OSFacts TreeFacts GraftFacts.

Lemma split_components sep s :
  Forall (fun c => Str.has_char sep c = false) (Str.split sep s).
Proof.
  induction s as [|a s IH]; cbn [Str.split]; [repeat constructor|].
  destruct (Ascii.eqb a sep) eqn:E; [constructor; [reflexivity|exact IH]|].
  destruct (Str.split sep s) as [|h t]; [repeat constructor; cbn; rewrite E; reflexivity|].
  inversion IH; subst. constructor; [|assumption].
  cbn [Str.has_char]. rewrite E. assumption.
Qed.

Lemma filter_kept_clean l :
  Forall (fun c => Str.has_char Str.slash c = false) l ->
  forallb clean_name (List.filter PathLib.kept l) = true.
Proof.
  induction 1 as [|c l Hc Hl IH]; [reflexivity|]. cbn [List.filter].
  destruct (PathLib.kept c) eqn:E; [|exact IH].
  cbn [forallb]. rewrite IH, andb_true_r. unfold clean_name. rewrite Hc.
  unfold PathLib.kept in E. apply andb_true_iff in E as [-> _]. reflexivity.
Qed.

Lemma of_str_clean s : forallb clean_name (parts (PathLib.of_str s)) = true.
Proof.
  unfold PathLib.of_str. destruct s as [|a s]; [reflexivity|].
  destruct (PathLib.splitroot (String a s)) as [r rel]. cbn [parts].
  apply filter_kept_clean, split_components.
Qed.

Lemma splitroot_cases s :
  let r := fst (PathLib.splitroot s) in
  (Str.startswith s "/" = true /\ (r = "/" \/ r = "//"))
  \/ (Str.startswith s "/" = false /\ r = "").
Proof.
  destruct s as [|a s]; [right; auto|].
  cbn zeta. rewrite startswith_char.
  destruct (Ascii.eqb_spec a "/") as [->|Hne].
  - left. split; [reflexivity|].
    destruct s as [|b s]; [left; reflexivity|].
    destruct (Ascii.ascii_dec b "/") as [->|Hb].
    + destruct s as [|c s]; [right; reflexivity|].
      destruct (Ascii.ascii_dec c "/") as [->|Hc]; [left; reflexivity|].
      right. unfold PathLib.splitroot.
      destruct c as [[] [] [] [] [] [] [] []]; try reflexivity. congruence.
    + left. unfold PathLib.splitroot.
      destruct b as [[] [] [] [] [] [] [] []]; try reflexivity. congruence.
  - right. split; [reflexivity|]. unfold PathLib.splitroot.
    destruct a as [[] [] [] [] [] [] [] []]; try reflexivity. congruence.
Qed.

Lemma of_str_root s :
  (Str.startswith s "/" = true
   /\ (root (PathLib.of_str s) = "/" \/ root (PathLib.of_str s) = "//"))
  \/ (Str.startswith s "/" = false /\ root (PathLib.of_str s) = "").
Proof.
  destruct s as [|a s]; [right; auto|].
  pose proof (splitroot_cases (String a s)) as H. cbn zeta in H.
  unfold PathLib.of_str. destruct (PathLib.splitroot (String a s)) as [r rel].
  exact H.
Qed.

Lemma valid_clean ps : forallb valid_name ps = true -> forallb clean_name ps = true.
Proof.
  induction ps as [|c ps IH]; cbn [forallb]; [reflexivity|].
  rewrite !andb_true_iff. intros [Hc Hps]. split; [|auto].
  apply valid_name_inv in Hc as (Hne & _ & _ & Hs). unfold clean_name. rewrite Hs.
  destruct (String.eqb_spec c ""); [congruence|reflexivity].
Qed.

(** The workspace of the create action is an absolute path of clean
    components. *)
Lemma workspace_abs_clean h s :
  wf_home h = true -> abs_clean (PathLib.joinpath h (PathLib.of_str s)) = true.
Proof.
  intros Hh. unfold wf_home in Hh. apply andb_true_iff in Hh as [Hr Hps].
  unfold PathLib.joinpath, PathLib.is_absolute, abs_clean.
  pose proof (of_str_clean s) as Hc.
  destruct (of_str_root s) as [[_ [E|E]]|[_ E]]; rewrite E; cbn [String.eqb negb].
  - rewrite E. cbn. exact Hc.
  - rewrite E. cbn. exact Hc.
  - cbn [root parts]. rewrite Hr. cbn [orb andb].
    rewrite forallb_app, (valid_clean _ Hps), Hc. reflexivity.
Qed.

Lemma clean_no_slash ps :
  forallb clean_name ps = true ->
  forallb (fun d => negb (Str.has_char Str.slash d)) ps = true.
Proof.
  induction ps as [|c ps IH]; cbn [forallb]; [reflexivity|].
  rewrite !andb_true_iff. intros [Hc Hps]. split; [|auto].
  unfold clean_name in Hc. apply andb_true_iff in Hc as [_ Hc]. exact Hc.
Qed.

Lemma clean_nonempty ps :
  forallb clean_name ps = true ->
  List.filter (fun c => negb (String.eqb c "")) ps = ps.
Proof.
  induction ps as [|c ps IH]; cbn [forallb List.filter]; [reflexivity|].
  rewrite !andb_true_iff. intros [Hc Hps].
  unfold clean_name in Hc. apply andb_true_iff in Hc as [-> _].
  rewrite (IH Hps). reflexivity.
Qed.

(** The string of an absolute clean path: it starts with a slash, and
    splitting it gives empty components followed by the parts. *)
Lemma to_str_abs_clean p :
  abs_clean p = true ->
  exists lead,
    Forall (fun c => c = "") lead
    /\ Str.split Str.slash (PathLib.to_str p)
       = lead ++ match parts p with [] => [""] | ps => ps end
    /\ Str.startswith (PathLib.to_str p) "/" = true
    /\ PathLib.to_str p <> "".
Proof.
  destruct p as [r ps]. unfold abs_clean. cbn [root parts].
  rewrite andb_true_iff, orb_true_iff. intros [Hr Hps].
  assert (Hsplit : Str.split Str.slash (Str.join "/" ps)
                   = match ps with [] => [""] | _ => ps end).
  { destruct ps as [|x ps]; [reflexivity|].
    apply split_join; [discriminate|apply clean_no_slash, Hps]. }
  destruct Hr as [Hr|Hr]; apply String.eqb_eq in Hr; subst r.
  - exists [""]. split; [repeat constructor|]. unfold PathLib.to_str. cbn [root parts].
    change ("/" +:+ Str.join "/" ps) with (String "/" (Str.join "/" ps)).
    split; [|split; [rewrite startswith_char; reflexivity|discriminate]].
    cbn [Str.split]. change (Ascii.eqb "/" Str.slash) with true. cbv iota.
    rewrite Hsplit. destruct ps; reflexivity.
  - exists [""; ""]. split; [repeat constructor|]. unfold PathLib.to_str. cbn [root parts].
    change ("//" +:+ Str.join "/" ps) with (String "/" (String "/" (Str.join "/" ps))).
    split; [|split; [rewrite startswith_char; reflexivity|discriminate]].
    cbn [Str.split]. change (Ascii.eqb "/" Str.slash) with true. cbv iota.
    rewrite Hsplit. destruct ps; reflexivity.
Qed.

Lemma namei_from_lead t lead cs :
  is_Dir t = true -> Forall (fun c => c = "") lead ->
  OS.namei_from t [] (lead ++ cs) = OS.namei_from t [] cs.
Proof.
  intros Ht. induction 1 as [|c lead -> _ IH]; [reflexivity|].
  cbn [app OS.namei_from]. unfold OS.namei_step. cbn [OS.node_at].
  destruct t; try discriminate. exact IH.
Qed.

Lemma namei_abs w p :
  is_Dir (fs w) = true -> abs_clean p = true ->
  OS.namei w (PathLib.to_str p) = OS.namei_from (fs w) [] (parts p).
Proof.
  intros Ht Hp. destruct (to_str_abs_clean p Hp) as (lead & Hl & Hs & Hst & Hne).
  unfold OS.namei, OS.start_dir. rewrite Hst, Hs.
  destruct (PathLib.to_str p) as [|a s0]; [congruence|].
  rewrite (namei_from_lead _ _ _ Ht Hl).
  destruct (parts p) as [|x ps]; [|reflexivity].
  cbn [OS.namei_from]. unfold OS.namei_step. cbn [OS.node_at].
  destruct (fs w); try discriminate. reflexivity.
Qed.

Lemma mkdir_abs w p :
  abs_clean p = true ->
  OS.mkdir (PathLib.to_str p) w = OS.mkdir_at (PathLib.to_str p) [] (parts p) w.
Proof.
  intros Hp. destruct (to_str_abs_clean p Hp) as (lead & Hl & Hs & Hst & Hne).
  unfold OS.mkdir, OS.start_dir. rewrite Hst, Hs.
  destruct (PathLib.to_str p) as [|a s0]; [congruence|]. f_equal.
  rewrite List.filter_app.
  assert (List.filter (fun c => negb (String.eqb c "")) lead = []) as ->.
  { clear -Hl. induction Hl as [|c lead -> _ IH]; [reflexivity|exact IH]. }
  unfold abs_clean in Hp. apply andb_true_iff in Hp as [_ Hp].
  destruct (parts p) as [|x ps]; [reflexivity|]. apply clean_nonempty, Hp.
Qed.

Lemma isdir_abs w p :
  is_Dir (fs w) = true -> abs_clean p = true ->
  OS.isdir (PathLib.to_str p) w =
  match OS.namei_from (fs w) [] (parts p) with
  | Ok cp =>
      match OS.node_at (fs w) cp with
      | Some n => is_dir_node n
      | None => false
      end
  | Raise _ => false
  end.
Proof.
  intros Ht Hp. unfold OS.isdir, OS.lookup. rewrite (namei_abs w p Ht Hp).
  destruct (OS.namei_from (fs w) [] (parts p)) as [cp|e]; [|reflexivity].
  destruct (OS.node_at (fs w) cp) as [[| |]|]; reflexivity.
Qed.

Lemma namei_from_app t : forall a cur b,
  OS.namei_from t cur (a ++ b) =
  match OS.namei_from t cur a with
  | Ok cur' => OS.namei_from t cur' b
  | Raise e => Raise e
  end.
Proof.
  induction a as [|c a IH]; intros cur b; [reflexivity|].
  cbn [app OS.namei_from]. destruct (OS.namei_step t cur c); [apply IH|reflexivity].
Qed.

(** A step that succeeds starts at a directory. *)
Lemma namei_step_Ok t cur c cur' :
  OS.namei_step t cur c = Ok cur' ->
  exists se wr es,
    OS.node_at t cur = Some (Dir se wr es)
    /\ ((String.eqb c "" || String.eqb c ".") = true /\ cur' = cur
        \/ (String.eqb c "" || String.eqb c ".") = false
           /\ String.eqb c ".." = true /\ cur' = removelast cur
        \/ (String.eqb c "" || String.eqb c ".") = false
           /\ String.eqb c ".." = false
           /\ (exists n, OS.assoc c es = Some n) /\ cur' = cur ++ [c]).
Proof.
  unfold OS.namei_step.
  destruct (OS.node_at t cur) as [[| |se wr es]|]; try discriminate.
  intros H. exists se, wr, es. split; [reflexivity|].
  destruct (String.eqb c "" || String.eqb c ".").
  - left. injection H as <-. auto.
  - right. destruct (String.eqb c "..").
    + left. injection H as <-. auto.
    + right. destruct (OS.assoc c es) as [n|]; [|discriminate].
      injection H as <-. repeat split; eauto.
Qed.

Lemma assoc_app_l k es es' n :
  OS.assoc k es = Some n -> OS.assoc k (es ++ es') = Some n.
Proof.
  induction es as [|[k0 c] es IH]; cbn [OS.assoc app]; [discriminate|].
  destruct (String.eqb k0 k); auto.
Qed.

Lemma assoc_app_r k es es' :
  OS.assoc k es = None -> OS.assoc k (es ++ es') = OS.assoc k es'.
Proof.
  induction es as [|[k0 c] es IH]; cbn [OS.assoc app]; [reflexivity|].
  destruct (String.eqb k0 k); [discriminate|auto].
Qed.

Section AddEntry.
Variables (se : option exn) (wr : bool) (es : list (string * node)).
Variable x : string * node.

#[local] Abbreviation grown := (Dir se wr (es ++ [x])).

(** Adding an entry to a directory keeps every directory of the tree a
    directory and keeps the names it had. *)
Lemma node_at_grown : forall cur t par a b e,
  OS.node_at t par = Some (Dir se wr es) ->
  OS.node_at t cur = Some (Dir a b e) ->
  exists e',
    OS.node_at (OS.graft t par grown) cur = Some (Dir a b e')
    /\ forall k n, OS.assoc k e = Some n -> exists n', OS.assoc k e' = Some n'.
Proof.
  induction cur as [|k0 cur IH]; intros t par a b e Hpar Hcur.
  - injection Hcur as ->. destruct par as [|d par].
    + injection Hpar as -> -> ->. cbn [OS.graft OS.node_at].
      eexists. split; [reflexivity|]. intros k n Hk.
      exists n. apply assoc_app_l, Hk.
    + cbn [OS.graft OS.node_at]. eexists. split; [reflexivity|].
      intros k n Hk. rewrite assoc_update_entry.
      destruct (String.eqb_spec k d) as [->|_]; [|eauto].
      rewrite Hk. cbn [option_map]. eauto.
  - cbn [OS.node_at] in Hcur. destruct t as [| |a0 b0 e0]; try discriminate.
    destruct (OS.assoc k0 e0) as [ch|] eqn:E; [|discriminate].
    destruct par as [|d par].
    + injection Hpar as -> -> ->. cbn [OS.graft OS.node_at].
      rewrite (assoc_app_l _ _ _ _ E). exists e. split; [exact Hcur|eauto].
    + cbn [OS.node_at] in Hpar. cbn [OS.graft OS.node_at].
      rewrite assoc_update_entry.
      destruct (String.eqb_spec k0 d) as [->|Hne].
      * rewrite E in *. cbn [option_map]. apply IH; assumption.
      * rewrite E. exists e. split; [exact Hcur|eauto].
Qed.

Lemma namei_step_grown t par cur c cur' :
  OS.node_at t par = Some (Dir se wr es) ->
  OS.namei_step t cur c = Ok cur' ->
  OS.namei_step (OS.graft t par grown) cur c = Ok cur'.
Proof.
  intros Hpar H. destruct (namei_step_Ok _ _ _ _ H) as (a & b & e & Hcur & Hc).
  destruct (node_at_grown cur t par a b e Hpar Hcur) as (e' & Hcur' & Hk).
  unfold OS.namei_step. rewrite Hcur'.
  destruct Hc as [(-> & ->)|[(-> & -> & ->)|(-> & -> & (n & Hn) & ->)]];
    try reflexivity.
  destruct (Hk c n Hn) as (n' & ->). reflexivity.
Qed.

Lemma namei_from_grown t par : forall cs cur cur',
  OS.node_at t par = Some (Dir se wr es) ->
  OS.namei_from t cur cs = Ok cur' ->
  OS.namei_from (OS.graft t par grown) cur cs = Ok cur'.
Proof.
  induction cs as [|c cs IH]; intros cur cur' Hpar H; [exact H|].
  cbn [OS.namei_from] in *.
  destruct (OS.namei_step t cur c) as [cur1|e] eqn:E; [|discriminate].
  rewrite (namei_step_grown t par cur c cur1 Hpar E). apply IH; assumption.
Qed.

End AddEntry.

Lemma is_Dir_graft t par new :
  is_Dir t = true -> is_Dir new = true -> is_Dir (OS.graft t par new) = true.
Proof.
  intros Ht Hn. destruct par as [|d par]; [exact Hn|].
  destruct t; try discriminate. reflexivity.
Qed.

(** What [os.mkdir] leaves of the world, whatever its outcome. *)
Lemma mkdir_at_env s start cs w r w' :
  OS.mkdir_at s start cs w = (r, w') ->
  trace w' = trace w ++ [Mkdir s] /\ log w' = log w /\ home w' = home w
  /\ cwd w' = cwd w /\ popen_error w' = popen_error w
  /\ (is_Dir (fs w) = true -> is_Dir (fs w') = true)
  /\ (r <> Ok tt -> fs w' = fs w).
Proof.
  unfold OS.mkdir_at.
  destruct (OS.namei_from (fs w) start (removelast cs)) as [par|e];
    [|intros [= <- <-]; repeat split; auto].
  destruct (OS.node_at (fs w) par) as [[| |se wr es]|];
    try (intros [= <- <-]; repeat split; auto).
  destruct (_ || _); [intros [= <- <-]; repeat split; auto|].
  destruct (OS.assoc _ es); [intros [= <- <-]; repeat split; auto|].
  destruct wr; intros [= <- <-]; repeat split; auto; try congruence.
  intros Ht. cbn [fs set_fs]. apply is_Dir_graft; [exact Ht|reflexivity].
Qed.

Lemma mkdir_env s w r w' :
  OS.mkdir s w = (r, w') ->
  trace w' = trace w ++ [Mkdir s] /\ log w' = log w /\ home w' = home w
  /\ cwd w' = cwd w /\ popen_error w' = popen_error w
  /\ (is_Dir (fs w) = true -> is_Dir (fs w') = true)
  /\ (r <> Ok tt -> fs w' = fs w).
Proof.
  unfold OS.mkdir. destruct s as [|a s0].
  - intros [= <- <-]. repeat split; auto.
  - apply mkdir_at_env.
Qed.

(** After a successful [os.mkdir] the path names a directory. *)
Lemma mkdir_isdir w p w' :
  is_Dir (fs w) = true -> abs_clean p = true ->
  OS.mkdir (PathLib.to_str p) w = (Ok tt, w') ->
  OS.isdir (PathLib.to_str p) w' = true.
Proof.
  intros Ht Hp H.
  assert (Ht' : is_Dir (fs w') = true) by (eapply mkdir_env; eassumption).
  rewrite (isdir_abs w' p Ht' Hp).
  rewrite (mkdir_abs w p Hp) in H. unfold OS.mkdir_at in H.
  destruct (OS.namei_from (fs w) [] (removelast (parts p))) as [par|e] eqn:En;
    [|discriminate].
  destruct (OS.node_at (fs w) par) as [[| |se wr es]|] eqn:Epar; try discriminate.
  destruct (String.eqb (List.last (parts p) "") "" || OS.is_dots (List.last (parts p) ""))
    eqn:Ec; [discriminate|].
  destruct (OS.assoc (List.last (parts p) "") es) eqn:Ea; [discriminate|].
  destruct wr; [|discriminate]. injection H as <-. cbn [fs set_fs].
  set (c := List.last (parts p) "") in *.
  assert (Hcs : parts p = removelast (parts p) ++ [c]).
  { apply app_removelast_last. intros E. subst c. rewrite E in Ec. discriminate. }
  rewrite Hcs at 1. rewrite namei_from_app.
  rewrite (namei_from_grown se true es _ _ par _ _ _ Epar En).
  cbn [OS.namei_from]. unfold OS.namei_step.
  rewrite (node_at_graft _ _ _ _ Epar).
  apply orb_false_iff in Ec as [Ec1 Ec2]. unfold OS.is_dots in Ec2.
  apply orb_false_iff in Ec2 as [Ec2 Ec3]. rewrite Ec1, Ec2, Ec3. cbn [orb].
  rewrite (assoc_app_r _ _ _ Ea). cbn [OS.assoc]. rewrite String.eqb_refl.
  rewrite node_at_app, (node_at_graft _ _ _ _ Epar). cbn [OS.node_at].
  rewrite (assoc_app_r _ _ _ Ea). cbn [OS.assoc]. rewrite String.eqb_refl.
  reflexivity.
Qed.

(** [os.mkdir] of an existing directory raises [FileExistsError]. *)
Lemma mkdir_exists w p :
  is_Dir (fs w) = true -> abs_clean p = true ->
  OS.isdir (PathLib.to_str p) w = true ->
  OS.mkdir (PathLib.to_str p) w
  = (Raise FileExistsError, add_event (Mkdir (PathLib.to_str p)) w).
Proof.
  intros Ht Hp H. rewrite (isdir_abs w p Ht Hp) in H.
  rewrite (mkdir_abs w p Hp). unfold OS.mkdir_at.
  destruct (parts p) as [|x ps] eqn:Eps using rev_ind.
  - cbn [removelast OS.namei_from OS.node_at List.last].
    destruct (fs w); try discriminate. reflexivity.
  - clear IHps. rewrite removelast_last, last_last.
    rewrite namei_from_app in H.
    destruct (OS.namei_from (fs w) [] ps) as [par|e]; [|discriminate].
    cbn [OS.namei_from] in H.
    destruct (OS.namei_step (fs w) par x) as [cp|e] eqn:Es; [|discriminate].
    destruct (namei_step_Ok _ _ _ _ Es) as (se & wr & es & -> & Hc).
    destruct (String.eqb x "" || OS.is_dots x) eqn:Ex; [reflexivity|].
    apply orb_false_iff in Ex as [Ex1 Ex2]. unfold OS.is_dots in Ex2.
    apply orb_false_iff in Ex2 as [Ex2 Ex3].
    destruct Hc as [(Hc & _)|[(_ & Hc & _)|(_ & _ & (n & ->) & _)]].
    + rewrite Ex1, Ex2 in Hc. discriminate.
    + congruence.
    + reflexivity.
Qed.

Lemma is_dir_true p w :
  OS.isdir (PathLib.to_str p) w = true -> PathIO.is_dir p w = (Ok true, w).
Proof.
  unfold OS.isdir, PathIO.is_dir.
  destruct (OS.lookup w (PathLib.to_str p)) as [[| |]|e]; try discriminate; reflexivity.
Qed.

(** The handler of [OSError] leaves the world as it is and returns only
    for a directory. *)
Lemma except_OSError_run p e w :
  exists res,
    PathIO.except_OSError p e w = (res, w)
    /\ (res = Ok tt -> OS.isdir (PathLib.to_str p) w = true)
    /\ (is_OSError e = true -> OS.isdir (PathLib.to_str p) w = true -> res = Ok tt).
Proof.
  unfold PathIO.except_OSError, bind, raise, ret, PathIO.is_dir, OS.isdir.
  destruct (is_OSError e).
  - destruct (OS.lookup w (PathLib.to_str p)) as [[| |]|e'];
      cbn [is_dir_node]; try (eexists; repeat split; congruence).
    destruct (PathIO.ignore_error e'); eexists; repeat split; congruence.
  - eexists; repeat split; congruence.
Qed.

Lemma mkdir_one_run p w :
  match OS.mkdir (PathLib.to_str p) w with
  | (Ok a, w1) => PathIO.mkdir_one p w = (Ok a, w1)
  | (Raise e, w1) =>
      exists res,
        PathIO.mkdir_one p w = (res, w1)
        /\ (res = Ok tt -> OS.isdir (PathLib.to_str p) w1 = true)
  end.
Proof.
  unfold PathIO.mkdir_one, try_except.
  destruct (OS.mkdir (PathLib.to_str p) w) as [[a|e] w1]; [reflexivity|].
  destruct (except_OSError_run p e w1) as (res & Hr & H1 & _).
  destruct e; try (exists res; split; assumption).
  eexists. split; [reflexivity|]. discriminate.
Qed.

Lemma only_mkdir_refl w : only_mkdir w w.
Proof.
  split; [exists []; rewrite app_nil_r; split; [reflexivity|constructor]|].
  repeat split; auto.
Qed.

Lemma only_mkdir_trans w1 w2 w3 :
  only_mkdir w1 w2 -> only_mkdir w2 w3 -> only_mkdir w1 w3.
Proof.
  intros ((e1 & T1 & F1) & L1 & H1 & C1 & P1 & D1) ((e2 & T2 & F2) & L2 & H2 & C2 & P2 & D2).
  split; [exists (e1 ++ e2); split;
          [rewrite T2, T1, app_assoc; reflexivity|apply Forall_app; split; assumption]|].
  repeat split; try congruence. auto.
Qed.

Lemma only_mkdir_os s w r w' : OS.mkdir s w = (r, w') -> only_mkdir w w'.
Proof.
  intros H. destruct (mkdir_env _ _ _ _ H) as (T & L & Hh & C & P & D & _).
  split; [exists [Mkdir s]; split; [exact T|repeat constructor]|].
  repeat split; assumption.
Qed.

Lemma only_mkdir_one p w r w' : PathIO.mkdir_one p w = (r, w') -> only_mkdir w w'.
Proof.
  pose proof (mkdir_one_run p w) as H.
  destruct (OS.mkdir (PathLib.to_str p) w) as [[a|e] w1] eqn:E.
  - rewrite H. intros [= <- <-]. eapply only_mkdir_os, E.
  - destruct H as (res & -> & _). intros [= <- <-]. eapply only_mkdir_os, E.
Qed.

(** One round of [mkdir(parents=True)]: what happens after [os.mkdir]. *)
Lemma mkdir_parents_unfold r rparts w :
  PathIO.mkdir_parents r rparts w =
  match OS.mkdir (PathLib.to_str (mkPath r (rev rparts))) w with
  | (Ok tt, w1) => (Ok tt, w1)
  | (Raise FileNotFoundError, w1) =>
      match rparts with
      | [] => (Raise FileNotFoundError, w1)
      | _ :: anc =>
          match PathIO.mkdir_parents r anc w1 with
          | (Ok tt, w2) => PathIO.mkdir_one (mkPath r (rev rparts)) w2
          | (Raise e, w2) => (Raise e, w2)
          end
      end
  | (Raise e, w1) => PathIO.except_OSError (mkPath r (rev rparts)) e w1
  end.
Proof. destruct rparts; reflexivity. Qed.

Lemma except_OSError_world p e w res w' :
  PathIO.except_OSError p e w = (res, w') -> w' = w.
Proof.
  destruct (except_OSError_run p e w) as (x & -> & _). intros [= _ <-]. reflexivity.
Qed.

Lemma only_mkdir_parents r : forall rparts w res w',
  PathIO.mkdir_parents r rparts w = (res, w') -> only_mkdir w w'.
Proof.
  induction rparts as [|c anc IH]; intros w res w' H;
    rewrite mkdir_parents_unfold in H;
    destruct (OS.mkdir _ w) as [[[]|e] w1] eqn:E;
    pose proof (only_mkdir_os _ _ _ _ E) as H1.
  - injection H as <- <-. exact H1.
  - destruct e; try (apply except_OSError_world in H as ->; exact H1).
    injection H as <- <-. exact H1.
  - injection H as <- <-. exact H1.
  - destruct e; try (apply except_OSError_world in H as ->; exact H1).
    destruct (PathIO.mkdir_parents r anc w1) as [[[]|e2] w2] eqn:E2.
    + eapply only_mkdir_trans; [exact H1|].
      eapply only_mkdir_trans; [eapply IH, E2|eapply only_mkdir_one, H].
    + injection H as <- <-. eapply only_mkdir_trans; [exact H1|eapply IH, E2].
Qed.

Lemma mkdir_one_isdir p w w' :
  is_Dir (fs w) = true -> abs_clean p = true ->
  PathIO.mkdir_one p w = (Ok tt, w') -> OS.isdir (PathLib.to_str p) w' = true.
Proof.
  intros Ht Hp. pose proof (mkdir_one_run p w) as H.
  destruct (OS.mkdir (PathLib.to_str p) w) as [[[]|e] w1] eqn:E.
  - rewrite H. intros [= <-]. eapply mkdir_isdir; eassumption.
  - destruct H as (res & -> & Hd). intros [= -> <-]. apply Hd. reflexivity.
Qed.

(** After a successful [mkdir(parents=True, exist_ok=True)] the path names
    a directory. *)
Lemma mkdir_parents_isdir p w w' :
  is_Dir (fs w) = true -> abs_clean p = true ->
  PathIO.mkdir p w = (Ok tt, w') -> OS.isdir (PathLib.to_str p) w' = true.
Proof.
  intros Ht Hp. unfold PathIO.mkdir. rewrite mkdir_parents_unfold.
  assert (Hpp : mkPath (root p) (rev (rev (parts p))) = p)
    by (rewrite rev_involutive; destruct p; reflexivity).
  rewrite Hpp.
  destruct (OS.mkdir (PathLib.to_str p) w) as [[[]|e] w1] eqn:E.
  - intros [= <-]. eapply mkdir_isdir; eassumption.
  - assert (Hx : PathIO.except_OSError p e w1 = (Ok tt, w') ->
                 OS.isdir (PathLib.to_str p) w' = true).
    { destruct (except_OSError_run p e w1) as (x & -> & Hd & _).
      intros [= -> <-]. apply Hd. reflexivity. }
    destruct e; try exact Hx.
    destruct (rev (parts p)) as [|c anc]; [discriminate|].
    destruct (PathIO.mkdir_parents (root p) anc w1) as [[[]|e2] w2] eqn:E2;
      [|discriminate].
    intros H. eapply mkdir_one_isdir; [|exact Hp|exact H].
    eapply only_mkdir_parents; [exact E2|].
    eapply only_mkdir_os; [exact E|exact Ht].
Qed.

(** [mkdir(parents=True, exist_ok=True)] of an existing directory succeeds
    and leaves the tree as it is. *)
Lemma mkdir_existing p w :
  is_Dir (fs w) = true -> abs_clean p = true ->
  OS.isdir (PathLib.to_str p) w = true ->
  exists w', PathIO.mkdir p w = (Ok tt, w') /\ fs w' = fs w.
Proof.
  intros Ht Hp Hd. unfold PathIO.mkdir. rewrite mkdir_parents_unfold.
  assert (Hpp : mkPath (root p) (rev (rev (parts p))) = p)
    by (rewrite rev_involutive; destruct p; reflexivity).
  rewrite Hpp, (mkdir_exists w p Ht Hp Hd).
  exists (add_event (Mkdir (PathLib.to_str p)) w). split; [|reflexivity].
  destruct (except_OSError_run p FileExistsError (add_event (Mkdir (PathLib.to_str p)) w))
    as (x & -> & _ & Hx).
  rewrite Hx; [reflexivity..|]. exact Hd.
Qed.

(** The recursion of [mkdir_parents] follows [self.parent]. *)
Lemma parent_rev r c anc :
  PathLib.parent (mkPath r (rev (c :: anc))) = mkPath r (rev anc).
Proof.
  unfold PathLib.parent. cbn [root parts rev]. rewrite removelast_last. reflexivity.
Qed.

Lemma parent_self p : PathLib.parent p = p <-> parts p = [].
Proof.
  destruct p as [r ps]. unfold PathLib.parent. cbn [root parts]. split.
  - intros [= H]. destruct ps as [|x ps] using rev_ind; [reflexivity|].
    rewrite removelast_last in H. apply (f_equal (@length string)) in H.
    rewrite length_app in H. cbn in H. lia.
  - intros ->. reflexivity.
Qed.

Lemma forallb_firstn (f : string -> bool) k l :
  forallb f l = true -> forallb f (firstn k l) = true.
Proof.
  revert k. induction l as [|x l IH]; intros [|k] H; try reflexivity.
  cbn [firstn forallb] in *. apply andb_true_iff in H as [-> H]. cbn [andb]. auto.
Qed.

(** When a path names a directory, so does each of its ancestors. *)
Lemma isdir_ancestors p w k :
  is_Dir (fs w) = true -> abs_clean p = true ->
  OS.isdir (PathLib.to_str p) w = true ->
  OS.isdir (PathLib.to_str (mkPath (root p) (firstn k (parts p)))) w = true.
Proof.
  intros Ht Hp Hd.
  assert (Hpk : abs_clean (mkPath (root p) (firstn k (parts p))) = true).
  { unfold abs_clean in *. cbn [root parts]. apply andb_true_iff in Hp as [-> Hp].
    cbn [andb]. apply forallb_firstn, Hp. }
  rewrite (isdir_abs w p Ht Hp) in Hd. rewrite (isdir_abs w _ Ht Hpk). cbn [parts].
  rewrite <- (firstn_skipn k (parts p)) in Hd. rewrite namei_from_app in Hd.
  destruct (OS.namei_from (fs w) [] (firstn k (parts p))) as [cur|e]; [|discriminate].
  destruct (skipn k (parts p)) as [|c rest]; [exact Hd|].
  cbn [OS.namei_from] in Hd.
  destruct (OS.namei_step (fs w) cur c) as [cur1|e] eqn:Es; [|discriminate].
  destruct (namei_step_Ok _ _ _ _ Es) as (se & wr & es & -> & _). reflexivity.
Qed.

End MkdirFacts.

(** ** Creating a directory that is missing, with its parents *)

Module MakeFacts.
Import StrFacts PathFacts OSFacts TreeFacts GraftFacts MkdirFacts.

Lemma valid_name_plain d :
  valid_name d = true ->
  (String.eqb d "" || String.eqb d ".") = false /\ String.eqb d ".." = false
  /\ (String.eqb d "" || OS.is_dots d) = false.
Proof.
  intros H. destruct (valid_name_inv d H) as (H1 & H2 & H3 & _).
  apply String.eqb_neq in H1, H2, H3. unfold OS.is_dots. rewrite H1, H2, H3. auto.
Qed.

(** Looking up names that are there walks down the tree. *)
Lemma namei_from_exists t : forall cs cur n,
  OS.node_at t (cur ++ cs) = Some n -> forallb valid_name cs = true ->
  OS.namei_from t cur cs = Ok (cur ++ cs).
Proof.
  induction cs as [|c cs IH]; intros cur n Hat Hv.
  - rewrite app_nil_r. reflexivity.
  - cbn [forallb] in Hv. apply andb_true_iff in Hv as [Hc Hv].
    destruct (valid_name_plain c Hc) as (E1 & E2 & _).
    pose proof Hat as Hat'. rewrite node_at_app in Hat'.
    destruct (OS.node_at t cur) as [m|] eqn:Em; [|discriminate].
    cbn [OS.node_at] in Hat'. destruct m as [| |se wr es]; try discriminate.
    destruct (OS.assoc c es) as [ch|] eqn:Ec; [|discriminate].
    cbn [OS.namei_from]. unfold OS.namei_step. rewrite Em, E1, E2, Ec.
    replace (cur ++ c :: cs) with ((cur ++ [c]) ++ cs) in * by (rewrite <- app_assoc; reflexivity).
    eapply IH; eassumption.
Qed.

(** Looking up a name that is missing in its directory fails there. *)
Lemma namei_from_missing t cur se wr es d ds :
  OS.node_at t cur = Some (Dir se wr es) -> valid_name d = true ->
  OS.assoc d es = None ->
  OS.namei_from t cur (d :: ds) = Raise FileNotFoundError.
Proof.
  intros Hat Hd Hn. destruct (valid_name_plain d Hd) as (E1 & E2 & _).
  cbn [OS.namei_from]. unfold OS.namei_step. rewrite Hat, E1, E2, Hn. reflexivity.
Qed.

Lemma update_entry_ext d f g : forall es,
  (forall ch, f ch = g ch) -> OS.update_entry d f es = OS.update_entry d g es.
Proof.
  intros es H. induction es as [|[k ch] es IH]; [reflexivity|].
  cbn [OS.update_entry]. rewrite IH, H. reflexivity.
Qed.

Lemma update_entry_twice d f g : forall es,
  OS.update_entry d f (OS.update_entry d g es)
  = OS.update_entry d (fun ch => f (g ch)) es.
Proof.
  induction es as [|[k ch] es IH]; [reflexivity|].
  cbn [OS.update_entry]. destruct (String.eqb k d) eqn:E; cbn [OS.update_entry]; rewrite E.
  - reflexivity.
  - rewrite IH. reflexivity.
Qed.

Lemma update_entry_new d f c : forall es,
  OS.assoc d es = None ->
  OS.update_entry d f (es ++ [(d, c)]) = es ++ [(d, f c)].
Proof.
  induction es as [|[k ch] es IH]; intros H; cbn [app OS.update_entry OS.assoc] in *.
  - rewrite String.eqb_refl. reflexivity.
  - destruct (String.eqb k d); [discriminate|]. rewrite IH by exact H. reflexivity.
Qed.

(** Grafting below a grafted node is grafting into the node first. *)
Lemma graft_graft : forall pre t rest a b,
  OS.graft (OS.graft t pre a) (pre ++ rest) b = OS.graft t pre (OS.graft a rest b).
Proof.
  induction pre as [|c pre IH]; intros t rest a b; [reflexivity|].
  cbn [app OS.graft]. destruct t as [| |se wr es]; try reflexivity.
  f_equal. rewrite update_entry_twice. apply update_entry_ext. intros ch. apply IH.
Qed.

Lemma node_at_graft_below : forall pre t n rest new,
  OS.node_at t pre = Some n ->
  OS.node_at (OS.graft t pre new) (pre ++ rest) = OS.node_at new rest.
Proof.
  intros pre t n rest new H. rewrite node_at_app, (node_at_graft pre t n new H).
  reflexivity.
Qed.

Lemma node_at_chain : forall ds, OS.node_at (chain ds) ds = Some (Dir None true []).
Proof.
  induction ds as [|d ds IH]; [reflexivity|].
  cbn [chain OS.node_at OS.assoc]. rewrite String.eqb_refl. exact IH.
Qed.

Lemma graft_chain x : forall ds,
  OS.graft (chain ds) ds (Dir None true [(x, Dir None true [])]) = chain (ds ++ [x]).
Proof.
  induction ds as [|d ds IH]; [reflexivity|].
  cbn [chain app OS.graft OS.update_entry]. rewrite String.eqb_refl, IH. reflexivity.
Qed.

Lemma abs_clean_valid r ps :
  (String.eqb r "/" || String.eqb r "//") = true -> forallb valid_name ps = true ->
  abs_clean (mkPath r ps) = true.
Proof.
  intros Hr Hv. unfold abs_clean. cbn [root parts]. rewrite Hr, (valid_clean ps Hv).
  reflexivity.
Qed.

(** [mkdir(parents=True, exist_ok=True)] on a path whose first missing
    component [d] lies in the directory at [pre]: when that directory can be
    written to, [d] and every component after it is made; when it cannot,
    nothing is made and [PermissionError] is raised. *)
Lemma mkdir_parents_missing r pre se wr es d : forall ds w,
  (String.eqb r "/" || String.eqb r "//") = true ->
  is_Dir (fs w) = true ->
  forallb valid_name (pre ++ d :: ds) = true ->
  OS.node_at (fs w) pre = Some (Dir se wr es) ->
  OS.assoc d es = None ->
  exists w',
    PathIO.mkdir_parents r (rev (pre ++ d :: ds)) w
    = (if wr then Ok tt else Raise PermissionError, w')
    /\ fs w' = if wr then OS.graft (fs w) pre (Dir se wr (es ++ [(d, chain ds)]))
               else fs w.
Proof.
  induction ds as [|x ds IH] using rev_ind; intros w Hr Ht Hv Hat Hn.
  - assert (Hclean : abs_clean (mkPath r (pre ++ [d])) = true)
      by (apply abs_clean_valid; assumption).
    rewrite mkdir_parents_unfold, rev_involutive, (mkdir_abs w _ Hclean).
    cbn [parts]. unfold OS.mkdir_at. rewrite removelast_last, last_last.
    rewrite forallb_app in Hv. apply andb_true_iff in Hv as [Hvp Hvd].
    cbn [forallb] in Hvd. apply andb_true_iff in Hvd as [Hvd _].
    rewrite (namei_from_exists (fs w) pre [] _ Hat Hvp). cbn [app]. rewrite Hat.
    destruct (valid_name_plain d Hvd) as (_ & _ & ->). rewrite Hn.
    destruct wr.
    + eexists. split; reflexivity.
    + exists (add_event (Mkdir (PathLib.to_str (mkPath r (pre ++ [d])))) w).
      split; [|reflexivity].
      unfold PathIO.except_OSError, bind, PathIO.is_dir, raise, ret. cbn [is_OSError].
      unfold OS.lookup.
      rewrite (namei_abs (add_event (Mkdir _) w) _ Ht Hclean). cbn [parts fs add_event].
      rewrite namei_from_app, (namei_from_exists (fs w) pre [] _ Hat Hvp). cbn [app].
      rewrite (namei_from_missing (fs w) pre se false es d [] Hat Hvd Hn).
      reflexivity.
  - replace (pre ++ d :: ds ++ [x]) with ((pre ++ d :: ds) ++ [x]) in *
      by (rewrite <- app_assoc; reflexivity).
    assert (Hclean : abs_clean (mkPath r ((pre ++ d :: ds) ++ [x])) = true)
      by (apply abs_clean_valid; assumption).
    rewrite forallb_app in Hv. apply andb_true_iff in Hv as [Hv Hvx].
    cbn [forallb] in Hvx. apply andb_true_iff in Hvx as [Hvx _].
    pose proof Hv as Hv'. rewrite forallb_app in Hv'.
    apply andb_true_iff in Hv' as [Hvp Hvd]. cbn [forallb] in Hvd.
    apply andb_true_iff in Hvd as [Hvd Hvds].
    rewrite mkdir_parents_unfold, rev_involutive, (mkdir_abs w _ Hclean).
    cbn [parts]. unfold OS.mkdir_at at 1. rewrite removelast_last.
    rewrite namei_from_app, (namei_from_exists (fs w) pre [] _ Hat Hvp). cbn [app].
    rewrite (namei_from_missing (fs w) pre se wr es d ds Hat Hvd Hn).
    rewrite rev_unit.
    destruct (IH (add_event (Mkdir (PathLib.to_str (mkPath r ((pre ++ d :: ds) ++ [x])))) w)
                Hr Ht Hv Hat Hn) as (w2 & Hrun & Hfs).
    rewrite Hrun. cbn [fs add_event] in Hfs. destruct wr.
    + pose proof (mkdir_one_run (mkPath r ((pre ++ d :: ds) ++ [x])) w2) as Hone.
      rewrite (mkdir_abs w2 _ Hclean) in Hone. cbn [parts] in Hone.
      unfold OS.mkdir_at in Hone. rewrite removelast_last, last_last in Hone.
      assert (Hat2 : OS.node_at (fs w2) (pre ++ d :: ds) = Some (Dir None true [])).
      { rewrite Hfs, (node_at_graft_below pre (fs w) _ (d :: ds) _ Hat).
        cbn [OS.node_at]. rewrite (assoc_app_r _ _ _ Hn). cbn [OS.assoc].
        rewrite String.eqb_refl. apply node_at_chain. }
      rewrite (namei_from_exists (fs w2) (pre ++ d :: ds) [] _ Hat2 Hv) in Hone.
      cbn [app] in Hone. rewrite Hat2 in Hone.
      destruct (valid_name_plain x Hvx) as (_ & _ & Ex). rewrite Ex in Hone.
      cbn [OS.assoc app] in Hone. rewrite Hone.
      eexists. split; [reflexivity|]. cbn [fs set_fs]. rewrite Hfs, graft_graft.
      f_equal. cbn [OS.graft]. rewrite (update_entry_new d _ (chain ds) es Hn).
      rewrite graft_chain. reflexivity.
    + exists w2. split; [reflexivity|exact Hfs].
Qed.

(** A path whose lookup stops at a missing name is no directory. *)
Lemma isdir_missing w r pre se wr es d ds :
  (String.eqb r "/" || String.eqb r "//") = true ->
  is_Dir (fs w) = true ->
  forallb valid_name (pre ++ d :: ds) = true ->
  OS.node_at (fs w) pre = Some (Dir se wr es) ->
  OS.assoc d es = None ->
  OS.isdir (PathLib.to_str (mkPath r (pre ++ d :: ds))) w = false.
Proof.
  intros Hr Ht Hv Hat Hn.
  assert (Hclean : abs_clean (mkPath r (pre ++ d :: ds)) = true)
    by (apply abs_clean_valid; assumption).
  rewrite forallb_app in Hv. apply andb_true_iff in Hv as [Hvp Hvd].
  cbn [forallb] in Hvd. apply andb_true_iff in Hvd as [Hvd _].
  rewrite (isdir_abs w _ Ht Hclean). cbn [parts].
  rewrite namei_from_app, (namei_from_exists (fs w) pre [] _ Hat Hvp). cbn [app].
  rewrite (namei_from_missing (fs w) pre se wr es d ds Hat Hvd Hn). reflexivity.
Qed.

End MakeFacts.

(** * The directory search *)

(** ** The exception that ends a walk *)

Module FaultFacts.
Import WalkFacts.

(** A run that ends in the handler stopped at the first fault of the walk,
    with the matches and the calls of the items before it. *)
Lemma consume_raised items : forall m w e m' w',
  consume items m w = Raised e m' w' ->
  exists pre post,
    items = pre ++ Fault e :: post
    /\ forallb (fun i => negb (is_Fault i)) pre = true
    /\ m' = m ++ all_found pre
    /\ trace w' = trace w ++ events_of pre
    /\ log w' = log w.
Proof.
  induction items as [|[p|p|e0] items IH]; intros m w e m' w' H; cbn [consume] in H.
  - discriminate.
  - destruct (IH _ _ _ _ _ H) as (pre & post & -> & Hnf & -> & Htr & Hlog).
    exists (Visit p :: pre), post. cbn [app forallb is_Fault negb andb all_found events_of].
    repeat split; try assumption.
    rewrite Htr. cbn [trace add_event]. rewrite <- app_assoc. reflexivity.
  - destruct (5 <=? length (m ++ [p])); [discriminate|].
    destruct (IH _ _ _ _ _ H) as (pre & post & -> & Hnf & -> & Htr & Hlog).
    exists (Found p :: pre), post. cbn [app forallb is_Fault negb andb all_found events_of].
    repeat split; try assumption.
    + rewrite <- app_assoc. reflexivity.
    + rewrite Htr. cbn [trace add_event]. rewrite <- app_assoc. reflexivity.
  - injection H as <- <- <-. exists [], items. cbn [app forallb all_found events_of].
    rewrite !app_nil_r. repeat split.
Qed.

(** A fault met before the fifth match ends the run in the handler. *)
Lemma consume_fault e post : forall pre m w,
  forallb (fun i => negb (is_Fault i)) pre = true ->
  length (m ++ all_found pre) < 5 ->
  exists w',
    consume (pre ++ Fault e :: post) m w = Raised e (m ++ all_found pre) w'
    /\ trace w' = trace w ++ events_of pre
    /\ log w' = log w.
Proof.
  induction pre as [|[p|p|e0] pre IH]; intros m w Hnf Hlen;
    cbn [app consume all_found events_of forallb is_Fault negb andb] in *.
  - exists w. rewrite !app_nil_r. repeat split.
  - destruct (IH m (add_event (Scandir (PathLib.to_str p)) w) Hnf Hlen)
      as (w' & -> & Htr & Hlog).
    exists w'. split; [reflexivity|]. split; [|exact Hlog].
    rewrite Htr. cbn [trace add_event]. rewrite <- app_assoc. reflexivity.
  - assert (Hm : length (m ++ [p]) < 5).
    { rewrite !length_app in *. cbn [length] in *. lia. }
    destruct (Nat.leb_spec 5 (length (m ++ [p]))) as [Hle|_]; [lia|].
    destruct (IH (m ++ [p]) (add_event (Append p) w) Hnf) as (w' & -> & Htr & Hlog).
    { rewrite <- app_assoc. exact Hlen. }
    exists w'. rewrite <- app_assoc. split; [reflexivity|]. split; [|exact Hlog].
    rewrite Htr. cbn [trace add_event]. rewrite <- app_assoc. reflexivity.
  - discriminate.
Qed.

End FaultFacts.

Section SearchClaims.
Import StrFacts PathFacts OSFacts TreeFacts WalkFacts ItemFacts RunFacts HomeFacts.
Import GraftFacts FaultFacts.

Variable lower : string -> string.

(** C1. On a well-formed snapshot [find_matching_dirs] returns, and it
    returns at most five paths, without duplicates; each one names a
    directory of the snapshot that lies strictly below the home directory,
    reached from it by entry names, and the lower-cased query occurs in its
    lower-cased base name. *)
Theorem find_matching_dirs_sound (query : string) (w : world) :
  wf_world w = true ->
  exists r w',
    find_matching_dirs lower query w = Some (Ok r, w')
    /\ length r <= 5 /\ List.NoDup r /\
    forall p, In p r ->
      exists names,
        names <> [] /\ p = mkPath (root (home w)) (parts (home w) ++ names)
        /\ forallb valid_name names = true
        /\ OS.isdir (PathLib.to_str p) w = true
        /\ Str.contains (lower query) (lower (PathLib.name p)) = true.
Proof.
  intros Hwf.
  destruct (find_matching_dirs_summary lower query w Hwf)
    as (r & w' & consumed & rest & Hrun & Hit & Hr & Hfirst & _).
  exists r, w'. split; [exact Hrun|].
  destruct (wf_world_inv w Hwf) as (Hroot & Hn & Hh & Hps).
  split; [|split].
  - rewrite Hfirst. rewrite length_firstn. lia.
  - pose proof (home_items_NoDup (matches_query lower query) w Hwf) as Hnd.
    rewrite Hit, all_found_app, <- Hr in Hnd.
    eapply List.NoDup_app_remove_r, Hnd.
  - intros p Hp. rewrite Hr in Hp. apply in_all_found in Hp.
    assert (Hin : In (Found p) (home_items (matches_query lower query) w))
      by (rewrite Hit; apply in_app_iff; left; exact Hp).
    destruct (home_items_Found _ w p Hwf Hin)
      as (names & d & c & -> & Hat & Hdir & Hv & Hsh & Hsel).
    exists (names ++ [d]). split; [destruct names; discriminate|].
    split; [reflexivity|]. split; [exact Hv|]. split.
    + unfold OS.isdir. rewrite Hh. cbn [root parts].
      pose proof (lookup_abs w (parts (home w) ++ names ++ [d]) Hroot) as Hl.
      rewrite forallb_app, Hps, Hv in Hl. specialize (Hl eq_refl).
      rewrite Hat in Hl. rewrite Hl. destruct c; [discriminate|reflexivity..].
    + unfold PathLib.name. cbn [parts]. rewrite !app_assoc, last_snoc. exact Hsel.
Qed.

(** C2. No returned path has a component below the home directory that
    starts with a dot, and neither has any directory the walk lists; the
    components are entry names, so the dot is looked for at every level.
    Hence a path below the home directory with a hidden component at any
    depth is neither returned nor listed: hidden directories are left out
    of the results and nothing beneath them is visited. *)
Theorem hidden_directories_pruned (query : string) (w : world) :
  wf_world w = true ->
  exists r w' evs,
    find_matching_dirs lower query w = Some (Ok r, w')
    /\ trace w' = trace w ++ evs
    /\ (forall p, In p r ->
         exists names,
           p = mkPath (root (home w)) (parts (home w) ++ names)
           /\ forallb valid_name names = true
           /\ Forall (fun d => Str.startswith d "." = false) names)
    /\ (forall s, In (Scandir s) evs ->
         exists names,
           s = PathLib.to_str (mkPath (root (home w)) (parts (home w) ++ names))
           /\ forallb valid_name names = true
           /\ Forall (fun d => Str.startswith d "." = false) names)
    /\ (forall names,
          forallb valid_name names = true ->
          Exists (fun d => Str.startswith d "." = true) names ->
          let p := mkPath (root (home w)) (parts (home w) ++ names) in
          ~ In p r /\ ~ In (Scandir (PathLib.to_str p)) evs).
Proof.
  intros Hwf.
  destruct (find_matching_dirs_summary lower query w Hwf)
    as (r & w' & consumed & rest & Hrun & Hit & Hr & _ & Htr & _).
  exists r, w', (events_of consumed). split; [exact Hrun|]. split; [exact Htr|].
  destruct (wf_world_inv w Hwf) as (_ & _ & Hh & Hps).
  assert (Hret : forall p, In p r ->
            exists names,
              p = mkPath (root (home w)) (parts (home w) ++ names)
              /\ forallb valid_name names = true
              /\ Forall (fun d => Str.startswith d "." = false) names).
  { intros p Hp. rewrite Hr in Hp. apply in_all_found in Hp.
    assert (Hin : In (Found p) (home_items (matches_query lower query) w))
      by (rewrite Hit; apply in_app_iff; left; exact Hp).
    destruct (home_items_Found _ w p Hwf Hin)
      as (names & d & c & -> & _ & _ & Hv & Hsh & _).
    exists (names ++ [d]). split; [reflexivity|]. split; [exact Hv|].
    apply shown_Forall, Hsh. }
  assert (Hscan : forall s, In (Scandir s) (events_of consumed) ->
            exists names,
              s = PathLib.to_str (mkPath (root (home w)) (parts (home w) ++ names))
              /\ forallb valid_name names = true
              /\ Forall (fun d => Str.startswith d "." = false) names).
  { intros s Hs. apply in_events_Scandir in Hs as (p & Hp & ->).
    assert (Hin : In (Visit p) (home_items (matches_query lower query) w))
      by (rewrite Hit; apply in_app_iff; left; exact Hp).
    destruct (home_items_Visit _ w p Hwf Hin) as (names & -> & Hv & Hsh).
    exists names. split; [reflexivity|]. split; [exact Hv|].
    apply shown_Forall, Hsh. }
  split; [exact Hret|]. split; [exact Hscan|].
  intros names Hv Hhid p.
  assert (Hno : forall names', names' = names ->
            Forall (fun d => Str.startswith d "." = false) names' -> False).
  { intros names' -> Hall. apply Exists_exists in Hhid as (d & Hd & Hdot).
    rewrite Forall_forall in Hall. rewrite (Hall d Hd) in Hdot. discriminate. }
  split.
  - intros Hin. destruct (Hret p Hin) as (names' & E & _ & Hall).
    apply (Hno names'); [|exact Hall]. subst p. injection E as E.
    apply app_inv_head in E. congruence.
  - intros Hin. destruct (Hscan _ Hin) as (names' & E & Hv' & Hall).
    apply (Hno names'); [|exact Hall]. subst p. rewrite Hh in E. cbn [root parts] in E.
    apply to_str_inj in E; [|rewrite forallb_app, Hps, Hv; reflexivity
                            |rewrite forallb_app, Hps, Hv'; reflexivity].
    apply app_inv_head in E. congruence.
Qed.

(** C3. The result is the first five matches of the walk.  When the fifth
    match is appended the function returns at once: the append is the last
    thing it does, so nothing is listed or matched after it, be it a later
    entry of the directory at hand or another directory. *)
Theorem limit_stops_walk (query : string) (w : world) :
  wf_world w = true ->
  exists r w',
    find_matching_dirs lower query w = Some (Ok r, w')
    /\ length r <= 5
    /\ r = firstn 5 (found_of (home_items (matches_query lower query) w))
    /\ (5 <= length (found_of (home_items (matches_query lower query) w)) ->
        length r = 5)
    /\ (length r = 5 ->
        exists evs r0 p, r = r0 ++ [p] /\ trace w' = trace w ++ evs ++ [Append p]).
Proof.
  intros Hwf.
  destruct (find_matching_dirs_summary lower query w Hwf)
    as (r & w' & consumed & rest & Hrun & Hit & Hr & Hfirst & Htr & _ & H5 & _).
  exists r, w'. split; [exact Hrun|].
  split; [rewrite Hfirst, length_firstn; lia|].
  split; [exact Hfirst|]. split.
  - intros Hav. rewrite Hfirst, length_firstn. lia.
  - intros Hl. destruct (H5 Hl) as (pre & p & ->).
    exists (events_of pre), (all_found pre), p.
    rewrite Hr, Htr, all_found_app, events_of_app. auto.
Qed.

(** C5. For the empty query the result is the first five paths the walk
    reports when it selects every name; when no listing raises anything but
    an [OSError], these are the first five of the directories below the home
    directory that are not hidden, in the order the walk meets them. *)
Theorem empty_query_lists_directories (w : world) :
  lower "" = "" ->
  wf_world w = true ->
  exists r w',
    find_matching_dirs lower "" w = Some (Ok r, w')
    /\ r = firstn 5 (found_of (home_items (fun _ => true) w))
    /\ (no_fault (fs w) = true -> r = firstn 5 (home_dirs w)).
Proof.
  intros Hlow Hwf.
  destruct (find_matching_dirs_summary lower "" w Hwf)
    as (r & w' & consumed & rest & Hrun & _ & _ & Hfirst & _).
  exists r, w'. split; [exact Hrun|].
  assert (Hr : r = firstn 5 (found_of (home_items (fun _ => true) w))).
  { rewrite Hfirst. f_equal. f_equal. apply home_items_ext.
    intros d. unfold matches_query, sel. rewrite Hlow. apply contains_nil. }
  split; [exact Hr|]. intros Hn. rewrite Hr, (found_of_home_dirs w Hn). reflexivity.
Qed.

(** C9. A call changes neither the tree nor the home directory, and a
    second call with the same query returns the same sequence. *)
Theorem find_matching_dirs_repeatable (query : string) (w : world) :
  wf_world w = true ->
  exists r w1 w2,
    find_matching_dirs lower query w = Some (Ok r, w1)
    /\ fs w1 = fs w /\ home w1 = home w
    /\ find_matching_dirs lower query w1 = Some (Ok r, w2).
Proof.
  intros Hwf.
  destruct (find_matching_dirs_summary lower query w Hwf)
    as (r & w1 & _ & _ & Hrun & _ & _ & Hfirst & _ & (Hfs & _ & Hhome & _) & _).
  assert (Hwf1 : wf_world w1 = true) by (unfold wf_world; rewrite Hfs, Hhome; exact Hwf).
  destruct (find_matching_dirs_summary lower query w1 Hwf1)
    as (r' & w2 & _ & _ & Hrun' & _ & _ & Hfirst' & _).
  exists r, w1, w2. repeat split; try assumption.
  rewrite Hrun'. do 3 f_equal. rewrite Hfirst, Hfirst'.
  unfold home_items. rewrite Hfs, Hhome. reflexivity.
Qed.

(** C4, amended.  The call always returns.  A directory whose listing
    fails with an [OSError] is passed over without a log record and the walk
    goes on: the result is the one obtained with an empty directory in its
    place.  Only an exception of another kind reaches the handler of
    [find_matching_dirs]; it is logged once and it ends the traversal: the
    calls made are those of the walk before the exception, and the matches
    gathered up to it are returned.  Conversely the first such exception of
    the walk, met before the fifth match, is the one that is logged. *)
Theorem traversal_errors_contained (query : string) (w : world) :
  wf_world w = true ->
  exists r w',
    find_matching_dirs lower query w = Some (Ok r, w')
    /\ (log w' = log w
        \/ exists e pre post,
             is_OSError e = false
             /\ home_items (matches_query lower query) w = pre ++ Fault e :: post
             /\ forallb (fun i => negb (is_Fault i)) pre = true
             /\ r = all_found pre
             /\ trace w' = trace w ++ events_of pre
             /\ log w' = log w ++ [LogError "Error searching directories" e])
    /\ (forall e pre post,
          home_items (matches_query lower query) w = pre ++ Fault e :: post ->
          forallb (fun i => negb (is_Fault i)) pre = true ->
          length (all_found pre) < 5 ->
          r = all_found pre
          /\ trace w' = trace w ++ events_of pre
          /\ log w' = log w ++ [LogError "Error searching directories" e])
    /\ forall ps e wr es,
         OS.node_at (fs w) (parts (home w) ++ ps) = Some (Dir (Some e) wr es) ->
         is_OSError e = true ->
         let t := OS.graft (fs w) (parts (home w) ++ ps) (Dir None wr []) in
         find_matching_dirs lower query (set_fs t w) = Some (Ok r, set_fs t w').
Proof.
  intros Hwf.
  destruct (find_matching_dirs_summary lower query w Hwf)
    as (r & w' & consumed & rest & Hrun & Hit & _ & _ & _ & _ & _ & _).
  exists r, w'. split; [exact Hrun|].
  pose proof Hrun as Hc. rewrite (find_matching_dirs_run lower query w Hwf) in Hc.
  split; [|split].
  - destruct (consume_env (home_items (matches_query lower query) w) [] w)
      as (w1 & Hfw & (_ & _ & _ & _ & Hl1)).
    destruct (consume (home_items (matches_query lower query) w) [] w)
      as [m wa|m wa|e m wa|] eqn:E; [| | |discriminate].
    + injection Hc as <- <-. injection Hfw as ->. left. exact Hl1.
    + injection Hc as <- <-. injection Hfw as ->. left. exact Hl1.
    + injection Hc as <- <-. right.
      destruct (consume_raised _ _ _ _ _ _ E) as (pre & post & Hsplit & Hnf & -> & Htr & Hlog).
      exists e, pre, post. split.
      { assert (Hin : In (Fault e) (home_items (matches_query lower query) w))
          by (rewrite Hsplit; apply in_app_iff; right; left; reflexivity).
        unfold home_items in Hin.
        destruct (OS.node_at (fs w) (parts (home w))).
        - eapply tree_items_Fault, Hin.
        - destruct Hin as [E0|[]]. discriminate. }
      cbn [log add_log trace]. rewrite Hlog. repeat split; assumption.
  - intros e pre post Hsplit Hnf Hlen. rewrite Hsplit in Hc.
    destruct (consume_fault e post pre [] w Hnf Hlen) as (wa & Hrun' & Htr & Hlog).
    rewrite Hrun' in Hc. injection Hc as <- <-.
    cbn [log add_log trace]. rewrite Hlog. repeat split; assumption.
  - intros ps e wr es Hat He t.
    destruct (wf_world_inv w Hwf) as (Hroot & Hn & Hh & Hps).
    destruct (tree_items_graft (fun _ => true) e wr es _ (fs w) (home w) Hat He)
      as (_ & _ & Hd).
    assert (Hwft : wf_world (set_fs t w) = true).
    { unfold wf_world. cbn [fs home set_fs]. subst t. rewrite Hd, Hroot.
      rewrite (wf_graft _ (fs w) _ (Dir None wr []) Hn eq_refl Hat).
      unfold wf_world in Hwf. apply andb_true_iff in Hwf as [_ ->]. reflexivity. }
    rewrite (find_matching_dirs_run lower query _ Hwft).
    rewrite (find_matching_dirs_run lower query _ Hwf) in Hrun.
    subst t. rewrite (home_items_graft _ w ps e wr es Hat He), consume_set_fs.
    destruct (consume (home_items (matches_query lower query) w) [] w)
      as [m1 w1|r1 w1|e1 m1 w1|]; try discriminate;
      injection Hrun as <- <-; reflexivity.
Qed.

(** C8. For a query that is not empty the listener returns the item that
    creates the directory named by the query, followed by one item for each
    matched directory, in the order of the matches and at most five: the
    first carries the action ["create"] and the query, the others the action
    ["use"] and the path. *)
Theorem keyword_query_items (query : string) (w : world) :
  query <> "" ->
  wf_world w = true ->
  exists r w' first rest,
    find_matching_dirs lower query w = Some (Ok r, w')
    /\ keyword_query_on_event lower (Some query) w
       = Some (Ok (RenderResultList (first :: rest)), w')
    /\ payload first = Some ("create", query)
    /\ item_name first = "Create and use: " +:+ query
    /\ map payload rest = map (fun p => Some ("use", PathLib.to_str p)) r
    /\ map item_name rest = map PathLib.to_str r
    /\ length rest <= 5.
Proof.
  intros Hq Hwf.
  destruct (find_matching_dirs_summary lower query w Hwf)
    as (r & w' & _ & _ & Hrun & _ & _ & Hfirst & _).
  unfold keyword_query_on_event. rewrite Hrun.
  destruct (String.eqb_spec query "") as [E|_]; [contradiction|].
  eexists r, w', _, _. split; [reflexivity|]. split; [reflexivity|].
  split; [|split; [reflexivity|split; [|split]]].
  - unfold payload. cbn [on_enter].
    rewrite lookup_insert_eq, lookup_insert_ne by discriminate.
    rewrite lookup_singleton_eq. reflexivity.
  - rewrite map_map. apply map_ext. intros p. unfold payload. cbn [on_enter].
    rewrite lookup_insert_eq, lookup_insert_ne by discriminate.
    rewrite lookup_singleton_eq. reflexivity.
  - rewrite map_map. reflexivity.
  - rewrite length_map, Hfirst, length_firstn. lia.
Qed.

End SearchClaims.

(** ** The search theorems at the sample snapshots *)

Lemma find_matching_dirs_sound_witness :
  wf_world sample_world = true
  /\ exists r w',
       find_matching_dirs Str.lower_ascii "app" sample_world = Some (Ok r, w')
       /\ length r <= 5 /\ List.NoDup r.
Proof.
  split; [reflexivity|].
  destruct (find_matching_dirs_sound Str.lower_ascii "app" sample_world eq_refl)
    as (r & w' & H1 & H2 & H3 & _).
  exists r, w'. auto.
Defined.

Lemma hidden_directories_pruned_witness :
  wf_world sample_world = true
  /\ exists r w' evs,
       find_matching_dirs Str.lower_ascii "app3" sample_world = Some (Ok r, w')
       /\ trace w' = trace sample_world ++ evs
       /\ ~ In (mkPath "/" ["home"; "u"; ".hidden"; "app3"]) r
       /\ ~ In (Scandir "/home/u/.hidden") evs
       /\ ~ In (Scandir "/home/u/.hidden/app3") evs.
Proof.
  split; [reflexivity|].
  destruct (hidden_directories_pruned Str.lower_ascii "app3" sample_world eq_refl)
    as (r & w' & evs & H1 & H2 & _ & _ & H5).
  exists r, w', evs. split; [exact H1|]. split; [exact H2|].
  assert (Ha : Exists (fun d => Str.startswith d "." = true) [".hidden"; "app3"])
    by (left; reflexivity).
  assert (Hb : Exists (fun d => Str.startswith d "." = true) [".hidden"])
    by (left; reflexivity).
  split; [exact (proj1 (H5 [".hidden"; "app3"] eq_refl Ha))|].
  split; [exact (proj2 (H5 [".hidden"] eq_refl Hb))|].
  exact (proj2 (H5 [".hidden"; "app3"] eq_refl Ha)).
Defined.

Lemma limit_stops_walk_witness :
  wf_world sample_world = true
  /\ exists r w',
       find_matching_dirs Str.lower_ascii "app" sample_world = Some (Ok r, w')
       /\ length r <= 5.
Proof.
  split; [reflexivity|].
  destruct (limit_stops_walk Str.lower_ascii "app" sample_world eq_refl)
    as (r & w' & H1 & H2 & _).
  exists r, w'. auto.
Defined.

Lemma empty_query_lists_directories_witness :
  Str.lower_ascii "" = ""
  /\ wf_world sample_world = true
  /\ exists r w',
       find_matching_dirs Str.lower_ascii "" sample_world = Some (Ok r, w')
       /\ r = firstn 5 (found_of (home_items (fun _ => true) sample_world)).
Proof.
  split; [reflexivity|]. split; [reflexivity|].
  destruct (empty_query_lists_directories Str.lower_ascii sample_world eq_refl eq_refl)
    as (r & w' & H1 & H2 & _).
  exists r, w'. auto.
Defined.

Lemma find_matching_dirs_repeatable_witness :
  exists r w1 w2,
    find_matching_dirs Str.lower_ascii "app" sample_world = Some (Ok r, w1)
    /\ fs w1 = fs sample_world /\ home w1 = home sample_world
    /\ find_matching_dirs Str.lower_ascii "app" w1 = Some (Ok r, w2).
Proof.
  exact (find_matching_dirs_repeatable Str.lower_ascii "app" sample_world eq_refl).
Defined.

Lemma traversal_errors_contained_witness :
  wf_world faulty_world = true
  /\ exists r w',
       find_matching_dirs Str.lower_ascii "app" faulty_world = Some (Ok r, w')
       /\ r = [mkPath "/" ["home"; "u"; "a_app"]; mkPath "/" ["home"; "u"; "z_app"]]
       /\ trace w'
          = [Scandir "/home/u"; Append (mkPath "/" ["home"; "u"; "a_app"]);
             Append (mkPath "/" ["home"; "u"; "z_app"]);
             Scandir "/home/u/a_app"; Scandir "/home/u/broken"]
       /\ log w' = [LogError "Error searching directories" (OtherException "boom")].
Proof.
  split; [reflexivity|].
  destruct (traversal_errors_contained Str.lower_ascii "app" faulty_world eq_refl)
    as (r & w' & Hrun & _ & Hfault & _).
  exists r, w'. split; [exact Hrun|].
  apply (Hfault (OtherException "boom")
           [Visit (mkPath "/" ["home"; "u"]);
            Found (mkPath "/" ["home"; "u"; "a_app"]);
            Found (mkPath "/" ["home"; "u"; "z_app"]);
            Visit (mkPath "/" ["home"; "u"; "a_app"]);
            Visit (mkPath "/" ["home"; "u"; "broken"])]
           [Visit (mkPath "/" ["home"; "u"; "z_app"]);
            Found (mkPath "/" ["home"; "u"; "z_app"; "deep_app"]);
            Visit (mkPath "/" ["home"; "u"; "z_app"; "deep_app"])]).
  - vm_compute; reflexivity.
  - reflexivity.
  - cbn; lia.
Defined.

Lemma keyword_query_items_witness :
  exists r w' first rest,
    find_matching_dirs Str.lower_ascii "app" sample_world = Some (Ok r, w')
    /\ keyword_query_on_event Str.lower_ascii (Some "app") sample_world
       = Some (Ok (RenderResultList (first :: rest)), w')
    /\ payload first = Some ("create", "app")
    /\ item_name first = "Create and use: " +:+ "app"
    /\ map payload rest = map (fun p => Some ("use", PathLib.to_str p)) r
    /\ map item_name rest = map PathLib.to_str r
    /\ length rest <= 5.
Proof.
  apply (keyword_query_items Str.lower_ascii "app" sample_world);
    [discriminate|reflexivity].
Defined.

(** C4 as worded fails at the sample snapshot: the listing of
    [/home/u/locked_app] raises [PermissionError] during the search for
    ["locked"], and the log stays empty. *)
Lemma traversal_error_not_logged :
  ~ traversal_errors_logged Str.lower_ascii "locked" sample_world.
Proof.
  intros H.
  specialize (H (matches_of sample_locked) (world_of sample_locked)
                "/home/u/locked_app" PermissionError eq_refl).
  cbn in H. apply H; [|reflexivity].
  do 7 right. left. reflexivity.
Qed.

(** * The executor *)

Module EnterFacts.
Import StrFacts MkdirFacts.

Lemma launch_run prefs ws w template :
  prefs !! "docker_command" = Some template ->
  exists w',
    launch prefs ws w = (Ok HideWindowAction, w')
    /\ trace w' = trace w
         ++ [Popen (terminal_argv
                      (Str.replace template WORKSPACE_BASE (PathLib.to_str ws)))]
    /\ fs w' = fs w.
Proof.
  intros H. unfold launch, bind, dict_get, try_except, subprocess_Popen, ret, logger_error.
  rewrite H. destruct (popen_error w); eexists; repeat split.
Qed.

Lemma item_enter_use data prefs w path action :
  data !! "path" = Some path -> data !! "action" = Some action ->
  String.eqb action "create" = false ->
  item_enter_on_event data prefs w = launch prefs (PathLib.of_str path) w.
Proof.
  intros Hp Ha Hc. unfold item_enter_on_event, bind, dict_get, ret.
  rewrite Hp, Ha, Hc. reflexivity.
Qed.

Lemma item_enter_create data prefs w path :
  data !! "path" = Some path -> data !! "action" = Some "create" ->
  item_enter_on_event data prefs w =
  match PathIO.mkdir (PathLib.joinpath (home w) (PathLib.of_str path)) w with
  | (Ok _, w1) => launch prefs (PathLib.joinpath (home w) (PathLib.of_str path)) w1
  | (Raise e, w1) =>
      (Ok HideWindowAction, add_log (LogError "Failed to create directory" e) w1)
  end.
Proof.
  intros Hp Ha.
  unfold item_enter_on_event, bind, dict_get, ret, try_except, PathIO.home_, logger_error.
  rewrite Hp, Ha. cbn [String.eqb Ascii.eqb Bool.eqb].
  change (String.eqb "create" "create") with true. cbv iota.
  destruct (PathIO.mkdir (PathLib.joinpath (home w) (PathLib.of_str path)) w)
    as [[[]|e] w1]; reflexivity.
Qed.

Lemma joinpath_absolute h s :
  Str.startswith s "/" = true ->
  PathLib.joinpath h (PathLib.of_str s) = PathLib.of_str s.
Proof.
  intros H. unfold PathLib.joinpath, PathLib.is_absolute.
  destruct (of_str_root s) as [[_ [E|E]]|[E _]]; [rewrite E..|congruence]; reflexivity.
Qed.

Lemma of_str_abs_clean s :
  Str.startswith s "/" = true -> abs_clean (PathLib.of_str s) = true.
Proof.
  intros H. unfold abs_clean. rewrite of_str_clean, andb_true_r.
  destruct (of_str_root s) as [[_ [E|E]]|[E _]]; [rewrite E..|congruence]; reflexivity.
Qed.

End EnterFacts.

Section ExecutorClaims.
Import StrFacts MkdirFacts MakeFacts EnterFacts ReplaceFacts.

(** C6. When the workspace of the chosen item is available, the handler
    starts one terminal, and the command it runs is the template with each
    occurrence of the placeholder replaced by the workspace path: the
    template is a sequence of placeholder-free segments separated by the
    placeholder, and the command is these segments separated by the path.
    For the template of the scenario and the workspace
    [/home/u/projects/app1] the command is the expected one. *)
Theorem launched_command (data prefs : gmap string string) (w : world)
    (path action template : string) :
  data !! "path" = Some path ->
  data !! "action" = Some action ->
  prefs !! "docker_command" = Some template ->
  (action = "create" ->
   exists w1, PathIO.mkdir (workspace_of w action path) w = (Ok tt, w1)) ->
  (exists w' evs segs,
     item_enter_on_event data prefs w = (Ok HideWindowAction, w')
     /\ trace w' = trace w ++ evs
          ++ [Popen (terminal_argv
                       (Str.join (PathLib.to_str (workspace_of w action path)) segs))]
     /\ Forall (fun e => is_Popen e = false) evs
     /\ template = Str.join WORKSPACE_BASE segs
     /\ Forall (fun a => Str.contains WORKSPACE_BASE a = false) segs)
  /\ trace (snd (item_enter_on_event
                   {[ "action" := "use"; "path" := "/home/u/projects/app1" ]}
                   sample_prefs sample_world))
     = [Popen (terminal_argv "docker run -v /home/u/projects/app1:/ws image")].
Proof.
  intros Hp Ha Ht Hmk. split; [|vm_compute; reflexivity].
  destruct (segments_exist "$"%char "WORKSPACE_BASE" template)
    as (segs & Hne & Hseg & Hfree).
  assert (Hrep : forall new, Str.replace template WORKSPACE_BASE new = Str.join new segs).
  { intros new. rewrite Hseg. apply (replace_join "$"%char "WORKSPACE_BASE" new eq_refl);
      assumption. }
  unfold workspace_of in *.
  destruct (String.eqb_spec action "create") as [->|Hne'].
  - destruct (Hmk eq_refl) as (w1 & Hw1).
    rewrite (item_enter_create data prefs w path Hp Ha), Hw1.
    destruct (launch_run prefs (PathLib.joinpath (home w) (PathLib.of_str path)) w1
                template Ht) as (w' & Hl & Htr & _).
    destruct (only_mkdir_parents _ _ _ _ _ Hw1) as ((evs & He & Hev) & _).
    exists w', evs, segs. rewrite Htr, He, Hrep, <- app_assoc. auto.
  - assert (Hc : String.eqb action "create" = false)
      by (apply String.eqb_neq; exact Hne').
    rewrite (item_enter_use data prefs w path action Hp Ha Hc).
    destruct (launch_run prefs (PathLib.of_str path) w template Ht) as (w' & Hl & Htr & _).
    exists w', [], segs. rewrite Htr, Hrep. cbn [app]. auto.
Qed.

(** C7. The create action joins the payload path to the home directory
    and runs [mkdir(parents=True, exist_ok=True)] on it.  When the first
    component that is missing lies in a directory that can be written to,
    that component and every one after it is made, each inside the one
    before, and the launch follows; when that directory cannot be written
    to, nothing is made, [PermissionError] is logged and there is no launch.
    In general, when [mkdir] returns, the workspace and each of its
    ancestors is a directory and the handler goes on to the launch; when it
    raises, the handler logs the error and returns without starting a
    terminal.  A workspace that is a directory already is a success that
    leaves the tree as it is. *)
Theorem create_action (data prefs : gmap string string) (w : world) (path : string) :
  is_Dir (fs w) = true ->
  wf_home (home w) = true ->
  data !! "path" = Some path ->
  data !! "action" = Some "create" ->
  let ws := PathLib.joinpath (home w) (PathLib.of_str path) in
  (exists res w1,
     PathIO.mkdir ws w = (res, w1) /\ only_mkdir w w1 /\
     match res with
     | Ok _ =>
         OS.isdir (PathLib.to_str ws) w1 = true
         /\ (forall k,
              OS.isdir (PathLib.to_str (mkPath (root ws) (firstn k (parts ws)))) w1
              = true)
         /\ item_enter_on_event data prefs w = launch prefs ws w1
     | Raise e =>
         item_enter_on_event data prefs w
         = (Ok HideWindowAction, add_log (LogError "Failed to create directory" e) w1)
     end)
  /\ (OS.isdir (PathLib.to_str ws) w = true ->
      exists w1, PathIO.mkdir ws w = (Ok tt, w1) /\ fs w1 = fs w)
  /\ (forall pre d ds se wr es,
        parts ws = pre ++ d :: ds ->
        forallb valid_name (parts ws) = true ->
        OS.node_at (fs w) pre = Some (Dir se wr es) ->
        OS.assoc d es = None ->
        OS.isdir (PathLib.to_str ws) w = false
        /\ exists w1,
             PathIO.mkdir ws w = (if wr then Ok tt else Raise PermissionError, w1)
             /\ if wr then
                  fs w1 = OS.graft (fs w) pre (Dir se wr (es ++ [(d, chain ds)]))
                  /\ (forall k,
                       OS.isdir (PathLib.to_str
                                   (mkPath (root ws) (firstn k (parts ws)))) w1
                       = true)
                  /\ item_enter_on_event data prefs w = launch prefs ws w1
                else
                  fs w1 = fs w
                  /\ item_enter_on_event data prefs w
                     = (Ok HideWindowAction,
                        add_log (LogError "Failed to create directory" PermissionError)
                          w1)).
Proof.
  intros Ht Hh Hp Ha ws.
  assert (Hclean : abs_clean ws = true) by (apply workspace_abs_clean, Hh).
  assert (Hgen : forall res w1,
            PathIO.mkdir ws w = (res, w1) ->
            only_mkdir w w1 /\
            match res with
            | Ok _ =>
                OS.isdir (PathLib.to_str ws) w1 = true
                /\ (forall k,
                     OS.isdir (PathLib.to_str (mkPath (root ws) (firstn k (parts ws)))) w1
                     = true)
                /\ item_enter_on_event data prefs w = launch prefs ws w1
            | Raise e =>
                item_enter_on_event data prefs w
                = (Ok HideWindowAction,
                   add_log (LogError "Failed to create directory" e) w1)
            end).
  { intros res w1 E.
    pose proof (only_mkdir_parents _ _ _ _ _ E) as Honly. split; [exact Honly|].
    rewrite (item_enter_create data prefs w path Hp Ha). fold ws. rewrite E.
    destruct res as [[]|e]; [|reflexivity].
    assert (Hd : OS.isdir (PathLib.to_str ws) w1 = true)
      by (eapply mkdir_parents_isdir; eassumption).
    split; [exact Hd|]. split; [|reflexivity].
    intros k. apply isdir_ancestors; [|exact Hclean|exact Hd].
    apply Honly, Ht. }
  split; [|split; [apply mkdir_existing; assumption|]].
  - destruct (PathIO.mkdir ws w) as [res w1] eqn:E.
    exists res, w1. split; [reflexivity|]. apply Hgen. reflexivity.
  - intros pre d ds se wr es Hparts Hv Hat Hn.
    assert (Hr : (String.eqb (root ws) "/" || String.eqb (root ws) "//") = true).
    { unfold abs_clean in Hclean. apply andb_true_iff in Hclean as [H _]. exact H. }
    assert (Hws : ws = mkPath (root ws) (pre ++ d :: ds))
      by (rewrite <- Hparts; destruct ws; reflexivity).
    rewrite Hparts in Hv.
    split.
    { rewrite Hws. eapply isdir_missing; eassumption. }
    destruct (mkdir_parents_missing (root ws) pre se wr es d ds w Hr Ht Hv Hat Hn)
      as (w1 & Hrun & Hfs).
    assert (Hmk : PathIO.mkdir ws w = (if wr then Ok tt else Raise PermissionError, w1)).
    { unfold PathIO.mkdir. rewrite Hparts. exact Hrun. }
    exists w1. split; [exact Hmk|].
    destruct (Hgen _ _ Hmk) as (_ & Hres). destruct wr.
    + destruct Hres as (_ & Hk & Hlaunch). split; [exact Hfs|]. split; assumption.
    + split; assumption.
Qed.

(** C10. An absolute payload path replaces the home directory in the join.
    The create action then makes the directory at that path and hands the
    same path to the launch, wherever it lies: at the sample snapshot the
    payload [/tmp/x] creates [/tmp/x], outside [/home/u], and the command
    mounts it. *)
Theorem absolute_path_escapes_home (data prefs : gmap string string) (w : world)
    (path : string) :
  Str.startswith path "/" = true ->
  is_Dir (fs w) = true ->
  data !! "path" = Some path ->
  data !! "action" = Some "create" ->
  (forall h, PathLib.joinpath h (PathLib.of_str path) = PathLib.of_str path)
  /\ (exists res w1,
        PathIO.mkdir (PathLib.of_str path) w = (res, w1) /\
        match res with
        | Ok _ =>
            OS.isdir (PathLib.to_str (PathLib.of_str path)) w1 = true
            /\ item_enter_on_event data prefs w
               = launch prefs (PathLib.of_str path) w1
        | Raise e =>
            item_enter_on_event data prefs w
            = (Ok HideWindowAction,
               add_log (LogError "Failed to create directory" e) w1)
        end)
  /\ (let w' := snd (item_enter_on_event
                       {[ "action" := "create"; "path" := "/tmp/x" ]}
                       sample_prefs sample_world) in
      OS.node_at (fs sample_world) ["tmp"; "x"] = None
      /\ OS.node_at (fs w') ["tmp"; "x"] = Some (Dir None true [])
      /\ trace w' = [Mkdir "/tmp/x";
                     Popen (terminal_argv "docker run -v /tmp/x:/ws image")]).
Proof.
  intros Habs Ht Hp Ha.
  split; [intros h; apply joinpath_absolute, Habs|].
  split; [|vm_compute; auto].
  pose proof (item_enter_create data prefs w path Hp Ha) as Hrun.
  rewrite (joinpath_absolute (home w) path Habs) in Hrun.
  destruct (PathIO.mkdir (PathLib.of_str path) w) as [res w1] eqn:E.
  exists res, w1. split; [reflexivity|].
  destruct res as [[]|e]; [|exact Hrun]. split; [|exact Hrun].
  eapply mkdir_parents_isdir; [exact Ht|apply of_str_abs_clean, Habs|exact E].
Qed.

End ExecutorClaims.

Lemma launched_command_witness :
  exists w' evs segs,
    item_enter_on_event (create_payload "newproj") sample_prefs sample_world
    = (Ok HideWindowAction, w')
    /\ trace w' = trace sample_world ++ evs
         ++ [Popen (terminal_argv
                      (Str.join (PathLib.to_str
                                   (workspace_of sample_world "create" "newproj")) segs))]
    /\ Forall (fun e => is_Popen e = false) evs
    /\ "docker run -v $WORKSPACE_BASE:/ws image" = Str.join WORKSPACE_BASE segs
    /\ Forall (fun a => Str.contains WORKSPACE_BASE a = false) segs.
Proof.
  refine (proj1 (launched_command (create_payload "newproj")
                   sample_prefs sample_world "newproj" "create"
                   "docker run -v $WORKSPACE_BASE:/ws image" _ _ _ _)).
  - vm_compute; reflexivity.
  - vm_compute; reflexivity.
  - vm_compute; reflexivity.
  - intros _. eexists. vm_compute. reflexivity.
Defined.

Lemma create_action_witness :
  is_Dir (fs sample_world) = true
  /\ wf_home (home sample_world) = true
  /\ OS.node_at (fs sample_world) ["home"; "u"] = Some (Dir None true sample_home_entries)
  /\ OS.assoc "new" sample_home_entries = None
  /\ OS.isdir "/home/u/new/proj" sample_world = false
  /\ exists w1,
       PathIO.mkdir (mkPath "/" ["home"; "u"; "new"; "proj"]) sample_world = (Ok tt, w1)
       /\ fs w1 = OS.graft sample_fs ["home"; "u"]
                    (Dir None true
                       (sample_home_entries
                        ++ [("new", Dir None true [("proj", Dir None true [])])]))
       /\ OS.isdir "/home/u/new" w1 = true
       /\ OS.isdir "/home/u/new/proj" w1 = true
       /\ item_enter_on_event (create_payload "new/proj") sample_prefs sample_world
          = launch sample_prefs (mkPath "/" ["home"; "u"; "new"; "proj"]) w1.
Proof.
  split; [reflexivity|]. split; [reflexivity|]. split; [reflexivity|].
  split; [reflexivity|].
  destruct (create_action (create_payload "new/proj") sample_prefs sample_world
              "new/proj" eq_refl eq_refl) as (_ & _ & H).
  - vm_compute; reflexivity.
  - vm_compute; reflexivity.
  - destruct (H ["home"; "u"] "new" ["proj"] None true sample_home_entries
                eq_refl eq_refl eq_refl eq_refl)
      as (Hno & w1 & Hmk & Hfs & Hk & Hrun).
    split; [exact Hno|]. exists w1. split; [exact Hmk|]. split; [exact Hfs|].
    split; [exact (Hk 3)|]. split; [exact (Hk 4)|]. exact Hrun.
Defined.

Lemma absolute_path_escapes_home_witness :
  Str.startswith "/tmp/x" "/" = true
  /\ is_Dir (fs sample_world) = true
  /\ forall h, PathLib.joinpath h (PathLib.of_str "/tmp/x") = PathLib.of_str "/tmp/x".
Proof.
  split; [reflexivity|]. split; [reflexivity|].
  refine (proj1 (absolute_path_escapes_home (create_payload "/tmp/x")
                   sample_prefs sample_world "/tmp/x" eq_refl eq_refl _ _)).
  - vm_compute; reflexivity.
  - vm_compute; reflexivity.
Defined.

(** * Examples *)

(** The search for ["app"] at the sample snapshot: five matches, found in
    [/home/u], [projects] and [work]; [.hidden/app3] is not among them, and
    [locked_app] is returned although it cannot be listed. *)
Example search_app :
  matches_of (find_matching_dirs Str.lower_ascii "app" sample_world)
  = [mkPath "/" ["home"; "u"; "locked_app"];
     mkPath "/" ["home"; "u"; "projects"; "app1"];
     mkPath "/" ["home"; "u"; "projects"; "app2"];
     mkPath "/" ["home"; "u"; "work"; "App4"];
     mkPath "/" ["home"; "u"; "work"; "app_link"]].
Proof. vm_compute. reflexivity. Qed.

(** The search for ["locked"] lists every directory that is not hidden; the
    failed listing of [locked_app] leaves no log record. *)
Example search_locked :
  matches_of sample_locked = [mkPath "/" ["home"; "u"; "locked_app"]]
  /\ log (world_of sample_locked) = []
  /\ trace (world_of sample_locked)
     = [Scandir "/home/u"; Append (mkPath "/" ["home"; "u"; "locked_app"]);
        Scandir "/home/u/projects"; Scandir "/home/u/projects/app1";
        Scandir "/home/u/projects/app2"; Scandir "/home/u/work";
        Scandir "/home/u/work/App4"; Scandir "/home/u/locked_app"].
Proof. vm_compute. auto. Qed.

(** An exception that is not an [OSError] ends the walk: it is logged, the
    matches found so far are returned, and [z_app] is never listed. *)
Example search_faulty :
  let o := find_matching_dirs Str.lower_ascii "app" faulty_world in
  matches_of o = [mkPath "/" ["home"; "u"; "a_app"]; mkPath "/" ["home"; "u"; "z_app"]]
  /\ log (world_of o) = [LogError "Error searching directories" (OtherException "boom")]
  /\ trace (world_of o)
     = [Scandir "/home/u"; Append (mkPath "/" ["home"; "u"; "a_app"]);
        Append (mkPath "/" ["home"; "u"; "z_app"]);
        Scandir "/home/u/a_app"; Scandir "/home/u/broken"].
Proof. vm_compute. auto. Qed.

(** Creating [newproj/a] makes both directories under [/home/u] and then
    starts the terminal on [/home/u/newproj/a]. *)
Example create_nested :
  let w' := snd (item_enter_on_event (create_payload "newproj/a")
                   sample_prefs sample_world) in
  OS.isdir "/home/u/newproj" w' = true
  /\ OS.isdir "/home/u/newproj/a" w' = true
  /\ trace w'
     = [Mkdir "/home/u/newproj/a"; Mkdir "/home/u/newproj"; Mkdir "/home/u/newproj/a";
        Popen (terminal_argv "docker run -v /home/u/newproj/a:/ws image")].
Proof. vm_compute. auto. Qed.

(** Creating a directory below a file fails: the error is logged and no
    terminal is started. *)
Example create_below_file :
  item_enter_on_event (create_payload "projects/notes.txt/x") sample_prefs sample_world
  = (Ok HideWindowAction,
     mkWorld sample_fs [] (mkPath "/" ["home"; "u"]) None
       [LogError "Failed to create directory" NotADirectoryError]
       [Mkdir "/home/u/projects/notes.txt/x"]).
Proof. vm_compute. reflexivity. Qed.

(** * Further properties of the listeners *)

Module EnterMore.
Import StrFacts MkdirFacts EnterFacts ReplaceFacts.

Lemma launch_eq prefs ws w template :
  prefs !! "docker_command" = Some template ->
  launch prefs ws w
  = (Ok HideWindowAction, launched (terminal_argv (command_for template ws)) w).
Proof.
  intros H.
  unfold launch, launched, bind, dict_get, try_except, subprocess_Popen, ret, logger_error.
  rewrite H. destruct (popen_error w); reflexivity.
Qed.

Lemma launch_missing prefs ws w :
  prefs !! "docker_command" = None ->
  launch prefs ws w = (Raise (KeyError "docker_command"), w).
Proof.
  intros H. unfold launch, bind, dict_get, raise. rewrite H. reflexivity.
Qed.

Lemma launched_env argv w :
  fs (launched argv w) = fs w /\ home (launched argv w) = home w
  /\ cwd (launched argv w) = cwd w /\ popen_error (launched argv w) = popen_error w
  /\ trace (launched argv w) = trace w ++ [Popen argv].
Proof.
  unfold launched. destruct (popen_error w) eqn:E; cbn; rewrite ?E; repeat split.
Qed.

(** With both payload keys present the handler reaches the launch as soon
    as the workspace is there. *)
Lemma item_enter_launch data prefs w path action :
  data !! "path" = Some path -> data !! "action" = Some action ->
  (action = "create" ->
   exists w1, PathIO.mkdir (workspace_of w action path) w = (Ok tt, w1)) ->
  exists w1,
    only_mkdir w w1
    /\ (action <> "create" -> w1 = w)
    /\ (action = "create" -> PathIO.mkdir (workspace_of w action path) w = (Ok tt, w1))
    /\ item_enter_on_event data prefs w = launch prefs (workspace_of w action path) w1.
Proof.
  intros Hp Ha Hmk. unfold workspace_of in *.
  destruct (String.eqb_spec action "create") as [->|Hne].
  - destruct (Hmk eq_refl) as (w1 & Hw1). exists w1.
    split; [eapply only_mkdir_parents, Hw1|]. split; [congruence|].
    split; [intros _; exact Hw1|].
    rewrite (item_enter_create data prefs w path Hp Ha), Hw1. reflexivity.
  - exists w. split; [apply only_mkdir_refl|]. split; [reflexivity|].
    split; [congruence|].
    apply (item_enter_use data prefs w path action Hp Ha). apply String.eqb_neq, Hne.
Qed.

End EnterMore.

Section ListenerProperties.
Import StrFacts MkdirFacts EnterFacts ReplaceFacts EnterMore.

(** X1. Without an argument, or with the empty one, the keyword listener
    shows the single prompt item, whose selection only hides the window, and
    leaves the world as it is: the home directory is not searched. *)
Theorem empty_query_prompt (lower : string -> string) (argument : option string)
    (w : world) :
  argument = None \/ argument = Some "" ->
  exists it,
    keyword_query_on_event lower argument w = Some (Ok (RenderResultList [it]), w)
    /\ item_name it = "Enter directory path"
    /\ on_enter it = HideWindowAction
    /\ payload it = None.
Proof.
  intros [->| ->]; eexists; repeat split.
Qed.

(** X2. A payload without the key ["path"], or with it but without the key
    ["action"], makes the handler raise [KeyError] for the first missing
    key, before anything is done. *)
Theorem missing_payload_key (data prefs : gmap string string) (w : world) :
  data !! "path" = None \/ data !! "action" = None ->
  exists k,
    item_enter_on_event data prefs w = (Raise (KeyError k), w)
    /\ k = (match data !! "path" with None => "path" | Some _ => "action" end).
Proof.
  intros H. unfold item_enter_on_event, bind, dict_get, raise, ret.
  destruct (data !! "path") as [path|] eqn:Ep.
  - destruct H as [H|H]; [discriminate|]. rewrite H. eexists. split; reflexivity.
  - eexists. split; reflexivity.
Qed.

(** X3. When the preferences lack ["docker_command"], the create action
    still makes the directory: the [KeyError] is raised after [mkdir], with
    the workspace in place and no terminal started.  Any other action raises
    it at once. *)
Theorem missing_command_preference (data prefs : gmap string string) (w : world)
    (path action : string) :
  is_Dir (fs w) = true ->
  wf_home (home w) = true ->
  data !! "path" = Some path ->
  data !! "action" = Some action ->
  prefs !! "docker_command" = None ->
  (action = "create" ->
   exists w1, PathIO.mkdir (workspace_of w action path) w = (Ok tt, w1)) ->
  exists w1,
    item_enter_on_event data prefs w = (Raise (KeyError "docker_command"), w1)
    /\ only_mkdir w w1
    /\ (action <> "create" -> w1 = w)
    /\ (action = "create" ->
        OS.isdir (PathLib.to_str (workspace_of w action path)) w1 = true).
Proof.
  intros Ht Hh Hp Ha Hk Hmk.
  destruct (item_enter_launch data prefs w path action Hp Ha Hmk)
    as (w1 & Honly & Huse & Hcr & Hrun).
  exists w1. rewrite Hrun, (launch_missing _ _ _ Hk).
  split; [reflexivity|]. split; [exact Honly|]. split; [exact Huse|].
  intros Hc. specialize (Hcr Hc). subst action.
  eapply mkdir_parents_isdir; [exact Ht| |exact Hcr].
  apply workspace_abs_clean, Hh.
Qed.

(** X4. With both payload keys and the command preference present the
    handler never raises: it returns [HideWindowAction] whether [mkdir] or
    [Popen] fail or not, and it writes at most one log record, for the
    creation that failed or for the launch that failed. *)
Theorem item_enter_contains_errors (data prefs : gmap string string) (w : world)
    (path action template : string) :
  data !! "path" = Some path ->
  data !! "action" = Some action ->
  prefs !! "docker_command" = Some template ->
  exists w',
    item_enter_on_event data prefs w = (Ok HideWindowAction, w')
    /\ (log w' = log w
        \/ (exists e, log w' = log w ++ [LogError "Failed to create directory" e]
                      /\ action = "create")
        \/ (exists e, log w' = log w ++ [LogError "Failed to execute command" e]
                      /\ popen_error w = Some e)).
Proof.
  intros Hp Ha Hk.
  assert (Hlaunch : forall ws w1, only_mkdir w w1 ->
            exists w', launch prefs ws w1 = (Ok HideWindowAction, w')
              /\ (log w' = log w
                  \/ exists e, log w' = log w ++ [LogError "Failed to execute command" e]
                               /\ popen_error w = Some e)).
  { intros ws w1 (_ & Hl & _ & _ & Hpe & _). rewrite (launch_eq _ _ _ _ Hk).
    eexists. split; [reflexivity|]. unfold launched. rewrite Hpe.
    destruct (popen_error w) as [e|]; cbn [log add_log add_event]; rewrite Hl.
    - right. exists e. auto.
    - left. reflexivity. }
  destruct (String.eqb_spec action "create") as [->|Hne].
  - rewrite (item_enter_create data prefs w path Hp Ha).
    destruct (PathIO.mkdir _ w) as [[[]|e] w1] eqn:E;
      pose proof (only_mkdir_parents _ _ _ _ _ E) as Honly.
    + destruct (Hlaunch (PathLib.joinpath (home w) (PathLib.of_str path)) w1 Honly)
        as (w' & -> & [Hl|Hl]); exists w'; split; auto.
    + eexists. split; [reflexivity|]. right. left. exists e.
      destruct Honly as (_ & Hl & _). cbn [log add_log]. rewrite Hl. auto.
  - rewrite (item_enter_use data prefs w path action Hp Ha)
      by (apply String.eqb_neq, Hne).
    destruct (Hlaunch (PathLib.of_str path) w (only_mkdir_refl w))
      as (w' & -> & [Hl|Hl]); exists w'; split; auto.
Qed.

(** X5. Only the action ["create"] touches the file system.  For any other
    action the payload path is the workspace as it is: no directory is
    made, the tree is unchanged, and the one call is the launch. *)
Theorem other_actions_use_path (data prefs : gmap string string) (w : world)
    (path action template : string) :
  data !! "path" = Some path ->
  data !! "action" = Some action ->
  prefs !! "docker_command" = Some template ->
  action <> "create" ->
  exists w',
    item_enter_on_event data prefs w = (Ok HideWindowAction, w')
    /\ fs w' = fs w
    /\ trace w' = trace w
         ++ [Popen (terminal_argv (command_for template (PathLib.of_str path)))].
Proof.
  intros Hp Ha Hk Hne.
  rewrite (item_enter_use data prefs w path action Hp Ha) by (apply String.eqb_neq, Hne).
  rewrite (launch_eq _ _ _ _ Hk). eexists. split; [reflexivity|].
  destruct (launched_env (terminal_argv (command_for template (PathLib.of_str path))) w)
    as (H1 & _ & _ & _ & H5). auto.
Qed.

(** X6. A template in which the placeholder does not occur is launched as
    it stands, whatever the workspace. *)
Theorem template_without_placeholder (data prefs : gmap string string) (w : world)
    (path action template : string) :
  data !! "path" = Some path ->
  data !! "action" = Some action ->
  prefs !! "docker_command" = Some template ->
  Str.contains WORKSPACE_BASE template = false ->
  (action = "create" ->
   exists w1, PathIO.mkdir (workspace_of w action path) w = (Ok tt, w1)) ->
  exists w' evs,
    item_enter_on_event data prefs w = (Ok HideWindowAction, w')
    /\ trace w' = trace w ++ evs ++ [Popen (terminal_argv template)]
    /\ Forall (fun e => is_Popen e = false) evs.
Proof.
  intros Hp Ha Hk Hfree Hmk.
  destruct (item_enter_launch data prefs w path action Hp Ha Hmk)
    as (w1 & ((evs & Htr & Hev) & _) & _ & _ & Hrun).
  rewrite Hrun, (launch_eq _ _ _ _ Hk). eexists _, evs. split; [reflexivity|].
  split; [|exact Hev].
  destruct (launched_env (terminal_argv (command_for template (workspace_of w action path)))
              w1) as (_ & _ & _ & _ & ->).
  rewrite Htr, <- app_assoc. unfold command_for, Str.replace, WORKSPACE_BASE.
  rewrite (replace_from_free "$"%char "WORKSPACE_BASE" _ template Hfree). reflexivity.
Qed.

End ListenerProperties.

(** * Further properties of the directory search *)

Module SearchMore.
Import StrFacts PathFacts OSFacts TreeFacts WalkFacts ItemFacts RunFacts HomeFacts.

Lemma visited_app a b : visited (a ++ b) = visited a ++ visited b.
Proof.
  induction a as [|[x|x|e] a IH]; cbn [app visited]; rewrite ?IH; reflexivity.
Qed.

Lemma visited_map (f : string * node -> Path) l :
  visited (map (fun e => Found (f e)) l) = [].
Proof. induction l as [|x l IH]; [reflexivity|exact IH]. Qed.

Lemma in_visited items p : In p (visited items) <-> In (Visit p) items.
Proof.
  induction items as [|[x|x|e] items IH]; cbn [visited In].
  - tauto.
  - rewrite IH. split; (intros [E|H]; [left; congruence|right; exact H]).
  - rewrite IH. split; [auto|intros [E|H]; [discriminate|exact H]].
  - rewrite IH. split; [auto|intros [E|H]; [discriminate|exact H]].
Qed.

Lemma scanned_events_of items :
  scanned (events_of items) = map PathLib.to_str (visited items).
Proof.
  induction items as [|[x|x|e] items IH]; cbn [events_of scanned visited map];
    rewrite ?IH; reflexivity.
Qed.

Lemma appended_events_of items : appended (events_of items) = all_found items.
Proof.
  induction items as [|[x|x|e] items IH]; cbn [events_of appended all_found];
    rewrite ?IH; reflexivity.
Qed.

Lemma search_events_of items :
  Forall (fun e => is_search_event e = true) (events_of items).
Proof.
  induction items as [|[x|x|e] items IH]; cbn [events_of]; auto.
Qed.

Lemma found_of_map_app (f : string * node -> Path) l rest :
  found_of (map (fun e => Found (f e)) l ++ rest) = map f l ++ found_of rest.
Proof.
  induction l as [|x l IH]; [reflexivity|]. cbn [map app found_of]. rewrite IH.
  reflexivity.
Qed.

Lemma NoDup_map_in {A B} (f : A -> B) (l : list A) :
  (forall x y, In x l -> In y l -> f x = f y -> x = y) ->
  List.NoDup l -> List.NoDup (map f l).
Proof.
  intros Hinj Hnd. induction Hnd as [|x l Hx Hl IH]; cbn [map]; constructor.
  - intros Hin. apply in_map_iff in Hin as (y & E & Hy). apply Hx.
    rewrite (Hinj x y); [exact Hy|left; reflexivity|right; exact Hy|congruence].
  - apply IH. intros a b Ha Hb. apply Hinj; right; assumption.
Qed.

Lemma node_at_valid : forall ps t n,
  wf_node t = true -> OS.node_at t ps = Some n -> forallb valid_name ps = true.
Proof.
  induction ps as [|d ps IH]; intros t n Hwf H; [reflexivity|].
  cbn [OS.node_at] in H. destruct t as [| |se wr es]; try discriminate.
  destruct (OS.assoc d es) as [c|] eqn:E; [|discriminate].
  apply assoc_Some in E. destruct (wf_Dir _ _ _ Hwf) as (Hv & _ & Hch).
  cbn [forallb]. rewrite (valid_in es d c Hv E). cbn [andb].
  eapply IH; [eapply Hch, E|exact H].
Qed.

(** A listed directory is the start of the walk or a directory of the tree
    below it. *)
Lemma tree_items_Visit_at sel : forall n p0 p,
  wf_node n = true -> In (Visit p) (tree_items sel p0 n) ->
  p = p0 \/
  exists names se wr es,
    names <> [] /\ p = mkPath (root p0) (parts p0 ++ names)
    /\ OS.node_at n names = Some (Dir se wr es).
Proof.
  induction n as [| |se wr es IH] using node_induction; intros p0 p Hwf Hin.
  - destruct Hin as [[= <-]|[]]. left. reflexivity.
  - destruct Hin as [[= <-]|[]]. left. reflexivity.
  - destruct (wf_Dir _ _ _ Hwf) as (Hval & Hnd & Hch).
    cbn [tree_items] in Hin. destruct Hin as [[= <-]|Hin]; [left; reflexivity|].
    right. destruct se as [e|].
    { destruct (is_OSError e); [destruct Hin|destruct Hin as [E|[]]; discriminate]. }
    apply in_app_iff in Hin as [Hin|Hin].
    { apply in_map_iff in Hin as (x & E & _). discriminate. }
    apply in_flat_map in Hin as ([d c] & He & Hin).
    destruct (is_Dir c && negb (hidden d)) eqn:Ek; [|destruct Hin].
    apply andb_true_iff in Ek as [Ek1 _].
    pose proof (assoc_in es d c Hnd He) as Hassoc.
    destruct (IH d c He (child p0 d) p (Hch d c He) Hin)
      as [->|(names & se' & wr' & es' & Hne & -> & Hat)].
    + destruct c as [| |se' wr' es']; try discriminate.
      exists [d], se', wr', es'. split; [discriminate|]. split; [reflexivity|].
      cbn [OS.node_at]. rewrite Hassoc. reflexivity.
    + exists (d :: names), se', wr', es'. split; [discriminate|]. split.
      * unfold child. cbn [root parts]. rewrite <- app_assoc. reflexivity.
      * cbn [OS.node_at]. rewrite Hassoc. exact Hat.
Qed.

Lemma tree_items_visited_NoDup sel : forall n p0,
  wf_node n = true -> List.NoDup (visited (tree_items sel p0 n)).
Proof.
  induction n as [| |se wr es IH] using node_induction; intros p0 Hwf;
    try (cbn; repeat constructor; intros []).
  destruct (wf_Dir _ _ _ Hwf) as (Hval & Hnd & Hch).
  destruct se as [e|].
  { cbn [tree_items visited]. destruct (is_OSError e); cbn; repeat constructor; intros []. }
  cbn [tree_items visited]. rewrite visited_app, visited_map. cbn [app].
  assert (Hsub : forall d c p, In (d, c) es ->
            In p (visited (if is_Dir c && negb (hidden d)
                           then tree_items sel (child p0 d) c else [])) ->
            exists names, p = mkPath (root p0) (parts p0 ++ d :: names)).
  { intros d c p He Hp. destruct (is_Dir c && negb (hidden d)); [|destruct Hp].
    apply in_visited, tree_items_Visit in Hp as (names & -> & _); [|eapply Hch, He].
    exists names. unfold child. cbn [root parts]. rewrite <- app_assoc. reflexivity. }
  constructor.
  - intros Hin. apply in_visited, in_flat_map in Hin as ([d c] & He & Hin).
    apply in_visited in Hin. destruct (Hsub d c p0 He Hin) as (names & E).
    destruct p0 as [r ps]. cbn [root parts] in E. injection E as E.
    apply (f_equal (@length string)) in E. rewrite length_app in E. cbn in E. lia.
  - clear Hval Hwf. apply nodupb_NoDup in Hnd.
    induction es as [|[d c] es IHes]; [constructor|].
    cbn [flat_map]. rewrite visited_app.
    cbn [map fst] in Hnd. apply List.NoDup_cons_iff in Hnd as [Hd Hnd].
    apply List.NoDup_app.
    + destruct (is_Dir c && negb (hidden d)); [|constructor].
      apply (IH d c); [left; reflexivity|]. apply (Hch d c). left. reflexivity.
    + apply IHes; [|exact Hnd| |].
      * intros d' c' Hin. apply (IH d' c'). right. exact Hin.
      * intros d' c' Hin. apply (Hch d' c'). right. exact Hin.
      * intros d' c' p Hin. apply (Hsub d' c' p). right. exact Hin.
    + intros p Hp Hq.
      destruct (Hsub d c p (or_introl eq_refl) Hp) as (n1 & E1).
      apply in_visited, in_flat_map in Hq as ([d' c'] & He & Hq).
      apply in_visited in Hq.
      destruct (Hsub d' c' p (or_intror He) Hq) as (n2 & E2).
      rewrite E1 in E2. injection E2 as E2. apply app_inv_head in E2.
      injection E2 as E2 _. subst d'.
      apply Hd. apply in_map_iff. exists (d, c'). auto.
Qed.

Lemma home_items_visited_NoDup s w :
  wf_world w = true -> List.NoDup (visited (home_items s w)).
Proof.
  intros Hwf. destruct (wf_world_inv w Hwf) as (Hroot & Hn & Hh & Hps).
  unfold home_items.
  destruct (OS.node_at (fs w) (parts (home w))) as [n|] eqn:En.
  - apply tree_items_visited_NoDup. eapply wf_node_at; eassumption.
  - cbn. repeat constructor. intros [].
Qed.

(** Where the walk reports a path, it can be listed up to there. *)
Lemma tree_items_complete sel : forall names n p es d c,
  wf_node n = true -> listing_at n names = Some es ->
  In (d, c) es -> is_dir_node c = true -> hidden d = false -> sel d = true ->
  In (Found (mkPath (root p) (parts p ++ names ++ [d]))) (tree_items sel p n).
Proof.
  induction names as [|d0 rest IH]; intros n p es d c Hwf Hl Hin Hdir Hhid Hsel;
    destruct n as [| |[e|] wr es0]; try discriminate; cbn [listing_at] in Hl.
  - injection Hl as ->. cbn [tree_items app]. right. apply in_app_iff. left.
    apply in_map_iff. exists (d, c). split; [reflexivity|].
    apply filter_In. split; [|exact Hsel]. apply filter_In. split; [exact Hin|].
    cbn [fst snd]. rewrite Hdir, Hhid. reflexivity.
  - destruct (hidden d0) eqn:Eh; [discriminate|].
    destruct (OS.assoc d0 es0) as [c0|] eqn:Ea; [|discriminate].
    destruct (wf_Dir _ _ _ Hwf) as (_ & _ & Hch).
    pose proof (assoc_Some _ _ _ Ea) as Hin0.
    cbn [tree_items]. right. apply in_app_iff. right.
    apply in_flat_map. exists (d0, c0). split; [exact Hin0|].
    assert (Hc0 : is_Dir c0 = true)
      by (destruct c0 as [| |[e0|] wr0 es1], rest; try discriminate; reflexivity).
    rewrite Hc0, Eh. cbn [negb andb].
    specialize (IH c0 (child p d0) es d c (Hch _ _ Hin0) Hl Hin Hdir Hhid Hsel).
    unfold child in IH. cbn [root parts] in IH. rewrite <- app_assoc in IH. exact IH.
Qed.

(** Substrings: [q in s] says that [s] splits around an occurrence of [q]. *)
Lemma contains_cons q a s :
  Str.contains q (String a s) = String.prefix q (String a s) || Str.contains q s.
Proof. reflexivity. Qed.

Lemma contains_prefix q s : String.prefix q s = true -> Str.contains q s = true.
Proof. intros H. destruct s; cbn [Str.contains]; rewrite H; reflexivity. Qed.

Lemma contains_split q : forall s,
  Str.contains q s = true -> exists pre suf, s = pre +:+ q +:+ suf.
Proof.
  induction s as [|a s IH]; intros H.
  - cbn [Str.contains] in H. rewrite orb_false_r in H.
    destruct (ReplaceFacts.prefix_split q "" H) as [rest E]. exists "", rest. exact E.
  - rewrite contains_cons in H. apply orb_true_iff in H as [H|H].
    + destruct (ReplaceFacts.prefix_split q _ H) as [rest E]. exists "", rest. exact E.
    + destruct (IH H) as (pre & suf & ->). exists (String a pre), suf. reflexivity.
Qed.

Lemma contains_mid q suf : forall pre, Str.contains q (pre +:+ q +:+ suf) = true.
Proof.
  induction pre as [|a pre IH].
  - rewrite sapp_nil_l. apply contains_prefix, ReplaceFacts.prefix_app_self.
  - rewrite sapp_cons, contains_cons, IH. apply orb_true_r.
Qed.

Lemma contains_trans a b c :
  Str.contains a b = true -> Str.contains b c = true -> Str.contains a c = true.
Proof.
  intros Hab Hbc.
  destruct (contains_split a b Hab) as (p1 & s1 & ->).
  destruct (contains_split _ c Hbc) as (p2 & s2 & ->).
  replace (p2 +:+ (p1 +:+ a +:+ s1) +:+ s2) with ((p2 +:+ p1) +:+ a +:+ (s1 +:+ s2))
    by (rewrite !sapp_assoc; reflexivity).
  apply contains_mid.
Qed.

(** A weaker test on the names reports every path the stronger one does. *)
Lemma tree_items_Found_mono s1 s2 :
  (forall d, s2 d = true -> s1 d = true) ->
  forall n p0 p,
    In (Found p) (tree_items s2 p0 n) -> In (Found p) (tree_items s1 p0 n).
Proof.
  intros Hs. induction n as [| |se wr es IH] using node_induction; intros p0 p H;
    try exact H.
  destruct se as [e|]; [exact H|]. cbn [tree_items] in *.
  destruct H as [H|H]; [discriminate|]. right.
  apply in_app_iff in H as [H|H]; apply in_app_iff; [left|right].
  - apply in_map_iff in H as (x & E & Hx). apply in_map_iff. exists x.
    split; [exact E|]. apply filter_In in Hx as [Hx1 Hx2].
    apply filter_In. split; [exact Hx1|]. apply Hs, Hx2.
  - apply in_flat_map in H as ([d c] & Hin & H). apply in_flat_map.
    exists (d, c). split; [exact Hin|].
    destruct (is_Dir c && negb (hidden d)); [|exact H].
    apply (IH d c Hin), H.
Qed.


End SearchMore.

Section SearchProperties.
Import StrFacts PathFacts OSFacts TreeFacts WalkFacts ItemFacts RunFacts HomeFacts.
Import SearchMore.

Variable lower : string -> string.

(** When fewer than five paths come back and nothing was logged, the walk
    ran to its end and the result is all it reported. *)
Lemma find_matching_dirs_all (query : string) (w : world) (r : list Path) (w' : world) :
  wf_world w = true ->
  find_matching_dirs lower query w = Some (Ok r, w') ->
  length r < 5 -> log w' = log w ->
  r = all_found (home_items (matches_query lower query) w).
Proof.
  intros Hwf Hrun Hlen Hlog.
  rewrite (find_matching_dirs_run lower query w Hwf) in Hrun.
  pose proof (consume_run (home_items (matches_query lower query) w) [] w
                ltac:(cbn; lia)) as Hc.
  destruct (consume_env (home_items (matches_query lower query) w) [] w)
    as (w1 & Hfw & (_ & _ & _ & _ & Hl1)).
  destruct (consume (home_items (matches_query lower query) w) [] w)
    as [m wa|m wa|e m wa|]; [| | |discriminate].
  - injection Hrun as <- <-. destruct Hc as (-> & _). reflexivity.
  - injection Hrun as <- <-. destruct Hc as (Hc & _). lia.
  - injection Hrun as <- <-. injection Hfw as ->. cbn [log add_log] in Hlog.
    rewrite Hl1 in Hlog. apply (f_equal (@length log_record)) in Hlog.
    rewrite length_app in Hlog. cbn in Hlog. lia.
Qed.

(** X7. When the home directory cannot be listed (it is missing, it is not
    a directory, or its listing raises an [OSError]) the search returns the
    empty list after the one failed [scandir], and logs nothing. *)
Theorem unlistable_home_gives_nothing (query : string) (w : world) :
  wf_world w = true ->
  home_unlistable w = true ->
  find_matching_dirs lower query w
  = Some (Ok [], add_event (Scandir (PathLib.to_str (home w))) w).
Proof.
  intros Hwf Hu. rewrite (find_matching_dirs_run lower query w Hwf).
  unfold home_items, home_unlistable in *.
  destruct (OS.node_at (fs w) (parts (home w))) as [[| |[e|] wr es]|];
    try discriminate; cbn [tree_items consume]; rewrite ?Hu; reflexivity.
Qed.

(** X8. The search misses nothing while it stays below the limit: when
    fewer than five paths come back and nothing was logged, every directory
    entry with a matching name that is not hidden, in any directory the walk
    can reach and list from the home directory, is in the result.  A
    directory that cannot be listed itself is found all the same. *)
Theorem search_complete_below_limit (query : string) (w : world) :
  wf_world w = true ->
  exists r w',
    find_matching_dirs lower query w = Some (Ok r, w')
    /\ (length r < 5 -> log w' = log w ->
        forall n names es d c,
          OS.node_at (fs w) (parts (home w)) = Some n ->
          listing_at n names = Some es ->
          In (d, c) es -> is_dir_node c = true ->
          Str.startswith d "." = false ->
          Str.contains (lower query) (lower d) = true ->
          In (mkPath (root (home w)) (parts (home w) ++ names ++ [d])) r).
Proof.
  intros Hwf.
  destruct (find_matching_dirs_summary lower query w Hwf)
    as (r & w' & _ & _ & Hrun & _).
  exists r, w'. split; [exact Hrun|].
  intros Hlen Hlog n names es d c Hn Hl Hin Hdir Hhid Hsel.
  rewrite (find_matching_dirs_all query w r w' Hwf Hrun Hlen Hlog).
  apply in_all_found. unfold home_items. rewrite Hn.
  destruct (wf_world_inv w Hwf) as (_ & Hwn & _ & _).
  eapply tree_items_complete; try eassumption.
  eapply wf_node_at; eassumption.
Qed.

(** X9. The matching sub-directories of the home directory itself come
    first, in the order of its listing; whatever is found deeper follows
    them. *)
Theorem top_level_matches_first (query : string) (w : world) (wr : bool)
    (es : list (string * node)) :
  wf_world w = true ->
  OS.node_at (fs w) (parts (home w)) = Some (Dir None wr es) ->
  exists r w' deeper,
    find_matching_dirs lower query w = Some (Ok r, w')
    /\ r = firstn 5
             (map (fun e => child (home w) (fst e))
                (List.filter (fun e => Str.contains (lower query) (lower (fst e)))
                   (kept_dirs es))
              ++ deeper).
Proof.
  intros Hwf Hn.
  destruct (find_matching_dirs_summary lower query w Hwf)
    as (r & w' & _ & _ & Hrun & _ & _ & Hfirst & _).
  exists r, w'. eexists. split; [exact Hrun|].
  rewrite Hfirst. unfold home_items. rewrite Hn.
  cbn [tree_items found_of]. rewrite found_of_map_app. reflexivity.
Qed.

(** X10. The search only reads: it leaves the tree and the home directory
    as they are, the calls it makes are [scandir] calls and appends to the
    result, the appended paths are the result, and it writes at most one
    log record. *)
Theorem search_only_reads (query : string) (w : world) :
  wf_world w = true ->
  exists r w' evs,
    find_matching_dirs lower query w = Some (Ok r, w')
    /\ fs w' = fs w /\ home w' = home w
    /\ trace w' = trace w ++ evs
    /\ Forall (fun e => is_search_event e = true) evs
    /\ appended evs = r
    /\ length (log w') <= S (length (log w)).
Proof.
  intros Hwf.
  destruct (find_matching_dirs_summary lower query w Hwf)
    as (r & w' & consumed & rest & Hrun & _ & Hr & _ & Htr & (Hfs & _ & Hh & _) & _ & Hlog).
  exists r, w', (events_of consumed).
  split; [exact Hrun|]. split; [exact Hfs|]. split; [exact Hh|]. split; [exact Htr|].
  split; [apply search_events_of|]. split; [rewrite appended_events_of; auto|].
  destruct Hlog as [->|(e & post & _ & _ & ->)]; [lia|].
  rewrite length_app. cbn. lia.
Qed.

(** X11. No directory is listed twice in one search. *)
Theorem each_directory_listed_once (query : string) (w : world) :
  wf_world w = true ->
  exists r w' evs,
    find_matching_dirs lower query w = Some (Ok r, w')
    /\ trace w' = trace w ++ evs
    /\ List.NoDup (scanned evs).
Proof.
  intros Hwf.
  destruct (find_matching_dirs_summary lower query w Hwf)
    as (r & w' & consumed & rest & Hrun & Hit & _ & _ & Htr & _).
  exists r, w', (events_of consumed). split; [exact Hrun|]. split; [exact Htr|].
  rewrite scanned_events_of.
  pose proof (home_items_visited_NoDup (matches_query lower query) w Hwf) as Hnd.
  rewrite Hit, visited_app in Hnd. apply List.NoDup_app_remove_r in Hnd.
  destruct (wf_world_inv w Hwf) as (_ & _ & Hh & Hps).
  apply NoDup_map_in; [|exact Hnd].
  assert (Hform : forall p, In p (visited consumed) ->
            exists names, p = mkPath "/" (parts (home w) ++ names)
                          /\ forallb valid_name (parts (home w) ++ names) = true).
  { intros p Hp. apply in_visited in Hp.
    assert (Hin : In (Visit p) (home_items (matches_query lower query) w))
      by (rewrite Hit; apply in_app_iff; left; exact Hp).
    destruct (home_items_Visit _ w p Hwf Hin) as (names & -> & Hv & _).
    exists names. rewrite Hh at 1. cbn [root]. split; [reflexivity|].
    rewrite forallb_app, Hps, Hv. reflexivity. }
  intros x y Hx Hy E.
  destruct (Hform x Hx) as (nx & -> & Hvx). destruct (Hform y Hy) as (ny & -> & Hvy).
  f_equal. apply to_str_inj; assumption.
Qed.

(** X12. Only directories proper are listed.  An entry below the home
    directory that is a file or a link to a directory is never handed to
    [scandir], whether it is returned as a match or not. *)
Theorem links_and_files_never_listed (query : string) (w : world) :
  wf_world w = true ->
  exists r w' evs,
    find_matching_dirs lower query w = Some (Ok r, w')
    /\ trace w' = trace w ++ evs
    /\ forall names n,
         names <> [] ->
         OS.node_at (fs w) (parts (home w) ++ names) = Some n ->
         is_Dir n = false ->
         ~ In (PathLib.to_str (mkPath (root (home w)) (parts (home w) ++ names)))
              (scanned evs).
Proof.
  intros Hwf.
  destruct (find_matching_dirs_summary lower query w Hwf)
    as (r & w' & consumed & rest & Hrun & Hit & _ & _ & Htr & _).
  exists r, w', (events_of consumed). split; [exact Hrun|]. split; [exact Htr|].
  intros names n Hne Hat Hnd Hin.
  destruct (wf_world_inv w Hwf) as (_ & Hwn & Hh & Hps).
  rewrite scanned_events_of in Hin. apply in_map_iff in Hin as (p & E & Hp).
  apply in_visited in Hp.
  assert (Hin : In (Visit p) (home_items (matches_query lower query) w))
    by (rewrite Hit; apply in_app_iff; left; exact Hp).
  pose proof (node_at_valid _ _ _ Hwn Hat) as Hvalid.
  unfold home_items in Hin. rewrite node_at_app in Hat.
  destruct (OS.node_at (fs w) (parts (home w))) as [n0|] eqn:En; [|discriminate].
  pose proof (wf_node_at _ _ _ Hwn En) as Hwn0.
  pose proof (tree_items_Visit _ _ _ _ Hwn0 Hin) as (names1 & Hp1 & Hv1 & _).
  assert (Heq : names1 = names).
  { subst p. rewrite Hh in E. cbn [root parts] in E.
    apply to_str_inj in E; [|rewrite forallb_app, Hps, Hv1; reflexivity|exact Hvalid].
    apply app_inv_head in E. exact E. }
  subst names1.
  destruct (tree_items_Visit_at _ _ _ _ Hwn0 Hin)
    as [->|(names2 & se & wr & es & _ & Hp2 & Hat2)].
  - destruct (home w) as [rh ph]. cbn [root parts] in Hp1. injection Hp1 as Hp1.
    apply (f_equal (@length string)) in Hp1. rewrite length_app in Hp1.
    destruct names; [congruence|cbn in Hp1; lia].
  - rewrite Hp1 in Hp2. injection Hp2 as Hp2. apply app_inv_head in Hp2. subst names2.
    rewrite Hat in Hat2. injection Hat2 as ->. discriminate.
Qed.

(** X13. A longer query finds less: when the lowercased first query occurs
    in the lowercased second one, every path found for the second query is
    found for the first, as long as the first search stayed below the limit
    and logged nothing. *)
Theorem longer_query_finds_less (q1 q2 : string) (w : world) :
  wf_world w = true ->
  Str.contains (lower q1) (lower q2) = true ->
  exists r1 w1 r2 w2,
    find_matching_dirs lower q1 w = Some (Ok r1, w1)
    /\ find_matching_dirs lower q2 w = Some (Ok r2, w2)
    /\ (length r1 < 5 -> log w1 = log w -> forall p, In p r2 -> In p r1).
Proof.
  intros Hwf Hq.
  destruct (find_matching_dirs_summary lower q1 w Hwf) as (r1 & w1 & _ & _ & Hrun1 & _).
  destruct (find_matching_dirs_summary lower q2 w Hwf)
    as (r2 & w2 & consumed & rest & Hrun2 & Hit & Hr2 & _).
  exists r1, w1, r2, w2. split; [exact Hrun1|]. split; [exact Hrun2|].
  intros Hlen Hlog p Hp.
  rewrite (find_matching_dirs_all q1 w r1 w1 Hwf Hrun1 Hlen Hlog).
  apply in_all_found. rewrite Hr2 in Hp. apply in_all_found in Hp.
  assert (Hin : In (Found p) (home_items (matches_query lower q2) w))
    by (rewrite Hit; apply in_app_iff; left; exact Hp).
  unfold home_items in *.
  destruct (OS.node_at (fs w) (parts (home w))) as [n|]; [|exact Hin].
  revert Hin. apply tree_items_Found_mono.
  intros d Hd. unfold matches_query, sel in *. eapply contains_trans; eassumption.
Qed.


End SearchProperties.

Section WorkflowProperties.
Import StrFacts PathFacts OSFacts MkdirFacts EnterFacts EnterMore.
Import TreeFacts WalkFacts ItemFacts RunFacts HomeFacts.

Lemma isdir_same_tree s w w' :
  fs w' = fs w -> cwd w' = cwd w -> OS.isdir s w' = OS.isdir s w.
Proof.
  intros Hf Hc. unfold OS.isdir, OS.lookup, OS.namei, OS.start_dir.
  rewrite Hf, Hc. reflexivity.
Qed.

Lemma workspace_of_create w path :
  workspace_of w "create" path = PathLib.joinpath (home w) (PathLib.of_str path).
Proof. reflexivity. Qed.

(** An entry that is there, directory or not, makes [os.mkdir] raise
    [FileExistsError]. *)
Lemma mkdir_present w p n :
  is_Dir (fs w) = true -> abs_clean p = true ->
  OS.lookup w (PathLib.to_str p) = Ok n ->
  OS.mkdir (PathLib.to_str p) w
  = (Raise FileExistsError, add_event (Mkdir (PathLib.to_str p)) w).
Proof.
  intros Ht Hp H. unfold OS.lookup in H. rewrite (namei_abs w p Ht Hp) in H.
  rewrite (mkdir_abs w p Hp). unfold OS.mkdir_at.
  destruct (parts p) as [|x ps] eqn:Eps using rev_ind.
  - cbn [removelast OS.namei_from OS.node_at List.last].
    destruct (fs w); try discriminate. reflexivity.
  - clear IHps. rewrite removelast_last, last_last.
    rewrite namei_from_app in H.
    destruct (OS.namei_from (fs w) [] ps) as [par|e]; [|discriminate].
    cbn [OS.namei_from] in H.
    destruct (OS.namei_step (fs w) par x) as [cp|e] eqn:Es; [|discriminate].
    destruct (namei_step_Ok _ _ _ _ Es) as (se & wr & es & -> & Hc).
    destruct (String.eqb x "" || OS.is_dots x) eqn:Ex; [reflexivity|].
    apply orb_false_iff in Ex as [Ex1 Ex2]. unfold OS.is_dots in Ex2.
    apply orb_false_iff in Ex2 as [Ex2 Ex3].
    destruct Hc as [(Hc & _)|[(_ & Hc & _)|(_ & _ & (m & ->) & _)]].
    + rewrite Ex1, Ex2 in Hc. discriminate.
    + congruence.
    + reflexivity.
Qed.

(** X14. When the workspace of the create action is there already but is
    not a directory, the creation fails with [FileExistsError]: the handler
    logs it and returns after the one [mkdir] call, the tree is unchanged
    and no terminal is started. *)
Theorem create_over_file (data prefs : gmap string string) (w : world) (path : string) :
  is_Dir (fs w) = true ->
  wf_home (home w) = true ->
  data !! "path" = Some path ->
  data !! "action" = Some "create" ->
  OS.lookup w (PathLib.to_str (workspace_of w "create" path)) = Ok File ->
  item_enter_on_event data prefs w
  = (Ok HideWindowAction,
     add_log (LogError "Failed to create directory" FileExistsError)
       (add_event (Mkdir (PathLib.to_str (workspace_of w "create" path))) w)).
Proof.
  intros Ht Hh Hp Ha Hl. rewrite workspace_of_create in *.
  set (ws := PathLib.joinpath (home w) (PathLib.of_str path)) in *.
  assert (Hclean : abs_clean ws = true) by (apply workspace_abs_clean, Hh).
  rewrite (item_enter_create data prefs w path Hp Ha). fold ws.
  assert (Hmk : PathIO.mkdir ws w
                = (Raise FileExistsError, add_event (Mkdir (PathLib.to_str ws)) w)).
  { unfold PathIO.mkdir. rewrite mkdir_parents_unfold.
    replace (mkPath (root ws) (rev (rev (parts ws)))) with ws
      by (rewrite rev_involutive; destruct ws; reflexivity).
    rewrite (mkdir_present w ws File Ht Hclean Hl).
    unfold PathIO.except_OSError, bind, PathIO.is_dir, raise. cbn [is_OSError].
    change (OS.lookup (add_event (Mkdir (PathLib.to_str ws)) w) (PathLib.to_str ws))
      with (OS.lookup w (PathLib.to_str ws)).
    rewrite Hl. reflexivity. }
  rewrite Hmk. reflexivity.
Qed.

(** X15. Creating is idempotent on the tree.  After a create action that
    made its workspace, the same action chosen again finds the directory in
    place: its [mkdir] returns without an error and without a log record,
    the tree stays as the first run left it, and the terminal is started a
    second time with the same command. *)
Theorem create_twice (data prefs : gmap string string) (w : world)
    (path template : string) :
  is_Dir (fs w) = true ->
  wf_home (home w) = true ->
  data !! "path" = Some path ->
  data !! "action" = Some "create" ->
  prefs !! "docker_command" = Some template ->
  (exists w1, PathIO.mkdir (workspace_of w "create" path) w = (Ok tt, w1)) ->
  let ws := workspace_of w "create" path in
  let argv := terminal_argv (command_for template ws) in
  exists w1 w2 evs,
    PathIO.mkdir ws w = (Ok tt, w1)
    /\ item_enter_on_event data prefs w = (Ok HideWindowAction, launched argv w1)
    /\ PathIO.mkdir ws (launched argv w1) = (Ok tt, w2)
    /\ item_enter_on_event data prefs (launched argv w1)
       = (Ok HideWindowAction, launched argv w2)
    /\ fs (launched argv w2) = fs (launched argv w1)
    /\ log w2 = log (launched argv w1)
    /\ trace (launched argv w2) = trace (launched argv w1) ++ evs ++ [Popen argv]
    /\ Forall (fun e => is_Popen e = false) evs
    /\ OS.isdir (PathLib.to_str ws) (launched argv w2) = true.
Proof.
  intros Ht Hh Hp Ha Hk (w1 & Hw1) ws0 argv. subst ws0.
  rewrite workspace_of_create in *.
  set (ws := PathLib.joinpath (home w) (PathLib.of_str path)) in *.
  assert (Hclean : abs_clean ws = true) by (apply workspace_abs_clean, Hh).
  pose proof (only_mkdir_parents _ _ _ _ _ Hw1) as (_ & _ & Hh1 & Hc1 & _ & Hd1).
  pose proof (mkdir_parents_isdir ws w w1 Ht Hclean Hw1) as Hdir1.
  destruct (launched_env argv w1) as (Fa & Ha' & Ca & _).
  assert (Hdira : OS.isdir (PathLib.to_str ws) (launched argv w1) = true)
    by (rewrite (isdir_same_tree _ w1 _ Fa Ca); exact Hdir1).
  assert (Hta : is_Dir (fs (launched argv w1)) = true) by (rewrite Fa; auto).
  destruct (mkdir_existing ws (launched argv w1) Hta Hclean Hdira) as (w2 & Hw2 & F2).
  pose proof (only_mkdir_parents _ _ _ _ _ Hw2) as ((evs & Htr & Hev) & Hl2 & _ & C2 & _).
  destruct (launched_env argv w2) as (Fb & _ & Cb & _ & Tb).
  exists w1, w2, evs.
  split; [exact Hw1|]. split.
  { rewrite (item_enter_create data prefs w path Hp Ha). fold ws. rewrite Hw1.
    apply launch_eq, Hk. }
  split; [exact Hw2|]. split.
  { rewrite (item_enter_create data prefs (launched argv w1) path Hp Ha).
    rewrite Ha', Hh1. fold ws. rewrite Hw2. apply launch_eq, Hk. }
  split; [rewrite Fb; exact F2|]. split; [exact Hl2|].
  split; [rewrite Tb, Htr, <- app_assoc; reflexivity|]. split; [exact Hev|].
  rewrite (isdir_same_tree _ w2 _ Fb Cb), (isdir_same_tree _ (launched argv w1) _ F2 C2).
  exact Hdira.
Qed.

(** X16. The listeners fit together: for every path the search returns,
    the text the keyword listener puts in the payload parses back to that
    path, and choosing the item starts the terminal with the command for
    exactly that directory, without touching the tree. *)
Theorem use_item_mounts_match (lower : string -> string) (query : string) (w : world)
    (prefs : gmap string string) (template : string) :
  wf_world w = true ->
  prefs !! "docker_command" = Some template ->
  exists r w',
    find_matching_dirs lower query w = Some (Ok r, w')
    /\ forall p, In p r ->
         PathLib.of_str (PathLib.to_str p) = p
         /\ item_enter_on_event (use_payload p) prefs w'
            = (Ok HideWindowAction,
               launched (terminal_argv (command_for template p)) w').
Proof.
  intros Hwf Hk.
  destruct (find_matching_dirs_summary lower query w Hwf)
    as (r & w' & consumed & rest & Hrun & Hit & Hr & _).
  exists r, w'. split; [exact Hrun|].
  intros p Hp. rewrite Hr in Hp. apply in_all_found in Hp.
  assert (Hin : In (Found p) (home_items (matches_query lower query) w))
    by (rewrite Hit; apply in_app_iff; left; exact Hp).
  destruct (home_items_Found _ w p Hwf Hin) as (names & d & c & -> & _ & _ & Hv & _).
  destruct (wf_world_inv w Hwf) as (_ & _ & Hh & Hps).
  assert (Hrt : PathLib.of_str
                  (PathLib.to_str (mkPath (root (home w)) (parts (home w) ++ names ++ [d])))
                = mkPath (root (home w)) (parts (home w) ++ names ++ [d])).
  { rewrite Hh. cbn [root parts]. apply of_str_to_str.
    rewrite forallb_app, Hps, Hv. reflexivity. }
  split; [exact Hrt|].
  set (p := mkPath (root (home w)) (parts (home w) ++ names ++ [d])) in *.
  rewrite (item_enter_use (use_payload p) prefs w' (PathLib.to_str p) "use").
  - rewrite Hrt. apply launch_eq, Hk.
  - unfold use_payload. rewrite lookup_insert_ne by discriminate.
    apply lookup_singleton_eq.
  - unfold use_payload. apply lookup_insert_eq.
  - reflexivity.
Qed.

(** X17. A create payload whose path has no components (the empty string,
    [.], [./]) names the home directory itself: when the home directory is
    there, nothing is made, the tree is unchanged and the terminal is started
    on the home directory. *)
Theorem create_names_home (data prefs : gmap string string) (w : world)
    (path template : string) :
  is_Dir (fs w) = true ->
  wf_home (home w) = true ->
  data !! "path" = Some path ->
  data !! "action" = Some "create" ->
  prefs !! "docker_command" = Some template ->
  PathLib.of_str path = mkPath "" [] ->
  OS.isdir (PathLib.to_str (home w)) w = true ->
  exists w' evs,
    item_enter_on_event data prefs w = (Ok HideWindowAction, w')
    /\ fs w' = fs w
    /\ trace w' = trace w ++ evs
         ++ [Popen (terminal_argv (command_for template (home w)))]
    /\ Forall (fun e => is_Popen e = false) evs.
Proof.
  intros Ht Hh Hp Ha Hk Hpath Hdir.
  assert (Hws : PathLib.joinpath (home w) (PathLib.of_str path) = home w).
  { rewrite Hpath. unfold PathLib.joinpath. cbn. rewrite app_nil_r.
    destruct (home w); reflexivity. }
  assert (Hclean : abs_clean (home w) = true)
    by (rewrite <- Hws; apply workspace_abs_clean, Hh).
  destruct (mkdir_existing (home w) w Ht Hclean Hdir) as (w1 & Hw1 & F1).
  pose proof (only_mkdir_parents _ _ _ _ _ Hw1) as ((evs & Htr & Hev) & _).
  set (argv := terminal_argv (command_for template (home w))).
  destruct (launched_env argv w1) as (Fa & _ & _ & _ & Tr).
  exists (launched argv w1), evs. split; [|split; [|split]].
  - rewrite (item_enter_create data prefs w path Hp Ha), Hws, Hw1.
    apply launch_eq, Hk.
  - rewrite Fa. exact F1.
  - rewrite Tr, Htr, <- app_assoc. reflexivity.
  - exact Hev.
Qed.


End WorkflowProperties.

(** * Instances of the further properties *)

Lemma empty_query_prompt_witness :
  (@None string = None \/ @None string = Some "")
  /\ exists it,
       keyword_query_on_event Str.lower_ascii None sample_world
       = Some (Ok (RenderResultList [it]), sample_world)
       /\ item_name it = "Enter directory path"
       /\ on_enter it = HideWindowAction
       /\ payload it = None.
Proof.
  split; [left; reflexivity|].
  apply (empty_query_prompt Str.lower_ascii None sample_world). left. reflexivity.
Defined.

Lemma missing_payload_key_witness :
  (path_only_payload !! "path" = None \/ path_only_payload !! "action" = None)
  /\ item_enter_on_event path_only_payload sample_prefs sample_world
     = (Raise (KeyError "action"), sample_world).
Proof.
  assert (H : path_only_payload !! "path" = None \/ path_only_payload !! "action" = None)
    by (right; vm_compute; reflexivity).
  split; [exact H|].
  destruct (missing_payload_key path_only_payload sample_prefs sample_world H)
    as (k & Hrun & ->).
  exact Hrun.
Defined.

Lemma missing_command_preference_witness :
  is_Dir (fs sample_world) = true
  /\ wf_home (home sample_world) = true
  /\ no_prefs !! "docker_command" = None
  /\ exists w1,
       item_enter_on_event (create_payload "newproj") no_prefs sample_world
       = (Raise (KeyError "docker_command"), w1)
       /\ OS.isdir "/home/u/newproj" w1 = true.
Proof.
  split; [reflexivity|]. split; [reflexivity|]. split; [reflexivity|].
  destruct (missing_command_preference (create_payload "newproj") no_prefs sample_world
              "newproj" "create" eq_refl eq_refl)
    as (w1 & Hrun & _ & _ & Hdir).
  - vm_compute; reflexivity.
  - vm_compute; reflexivity.
  - reflexivity.
  - intros _. eexists. vm_compute. reflexivity.
  - exists w1. split; [exact Hrun|]. exact (Hdir eq_refl).
Defined.

Lemma item_enter_contains_errors_witness :
  exists w',
    item_enter_on_event (create_payload "projects/notes.txt/x") sample_prefs sample_world
    = (Ok HideWindowAction, w')
    /\ (log w' = log sample_world
        \/ (exists e, log w' = log sample_world
                                ++ [LogError "Failed to create directory" e]
                      /\ "create" = "create")
        \/ (exists e, log w' = log sample_world
                                ++ [LogError "Failed to execute command" e]
                      /\ popen_error sample_world = Some e)).
Proof.
  refine (item_enter_contains_errors (create_payload "projects/notes.txt/x")
            sample_prefs sample_world "projects/notes.txt/x" "create"
            "docker run -v $WORKSPACE_BASE:/ws image" _ _ _).
  - vm_compute; reflexivity.
  - vm_compute; reflexivity.
  - vm_compute; reflexivity.
Defined.

Lemma other_actions_use_path_witness :
  "use" <> "create"
  /\ exists w',
       item_enter_on_event (use_payload (mkPath "/" ["home"; "u"; "work"]))
         sample_prefs sample_world
       = (Ok HideWindowAction, w')
       /\ fs w' = fs sample_world
       /\ trace w' = trace sample_world
            ++ [Popen (terminal_argv
                         (command_for "docker run -v $WORKSPACE_BASE:/ws image"
                            (PathLib.of_str "/home/u/work")))].
Proof.
  split; [discriminate|].
  refine (other_actions_use_path (use_payload (mkPath "/" ["home"; "u"; "work"]))
            sample_prefs sample_world "/home/u/work" "use"
            "docker run -v $WORKSPACE_BASE:/ws image" _ _ _ _).
  - vm_compute; reflexivity.
  - vm_compute; reflexivity.
  - vm_compute; reflexivity.
  - discriminate.
Defined.

Lemma template_without_placeholder_witness :
  Str.contains WORKSPACE_BASE "htop" = false
  /\ exists w' evs,
       item_enter_on_event (create_payload "newproj") plain_prefs sample_world
       = (Ok HideWindowAction, w')
       /\ trace w' = trace sample_world ++ evs ++ [Popen (terminal_argv "htop")]
       /\ Forall (fun e => is_Popen e = false) evs.
Proof.
  split; [reflexivity|].
  refine (template_without_placeholder (create_payload "newproj") plain_prefs
            sample_world "newproj" "create" "htop" _ _ _ _ _).
  - vm_compute; reflexivity.
  - vm_compute; reflexivity.
  - vm_compute; reflexivity.
  - reflexivity.
  - intros _. eexists. vm_compute. reflexivity.
Defined.

Lemma unlistable_home_gives_nothing_witness :
  wf_world homeless_world = true
  /\ home_unlistable homeless_world = true
  /\ find_matching_dirs Str.lower_ascii "app" homeless_world
     = Some (Ok [], add_event (Scandir "/home/nobody") homeless_world).
Proof.
  split; [reflexivity|]. split; [reflexivity|].
  exact (unlistable_home_gives_nothing Str.lower_ascii "app" homeless_world
           eq_refl eq_refl).
Defined.

Lemma search_complete_below_limit_witness :
  wf_world sample_world = true
  /\ exists r w',
       find_matching_dirs Str.lower_ascii "APP1" sample_world = Some (Ok r, w')
       /\ length r < 5 /\ log w' = log sample_world
       /\ In (mkPath "/" ["home"; "u"; "projects"; "app1"]) r.
Proof.
  split; [reflexivity|].
  destruct (search_complete_below_limit Str.lower_ascii "APP1" sample_world eq_refl)
    as (r & w' & Hrun & H).
  exists r, w'. split; [exact Hrun|].
  assert (Hr : length r < 5 /\ log w' = log sample_world).
  { vm_compute in Hrun. injection Hrun as <- <-. split; [cbn; lia|reflexivity]. }
  destruct Hr as [Hl Hg]. split; [exact Hl|]. split; [exact Hg|].
  eapply (H Hl Hg _ ["projects"] _ "app1" (Dir None true [])).
  - reflexivity.
  - reflexivity.
  - left. reflexivity.
  - reflexivity.
  - reflexivity.
  - reflexivity.
Defined.

Lemma top_level_matches_first_witness :
  wf_world sample_world = true
  /\ OS.node_at (fs sample_world) (parts (home sample_world))
     = Some (Dir None true sample_home_entries)
  /\ exists r w' deeper,
       find_matching_dirs Str.lower_ascii "o" sample_world = Some (Ok r, w')
       /\ r = firstn 5
                (map (fun e => child (home sample_world) (fst e))
                   (List.filter
                      (fun e => Str.contains (Str.lower_ascii "o")
                                  (Str.lower_ascii (fst e)))
                      (kept_dirs sample_home_entries))
                 ++ deeper).
Proof.
  split; [reflexivity|]. split; [reflexivity|].
  exact (top_level_matches_first Str.lower_ascii "o" sample_world true
           sample_home_entries eq_refl eq_refl).
Defined.

Lemma search_only_reads_witness :
  wf_world faulty_world = true
  /\ exists r w' evs,
       find_matching_dirs Str.lower_ascii "app" faulty_world = Some (Ok r, w')
       /\ fs w' = fs faulty_world /\ home w' = home faulty_world
       /\ trace w' = trace faulty_world ++ evs
       /\ Forall (fun e => is_search_event e = true) evs
       /\ appended evs = r
       /\ length (log w') <= S (length (log faulty_world)).
Proof.
  split; [reflexivity|].
  exact (search_only_reads Str.lower_ascii "app" faulty_world eq_refl).
Defined.

Lemma each_directory_listed_once_witness :
  wf_world sample_world = true
  /\ exists r w' evs,
       find_matching_dirs Str.lower_ascii "app" sample_world = Some (Ok r, w')
       /\ trace w' = trace sample_world ++ evs
       /\ List.NoDup (scanned evs).
Proof.
  split; [reflexivity|].
  exact (each_directory_listed_once Str.lower_ascii "app" sample_world eq_refl).
Defined.

Lemma links_and_files_never_listed_witness :
  wf_world sample_world = true
  /\ exists r w' evs,
       find_matching_dirs Str.lower_ascii "link" sample_world = Some (Ok r, w')
       /\ trace w' = trace sample_world ++ evs
       /\ ~ In "/home/u/work/app_link" (scanned evs).
Proof.
  split; [reflexivity|].
  destruct (links_and_files_never_listed Str.lower_ascii "link" sample_world eq_refl)
    as (r & w' & evs & Hrun & Htr & H).
  exists r, w', evs. split; [exact Hrun|]. split; [exact Htr|].
  apply (H ["work"; "app_link"] DirLink); [discriminate|reflexivity|reflexivity].
Defined.

Lemma longer_query_finds_less_witness :
  wf_world sample_world = true
  /\ Str.contains (Str.lower_ascii "P1") (Str.lower_ascii "App1") = true
  /\ exists r1 w1 r2 w2,
       find_matching_dirs Str.lower_ascii "P1" sample_world = Some (Ok r1, w1)
       /\ find_matching_dirs Str.lower_ascii "App1" sample_world = Some (Ok r2, w2)
       /\ length r1 < 5 /\ log w1 = log sample_world
       /\ forall p, In p r2 -> In p r1.
Proof.
  split; [reflexivity|]. split; [reflexivity|].
  destruct (longer_query_finds_less Str.lower_ascii "P1" "App1" sample_world
              eq_refl eq_refl)
    as (r1 & w1 & r2 & w2 & Hrun1 & Hrun2 & H).
  exists r1, w1, r2, w2. split; [exact Hrun1|]. split; [exact Hrun2|].
  assert (Hr : length r1 < 5 /\ log w1 = log sample_world).
  { vm_compute in Hrun1. injection Hrun1 as <- <-. split; [cbn; lia|reflexivity]. }
  destruct Hr as [Hl Hg]. split; [exact Hl|]. split; [exact Hg|].
  exact (H Hl Hg).
Defined.

Lemma create_over_file_witness :
  is_Dir (fs sample_world) = true
  /\ wf_home (home sample_world) = true
  /\ OS.lookup sample_world "/home/u/projects/notes.txt" = Ok File
  /\ item_enter_on_event (create_payload "projects/notes.txt") sample_prefs sample_world
     = (Ok HideWindowAction,
        add_log (LogError "Failed to create directory" FileExistsError)
          (add_event (Mkdir "/home/u/projects/notes.txt") sample_world)).
Proof.
  split; [reflexivity|]. split; [reflexivity|]. split; [reflexivity|].
  refine (create_over_file (create_payload "projects/notes.txt") sample_prefs
            sample_world "projects/notes.txt" eq_refl eq_refl _ _ _).
  - vm_compute; reflexivity.
  - vm_compute; reflexivity.
  - reflexivity.
Defined.

Lemma create_twice_witness :
  is_Dir (fs sample_world) = true
  /\ wf_home (home sample_world) = true
  /\ OS.isdir "/home/u/new/proj" sample_world = false
  /\ exists w1 w2 evs,
       PathIO.mkdir (mkPath "/" ["home"; "u"; "new"; "proj"]) sample_world = (Ok tt, w1)
       /\ PathIO.mkdir (mkPath "/" ["home"; "u"; "new"; "proj"])
            (launched (terminal_argv "docker run -v /home/u/new/proj:/ws image") w1)
          = (Ok tt, w2)
       /\ item_enter_on_event (create_payload "new/proj") sample_prefs
            (launched (terminal_argv "docker run -v /home/u/new/proj:/ws image") w1)
          = (Ok HideWindowAction,
             launched (terminal_argv "docker run -v /home/u/new/proj:/ws image") w2)
       /\ fs (launched (terminal_argv "docker run -v /home/u/new/proj:/ws image") w2)
          = fs (launched (terminal_argv "docker run -v /home/u/new/proj:/ws image") w1)
       /\ log w2 = []
       /\ trace (launched (terminal_argv "docker run -v /home/u/new/proj:/ws image") w2)
          = trace (launched (terminal_argv "docker run -v /home/u/new/proj:/ws image") w1)
            ++ evs ++ [Popen (terminal_argv "docker run -v /home/u/new/proj:/ws image")]
       /\ Forall (fun e => is_Popen e = false) evs.
Proof.
  split; [reflexivity|]. split; [reflexivity|]. split; [reflexivity|].
  destruct (create_twice (create_payload "new/proj") sample_prefs sample_world
              "new/proj" "docker run -v $WORKSPACE_BASE:/ws image" eq_refl eq_refl)
    as (w1 & w2 & evs & H1 & H2 & H3 & H4 & H5 & H6 & H7 & H8 & H9).
  - vm_compute; reflexivity.
  - vm_compute; reflexivity.
  - vm_compute; reflexivity.
  - eexists. vm_compute. reflexivity.
  - exists w1, w2, evs. split; [exact H1|]. split; [exact H3|]. split; [exact H4|].
    split; [exact H5|]. split.
    { rewrite H6. vm_compute in H1. injection H1 as <-. reflexivity. }
    split; [exact H7|exact H8].
Defined.

Lemma use_item_mounts_match_witness :
  wf_world sample_world = true
  /\ exists r w',
       find_matching_dirs Str.lower_ascii "app" sample_world = Some (Ok r, w')
       /\ forall p, In p r ->
            PathLib.of_str (PathLib.to_str p) = p
            /\ item_enter_on_event (use_payload p) sample_prefs w'
               = (Ok HideWindowAction,
                  launched
                    (terminal_argv
                       (command_for "docker run -v $WORKSPACE_BASE:/ws image" p))
                    w').
Proof.
  split; [reflexivity|].
  refine (use_item_mounts_match Str.lower_ascii "app" sample_world sample_prefs
            "docker run -v $WORKSPACE_BASE:/ws image" eq_refl _).
  vm_compute; reflexivity.
Defined.

Lemma create_names_home_witness :
  is_Dir (fs sample_world) = true
  /\ wf_home (home sample_world) = true
  /\ PathLib.of_str "." = mkPath "" []
  /\ OS.isdir (PathLib.to_str (home sample_world)) sample_world = true
  /\ exists w' evs,
       item_enter_on_event (create_payload ".") sample_prefs sample_world
       = (Ok HideWindowAction, w')
       /\ fs w' = fs sample_world
       /\ trace w' = trace sample_world ++ evs
            ++ [Popen (terminal_argv
                         (command_for "docker run -v $WORKSPACE_BASE:/ws image"
                            (home sample_world)))]
       /\ Forall (fun e => is_Popen e = false) evs.
Proof.
  split; [reflexivity|]. split; [reflexivity|]. split; [reflexivity|].
  split; [reflexivity|].
  refine (create_names_home (create_payload ".") sample_prefs sample_world "."
            "docker run -v $WORKSPACE_BASE:/ws image" eq_refl eq_refl _ _ _ eq_refl eq_refl).
  - vm_compute; reflexivity.
  - vm_compute; reflexivity.
  - vm_compute; reflexivity.
Defined.
